(** * DataAnonymizer: a shallow embedding of [src/data_anonymizer.py]

    The development follows the class [DataAnonymizer]: the tabular store
    (a pandas [DataFrame] held in [self.df], with a copy in
    [self.original_df]), the Laplace-noise transform
    [apply_differential_privacy], the grouping-based transform
    [apply_k_anonymity] and the report of [get_anonymization_report].

    Python objects that are mutated in place live in an explicit heap, the
    text written by [print] is collected in [stdout], exceptions are results
    of the state monad [M], and the external libraries (numpy, pandas'
    scalar operations, faker, random, the file system) are the fields of two
    interfaces, [Scalars] and [Libs]. The dtype of a column, which
    decides whether a string can be assigned to its cells, is read off
    the cells. [save_anonymized_data] only writes the table to a file
    and is left out. *)

From Stdlib Require Import ZArith Ascii String.
From stdpp Require Import base tactics option list sorting strings pretty.

Local Open Scope string_scope.
Local Open Scope list_scope.

(** ** Python strings

    A [str] is modelled by a [string] holding one character per code point
    below 256; [len], slicing, repetition, [lower] and [in] are the
    built-in operations the source applies to such strings. *)
Module Py.

(** [len(s)] *)
Definition len (s : string) : Z := Z.of_nat (String.length s).

(** [len(l)] of a list or an index *)
Definition len_list {A : Type} (l : list A) : Z := Z.of_nat (length l).

Fixpoint replicate_str (n : nat) (s : string) : string :=
  match n with
  | O => ""
  | S n' => s +:+ replicate_str n' s
  end.

(** [s * n]: a count that is zero or negative gives the empty string. *)
Definition repeat (s : string) (n : Z) : string :=
  if (n <=? 0)%Z then "" else replicate_str (Z.to_nat n) s.

(** [s[:stop]] for a literal [stop >= 0]. *)
Fixpoint slice_to (stop : nat) (s : string) : string :=
  match stop, s with
  | S stop', String c s' => String c (slice_to stop' s')
  | _, _ => ""
  end.

(** [c.lower()] on one code point below 256: the letters A-Z and the
    capital letters of U+00C0..U+00DE (the sign U+00D7 excepted) move up
    by 32; every other code point is its own lower case. *)
Definition lower_char (c : ascii) : ascii :=
  let n := N_of_ascii c in
  if ((65 <=? n) && (n <=? 90) ||
      (192 <=? n) && (n <=? 222) && negb (n =? 215))%N
  then ascii_of_N (n + 32)
  else c.

(** [s.lower()] *)
Fixpoint lower (s : string) : string :=
  match s with
  | EmptyString => EmptyString
  | String c s' => String (lower_char c) (lower s')
  end.

(** [sub in s] *)
Fixpoint contains (sub s : string) : bool :=
  String.prefix sub s ||
  match s with
  | EmptyString => false
  | String _ s' => contains sub s'
  end.

(** [s.ljust(width)], the padding of the format spec [:<width]. *)
Definition ljust (width : nat) (s : string) : string :=
  s +:+ replicate_str (width - String.length s) " ".

(** [c.isspace()] on one code point below 256: the controls U+0009..U+000D
    and U+001C..U+001F, the space, U+0085 and U+00A0. *)
Definition isspace (c : ascii) : bool :=
  let n := N_of_ascii c in
  ((9 <=? n) && (n <=? 13) || (28 <=? n) && (n <=? 32) ||
   (n =? 133) || (n =? 160))%N.

(** [s.lstrip()], [s.rstrip()] and [s.strip()] *)
Fixpoint lstrip (s : string) : string :=
  match s with
  | EmptyString => EmptyString
  | String c s' => if isspace c then lstrip s' else s
  end.

Fixpoint rstrip (s : string) : string :=
  match s with
  | EmptyString => EmptyString
  | String c s' =>
      match rstrip s' with
      | EmptyString => if isspace c then EmptyString else String c EmptyString
      | String d t => String c (String d t)
      end
  end.

Definition strip (s : string) : string := rstrip (lstrip s).

(** [s.split(sep)] for a separator of one character: the fields between
    the separators, empty fields kept; the empty string has one field. *)
Fixpoint split (sep : ascii) (s : string) : list string :=
  match s with
  | EmptyString => [EmptyString]
  | String c s' =>
      if Ascii.eqb c sep then EmptyString :: split sep s'
      else
        match split sep s' with
        | [] => [String c EmptyString]
        | field :: fields => String c field :: fields
        end
  end.

(** [sep.join(fields)] *)
Fixpoint join (sep : string) (fields : list string) : string :=
  match fields with
  | [] => EmptyString
  | [field] => field
  | field :: fields' => field +:+ sep +:+ join sep fields'
  end.

End Py.

(** ** Exceptions and results *)

Inductive exn : Type :=
  | FileNotFoundError
  | ValueError
  | KeyError
  | TypeError
  | AttributeError
  | ParserError.

Inductive result (A : Type) : Type :=
  | Ok (a : A)
  | Raise (e : exn).
Arguments Ok {A} a.
Arguments Raise {A} e.

(** ** Scalars of a column

    The numeric cells of a DataFrame are numpy scalars ([int64] or
    [float64], NaN included). Their arithmetic is numpy's and is not
    reproduced: the operations the source calls are the fields of this
    interface. *)
Class Scalars : Type := {
  num : Type;
  (** equality of the hash tables behind [groupby] and [nunique] *)
  num_eqb : num -> num -> bool;
  (** [pd.isna] *)
  num_isnan : num -> bool;
  (** [str(x)] *)
  num_str : num -> string;
  (** the literal [0] passed as [loc] *)
  num_zero : num;
  num_add : num -> num -> num;
  num_sub : num -> num -> num;
  num_div : num -> num -> num;
  (** [x < 0], the check of [np.random.laplace] on its scale *)
  num_ltz : num -> bool;
  (** [x.round(decimals)] *)
  num_round : Z -> num -> num;
  (** [Series.max()] and [Series.min()] *)
  series_max : list num -> num;
  series_min : list num -> num
}.

Section Store.
Context `{Scalars}.

(** A cell is a string, a numeric scalar or a boolean; a missing value is
    the NaN scalar. *)
Inductive value : Type :=
  | VStr (s : string)
  | VNum (x : num)
  | VBool (b : bool).

(** [str(x)] *)
Definition str (v : value) : string :=
  match v with
  | VStr s => s
  | VNum x => num_str x
  | VBool true => "True"
  | VBool false => "False"
  end.

Definition value_eqb (v w : value) : bool :=
  match v, w with
  | VStr s, VStr t => bool_decide (s = t)
  | VNum x, VNum y => num_eqb x y
  | VBool a, VBool b => bool_decide (a = b)
  | _, _ => false
  end.

Definition isna (v : value) : bool :=
  match v with
  | VNum x => num_isnan x
  | _ => false
  end.

(** *** Column types

    pandas gives every column a dtype. For the columns [read_csv] makes
    and the transforms leave, the dtype can be read off the cells: it is
    numeric ([int64] or [float64]) when every cell is a number, NaN
    included, and [bool] when every cell is a boolean; any other column,
    one that holds a string or one that mixes booleans with missing
    values, has dtype [str] or [object], as has a column of no cell. Only
    a column of the last kind can hold a string. *)
Definition is_str (v : value) : bool :=
  match v with
  | VStr _ => true
  | _ => false
  end.

Definition is_num (v : value) : bool :=
  match v with
  | VNum _ => true
  | _ => false
  end.

Definition is_bool (v : value) : bool :=
  match v with
  | VBool _ => true
  | _ => false
  end.

Definition accepts_str (c : list value) : bool :=
  match c with
  | [] => true
  | _ :: _ => negb (forallb is_num c) && negb (forallb is_bool c)
  end.

(** *** The DataFrame

    Named columns in order, each a list of cells; the index is the
    [RangeIndex] [0 .. nrows-1] that [read_csv] gives. *)
Record frame : Type := Frame {
  nrows : nat;
  cols : list (string * list value)
}.

(** [df.columns] *)
Definition columns (f : frame) : list string := (cols f).*1.

(** Column labels are unique and every column has [nrows] cells. *)
Definition wf_frame (f : frame) : Prop :=
  NoDup (columns f) ∧ Forall (λ c, length c.2 = nrows f) (cols f).

Fixpoint assoc {A : Type} (c : string) (l : list (string * A)) : option A :=
  match l with
  | [] => None
  | (c', x) :: l' => if decide (c' = c) then Some x else assoc c l'
  end.

Fixpoint assoc_alter {A : Type} (g : A -> A) (c : string)
    (l : list (string * A)) : list (string * A) :=
  match l with
  | [] => []
  | (c', x) :: l' =>
      if decide (c' = c) then (c', g x) :: l'
      else (c', x) :: assoc_alter g c l'
  end.

(** [col in df.columns] *)
Definition has_column (f : frame) (c : string) : bool :=
  bool_decide (c ∈ columns f).

(** [df[col]] *)
Definition getitem (f : frame) (c : string) : option (list value) :=
  assoc c (cols f).

(** [df[col] = g(df[col])] for a column that exists: the column keeps its
    place. *)
Definition alter_column (g : list value -> list value) (c : string)
    (f : frame) : frame :=
  Frame (nrows f) (assoc_alter g c (cols f)).

(** the cell of column [c] at row [i] *)
Definition cell (f : frame) (c : string) (i : nat) : option value :=
  getitem f c ≫= (.!! i).

(** *** The grouper: [df.groupby(by, dropna=...).groups] *)

Definition key : Type := list value.

Definition key_eqb (k1 k2 : key) : bool :=
  bool_decide (length k1 = length k2) &&
  forallb (λ p, value_eqb p.1 p.2) (zip k1 k2).

(** the tuple of row [i] over the key columns *)
Definition row_key (ks : list (list value)) (i : nat) : key :=
  omap (.!! i) ks.

Definition group : Type := key * list nat.

(** Row [i] joins the class whose key it has, at the end, or opens a new
    class. *)
Fixpoint add_to_group (k : key) (i : nat) (gs : list group) : list group :=
  match gs with
  | [] => [(k, [i])]
  | (k', idx) :: gs' =>
      if key_eqb k' k then (k', idx ++ [i]) :: gs'
      else (k', idx) :: add_to_group k i gs'
  end.

(** One pass over the rows in index order; with [dropna] a row whose key
    has a missing value is left out. *)
Definition classify (dropna : bool) (ks : list (list value)) (n : nat)
    : list group :=
  foldl (λ gs i,
           let k := row_key ks i in
           if dropna && existsb isna k then gs else add_to_group k i gs)
        [] (seq 0 n).

End Store.

Arguments value {_}.
Arguments frame {_}.
Arguments key {_}.
Arguments group {_}.

(** ** The libraries behind the class

    The random generators (numpy's global generator, [random] and the
    [Faker] instance) share one abstract state [rng]; each call takes the
    state and returns the value drawn with the next state.
    [groupby(...).groups] lists the classes in pandas' order of the keys,
    which is kept abstract: [groups_order] rearranges the classes and
    neither adds, drops nor changes one.

    The source does not say which release of pandas it runs on, and the
    releases differ in two places the class goes through; each is a field
    here, so that what is proved holds on either side of the change.
    - [.groups] of a grouper with one key column: the releases before 3.0
      raise [ValueError] when that column holds a missing value and
      [dropna] is off; later ones return the classes
      ([groups_rejects_nan]).
    - a [.loc] assignment of a string to a column of numeric or [bool]
      dtype: the releases before 3.0 convert the column to [object] and
      write, with a warning; later ones raise [TypeError] and write
      nothing ([setitem_upcasts]). *)
Class Libs `{Scalars} : Type := {
  rng : Type;
  (** one sample of [np.random.laplace(loc, scale)] *)
  laplace_sample : num -> num -> rng -> num * rng;
  (** [self.fake.zipcode()], [self.fake.job()], [self.fake.word()] *)
  fake_zipcode : rng -> string * rng;
  fake_job : rng -> string * rng;
  fake_word : rng -> string * rng;
  (** [random.choice(seq)] *)
  random_choice : list string -> rng -> string * rng;
  (** [os.path.exists] and [pd.read_csv] *)
  os_path_exists : string -> bool;
  pd_read_csv : string -> result frame;
  groups_order : list group -> list group;
  groups_order_perm : ∀ gs, groups_order gs ≡ₚ gs;
  groups_rejects_nan : bool;
  setitem_upcasts : bool
}.

Section Anonymizer.
Context `{Libs}.

(** ** The object and its world

    [self.df] and [self.original_df] are references into a heap of
    DataFrame objects ([None] before [load_data]); [stdout] holds the
    lines printed so far, oldest first. *)
Record state : Type := State {
  self_df : option nat;
  self_original_df : option nat;
  heap : list frame;
  stdout : list string;
  random : rng
}.

(** [DataAnonymizer()] *)
Definition init (r : rng) : state := State None None [] [] r.

Definition M (A : Type) : Type := state -> result A * state.

#[export] Instance M_ret : MRet M := λ A a s, (Ok a, s).
#[export] Instance M_bind : MBind M := λ A B k m s,
  match m s with
  | (Ok a, s') => k a s'
  | (Raise e, s') => (Raise e, s')
  end.

Definition raise {A : Type} (e : exn) : M A := λ s, (Raise e, s).

Definition lift_result {A : Type} (r : result A) : M A := λ s, (r, s).

(** [for x in l: body(x)] *)
Fixpoint for_each {A : Type} (l : list A) (body : A -> M unit) : M unit :=
  match l with
  | [] => mret ()
  | x :: l' => body x ;; for_each l' body
  end.

(** [print(line)] *)
Definition print (line : string) : M unit := λ s,
  (Ok (), State (self_df s) (self_original_df s) (heap s)
                (stdout s ++ [line]) (random s)).

(** a call to one of the random generators *)
Definition sample {A : Type} (g : rng -> A * rng) : M A := λ s,
  let '(a, r) := g (random s) in
  (Ok a, State (self_df s) (self_original_df s) (heap s) (stdout s) r).

(** the object an attribute refers to; an attribute of [None] is an
    [AttributeError] *)
Definition deref (ref : state -> option nat) : M frame := λ s,
  match ref s ≫= (heap s !!.) with
  | Some f => (Ok f, s)
  | None => (Raise AttributeError, s)
  end.

(** an in-place update of the object [self.df] refers to *)
Definition update_df (g : frame -> frame) : M unit := λ s,
  match self_df s with
  | Some l =>
      (Ok (), State (self_df s) (self_original_df s)
                    (alter g l (heap s)) (stdout s) (random s))
  | None => (Raise AttributeError, s)
  end.

(** an in-place update of that object by an operation that can fail; a
    failed operation leaves the object as it is *)
Definition modify_df (g : frame -> result frame) : M unit :=
  df ← deref self_df;
  match g df with
  | Ok df' => update_df (λ _, df')
  | Raise e => raise e
  end.

(** a new object on the heap *)
Definition alloc (f : frame) : M nat := λ s,
  (Ok (length (heap s)),
   State (self_df s) (self_original_df s) (heap s ++ [f])
         (stdout s) (random s)).

Definition set_self_df (l : nat) : M unit := λ s,
  (Ok (), State (Some l) (self_original_df s) (heap s) (stdout s) (random s)).

Definition set_self_original_df (l : nat) : M unit := λ s,
  (Ok (), State (self_df s) (Some l) (heap s) (stdout s) (random s)).

(** ** [load_data] *)
Definition load_data (filepath : string) : M unit :=
  if negb (os_path_exists filepath) then raise FileNotFoundError
  else
    f ← lift_result (pd_read_csv filepath);
    l ← alloc f;
    set_self_df l;;
    (* self.df.copy() is a deep copy: a second object with equal cells *)
    f' ← deref self_df;
    l' ← alloc f';
    set_self_original_df l';;
    f'' ← deref self_df;
    print ("Dataset loaded successfully with " +:+ pretty (nrows f'') +:+
           " rows and " +:+ pretty (length (cols f'')) +:+ " columns.").

(** ** [apply_differential_privacy] *)

(** [n] successive calls of a generator: [[g() for _ in range(n)]] *)
Fixpoint draw {A : Type} (g : rng -> A * rng) (n : nat) (r : rng)
    : list A * rng :=
  match n with
  | O => ([], r)
  | S n' =>
      let '(a, r1) := g r in
      let '(l, r2) := draw g n' r1 in
      (a :: l, r2)
  end.

(** [np.random.laplace(loc, scale, size)]: a negative scale is a
    [ValueError], otherwise [size] samples are drawn. *)
Definition np_random_laplace (loc scale : num) (size : nat) : M (list num) :=
  if num_ltz scale then raise ValueError
  else sample (draw (laplace_sample loc scale) size).

(** the cells of a numeric column; the reductions and the subtraction
    fail with a [TypeError] on strings and booleans *)
Definition as_num (v : value) : option num :=
  match v with
  | VNum x => Some x
  | _ => None
  end.

Definition numeric (c : list value) : M (list num) :=
  match mapM as_num c with
  | Some xs => mret xs
  | None => raise TypeError
  end.

(** [df[col]] as a statement that can fail *)
Definition column_of (f : frame) (c : string) : M (list value) :=
  match getitem f c with
  | Some l => mret l
  | None => raise KeyError
  end.

(** [series + noise]: the operands must have one length *)
Definition series_add (xs noise : list num) : M (list num) :=
  if bool_decide (length xs = length noise)
  then mret (zip_with num_add xs noise)
  else raise ValueError.

Definition dp_column (epsilon : num) (col : string) : M unit :=
  df ← deref self_df;
  if has_column df col then
    c ← column_of df col;
    xs ← numeric c;
    let sensitivity := num_sub (series_max xs) (series_min xs) in
    let scale := num_div sensitivity epsilon in
    noise ← np_random_laplace num_zero scale (nrows df);
    ys ← series_add xs noise;
    update_df (alter_column (λ _, VNum <$> ys) col);;
    update_df (alter_column (fmap (λ v, match v with
                                        | VNum y => VNum (num_round 2 y)
                                        | _ => v
                                        end)) col);;
    print ("Differential Privacy applied on '" +:+ col +:+
           "' with epsilon=" +:+ num_str epsilon +:+ ".")
  else
    print ("Warning: Column '" +:+ col +:+ "' not found in dataset.").

Definition apply_differential_privacy (numerical_columns : list string)
    (epsilon : num) : M unit :=
  for_each numerical_columns (dp_column epsilon).

(** ** [apply_k_anonymity] *)

(** [df.groupby(by, dropna=dropna).groups]: an empty [by] is a
    [ValueError], a label that is no column a [KeyError]; with one key
    column that holds a missing value and [dropna] off, the releases of
    pandas that reject it raise [ValueError]. *)
Definition groupby (f : frame) (by_ : list string) (dropna : bool)
    : result (list group) :=
  match by_ with
  | [] => Raise ValueError
  | _ :: _ =>
      match mapM (getitem f) by_ with
      | Some ks =>
          if groups_rejects_nan && negb dropna &&
             bool_decide (length ks = 1) && existsb (existsb isna) ks
          then Raise ValueError
          else Ok (groups_order (classify dropna ks (nrows f)))
      | None => Raise KeyError
      end
  end.

(** [lambda x: '*' * len(str(x))] *)
Definition suppress (x : value) : value :=
  VStr (Py.repeat "*" (Py.len (str x))).

(** [lambda x: str(x)[:2] + '*' * (len(str(x)) - 2)] *)
Definition generalize (x : value) : value :=
  VStr (Py.slice_to 2 (str x) +:+ Py.repeat "*" (Py.len (str x) - 2)).

(** *** The assignments [df.loc[indices, col] = ...]

    [indices] holds labels of the table (a class of the grouper) and
    [col] is one of its columns. An assignment that has a string to
    write into a column whose dtype cannot hold one is refused, unless
    the library converts the column: it raises [TypeError] before any
    cell of the column is written. *)
Definition refuses (c written : list value) : bool :=
  negb setitem_upcasts && existsb is_str written && negb (accepts_str c).

(** the cells of a column after [.loc[indices] = series]: the series has
    the index of the frame and is aligned on it, so row [i] of [indices]
    takes the cell of the series at label [i]; the other rows keep their
    cell *)
Definition write_series (indices : list nat) (series : list value)
    : list value -> list value :=
  imap (λ i v, if bool_decide (i ∈ indices)
               then default v (series !! i) else v).

(** the cells of a column after [.loc[indices] = values] for a list: by
    position, the j-th label of [indices] takes the j-th value *)
Definition write_list (indices : list nat) (values : list value)
    : list value -> list value :=
  λ old, foldl (λ acc p, <[p.1 := p.2]> acc) old (zip indices values).

(** [df.loc[indices, col] = series] *)
Definition loc_assign_series (indices : list nat) (col : string)
    (series : list value) (f : frame) : result frame :=
  if from_option (λ c, refuses c (omap (series !!.) indices)) false
                 (getitem f col)
  then Raise TypeError
  else Ok (alter_column (write_series indices series) col f).

(** [df.loc[indices, col] = values] *)
Definition loc_assign_list (indices : list nat) (col : string)
    (values : list value) (f : frame) : result frame :=
  if from_option (λ c, refuses c (zip indices values).*2) false
                 (getitem f col)
  then Raise TypeError
  else Ok (alter_column (write_list indices values) col f).

(** The branches of the synthetic strategy, in the order the source
    tests them on [col.lower()]. *)
Inductive synthetic_kind : Type :=
  | Zipcode
  | Gender
  | Job
  | Word.

Definition synthetic_kind_of (col : string) : synthetic_kind :=
  if Py.contains "zip" (Py.lower col) then Zipcode
  else if Py.contains "gender" (Py.lower col) then Gender
  else if Py.contains "occupation" (Py.lower col) ||
          Py.contains "job" (Py.lower col) then Job
  else Word.

Definition generate (kind : synthetic_kind) : rng -> string * rng :=
  match kind with
  | Zipcode => fake_zipcode
  | Gender => random_choice ["Male"; "Female"]
  | Job => fake_job
  | Word => fake_word
  end.

(** the body of the inner loop, for one small class and one column; the
    right-hand side of an assignment is computed before the assignment is
    made, so the synthetic values are drawn also when it is refused *)
Definition rewrite_group (strategy : string) (indices : list nat)
    (col : string) : M unit :=
  if bool_decide (strategy = "suppression") then
    df ← deref self_df;
    c ← column_of df col;
    modify_df (loc_assign_series indices col (suppress <$> c))
  else if bool_decide (strategy = "generalization") then
    df ← deref self_df;
    c ← column_of df col;
    modify_df (loc_assign_series indices col (generalize <$> c))
  else if bool_decide (strategy = "synthetic") then
    values ← sample (draw (generate (synthetic_kind_of col))
                          (length indices));
    modify_df (loc_assign_list indices col (VStr <$> values))
  else mret ().

(** the classes with fewer than [k] rows; the source keeps their keys
    and reads the rows back with [groups[group]], which is the entry of
    that key *)
Definition small_groups (k : Z) (groups : list group) : list group :=
  filter (λ g, (Py.len_list g.2 < k)%Z) groups.

Definition apply_k_anonymity (quasi_identifiers : list string) (k : Z)
    (strategy : string) : M unit :=
  if negb (bool_decide
             (strategy ∈ ["suppression"; "generalization"; "synthetic"]))
  then raise ValueError
  else
    df ← deref self_df;
    groups ← lift_result (groupby df quasi_identifiers false);
    for_each (small_groups k groups) (λ g,
      let indices := g.2 in
      for_each quasi_identifiers (rewrite_group strategy indices));;
    print ("K-Anonymity (" +:+ strategy +:+ ") applied with k=" +:+
           pretty k +:+ ".").

(** ** [get_anonymization_report] *)

(** the distinct values of a column in order of first appearance,
    missing values left out *)
Definition uniques (l : list value) : list value :=
  foldl (λ seen v,
           if isna v || existsb (λ u, value_eqb u v) seen then seen
           else seen ++ [v])
        [] l.

(** [series.nunique()] *)
Definition nunique (l : list value) : Z := Py.len_list (uniques l).

(** [(col, original_unique, anonymized_unique, privacy_gain)] *)
Definition entry : Type := string * Z * Z * Z.

Definition entry_column (e : entry) : string := e.1.1.1.
Definition entry_original (e : entry) : Z := e.1.1.2.
Definition entry_anonymized (e : entry) : Z := e.1.2.
Definition entry_gain (e : entry) : Z := e.2.

(** [for x in l: acc = body(x, acc)] *)
Fixpoint fold_each {A B : Type} (l : list A) (body : A -> B -> M B)
    (acc : B) : M B :=
  match l with
  | [] => mret acc
  | x :: l' => acc' ← body x acc; fold_each l' body acc'
  end.

Definition report_column (col : string) (report : list entry)
    : M (list entry) :=
  df ← deref self_df;
  if has_column df col then
    original ← deref self_original_df;
    oc ← column_of original col;
    let original_unique := nunique oc in
    df' ← deref self_df;
    ac ← column_of df' col;
    let anonymized_unique := nunique ac in
    let privacy_gain := (original_unique - anonymized_unique)%Z in
    mret (report ++
          [(col, original_unique, anonymized_unique, privacy_gain)])
  else mret report.

(** the list [report] the method builds before it prints *)
Definition build_report : M (list entry) :=
  original ← deref self_original_df;
  fold_each (columns original) report_column [].

Definition report_line (e : entry) : string :=
  Py.ljust 20 (entry_column e) +:+ " " +:+
  Py.ljust 20 (pretty (entry_original e)) +:+ " " +:+
  Py.ljust 20 (pretty (entry_anonymized e)) +:+ " " +:+
  pretty (entry_gain e).

Definition report_header : string :=
  Py.ljust 20 "Column" +:+ " " +:+ Py.ljust 20 "Original Unique" +:+ " " +:+
  Py.ljust 20 "Anonymized Unique" +:+ " " +:+ "Privacy Gain".

(** The method prints the report and returns [None]; the list it has
    built is returned here so that it can be spoken of. *)
Definition get_anonymization_report : M (list entry) :=
  report ← build_report;
  print (String "010" "Anonymization Report:");;
  print report_header;;
  print (Py.repeat "-" 75);;
  for_each report (λ e, print (report_line e));;
  print (Py.repeat "-" 75);;
  mret report.

(** ** Sequences of transform calls *)

Inductive call : Type :=
  | DifferentialPrivacy (numerical_columns : list string) (epsilon : num)
  | KAnonymity (quasi_identifiers : list string) (k : Z) (strategy : string).

Definition run_call (c : call) : M unit :=
  match c with
  | DifferentialPrivacy cs eps => apply_differential_privacy cs eps
  | KAnonymity qi k strategy => apply_k_anonymity qi k strategy
  end.

(** The calls are made one after the other; a caller that catches an
    exception goes on with the next call. *)
Definition run_calls (cs : list call) (s : state) : state :=
  foldl (λ s c, (run_call c s).2) s cs.

(** ** Observations used in the statements *)

(** the tables [self.df] and [self.original_df] refer to *)
Definition current (s : state) : option frame :=
  self_df s ≫= (heap s !!.).

Definition original (s : state) : option frame :=
  self_original_df s ≫= (heap s !!.).

(** [s] with the line [line] printed *)
Definition logged (line : string) (s : state) : state :=
  State (self_df s) (self_original_df s) (heap s) (stdout s ++ [line])
        (random s).

(** two states that differ in the printed text only *)
Definition same_store (s t : state) : Prop :=
  self_df s = self_df t ∧ self_original_df s = self_original_df t ∧
  heap s = heap t ∧ random s = random t.

(** every character of [s] is a star *)
Definition all_stars (s : string) : Prop :=
  Forall (λ c, c = "*"%char) (list_ascii_of_string s).

(** [new] is what [strategy] writes over [old] in column [col]: the
    suppressed or generalized form of [old], or a string produced by one
    call of the generator chosen for [col]. *)
Definition rewritten (strategy col : string) (old new : value) : Prop :=
  (strategy = "suppression" ∧ new = suppress old) ∨
  (strategy = "generalization" ∧ new = generalize old) ∨
  (strategy = "synthetic" ∧
   ∃ r, new = VStr (generate (synthetic_kind_of col) r).1).

(** The cells of [f] against those of [df]: the tables have one shape, the
    cells in the region [D] (row, column) hold what [strategy] writes over
    the cell of [df], and the cells outside [D] are those of [df]. *)
Definition cells_rewritten (strategy : string) (D : nat → string → Prop)
    (df f : frame) : Prop :=
  nrows f = nrows df ∧ columns f = columns df ∧
  (∀ c col, getitem f c = Some col → length col = nrows df) ∧
  ∀ c i old, cell df c i = Some old →
    ∃ new, cell f c i = Some new ∧
           ((¬ D i c ∧ new = old) ∨ (D i c ∧ rewritten strategy c old new)).

(** column [c] of [f] has dtype [str] or [object] *)
Definition string_column (f : frame) (c : string) : bool :=
  from_option accepts_str false (getitem f c).

(** a string can be assigned to cells of column [c] of [f] *)
Definition takes_strings (f : frame) (c : string) : bool :=
  setitem_upcasts || string_column f c.

(** the rewriting loops run through: there is no class to rewrite, or
    every grouping column takes the strings written *)
Definition writable (f : frame) (cols : list string) (small : list group)
    : bool :=
  match small with
  | [] => true
  | _ :: _ => forallb (takes_strings f) cols
  end.

(** A computation that leaves the two references alone and writes to no
    object but the one [self.df] refers to. *)
Definition writes_df_only {A : Type} (m : M A) : Prop :=
  ∀ s, self_df (m s).2 = self_df s ∧
       self_original_df (m s).2 = self_original_df s ∧
       length (heap (m s).2) = length (heap s) ∧
       ∀ l, self_df s ≠ Some l → heap (m s).2 !! l = heap s !! l.

(** A computation whose result and whose effect on the store do not
    depend on the text printed so far. *)
Definition stdout_blind {A : Type} (m : M A) : Prop :=
  ∀ s t, same_store s t →
         (m s).1 = (m t).1 ∧ same_store (m s).2 (m t).2.

(** the scale [apply_differential_privacy] computes for a column *)
Definition dp_scale (xs : list num) (epsilon : num) : num :=
  num_div (num_sub (series_max xs) (series_min xs)) epsilon.

End Anonymizer.

(** ** The script

    The [__main__] block reads its settings from the console, runs the two
    transforms, saves and reports. The parts that turn the lines read into
    the arguments of the transforms are modelled, with the two calls made
    on them; the console, [float], [int] and the file written are not. *)
Section Script.
Context `{Libs}.

(** [input(...).strip().split(',')] followed by
    [[col.strip() for col in ...]], on the line read *)
Definition parse_columns (line : string) : list string :=
  Py.strip <$> Py.split "," (Py.strip line).

(** [strategy_mapping] *)
Definition strategy_mapping : list (string * string) :=
  [("1", "suppression"); ("2", "generalization"); ("3", "synthetic")].

(** [strategy_mapping.get(strategy_choice, 'generalization')] *)
Definition strategy_of (strategy_choice : string) : string :=
  default "generalization" (assoc strategy_choice strategy_mapping).


End Script.

(** ** A concrete instance

    Integers with one extra element for NaN stand for the numpy scalars,
    and a counter for the random generators, so that the model can be run
    on small tables. *)
Module Demo.

Definition lift2 (op : Z -> Z -> Z) (x y : option Z) : option Z :=
  match x, y with
  | Some a, Some b => Some (op a b)
  | _, _ => None
  end.

Definition reduce (op : Z -> Z -> Z) (l : list (option Z)) : option Z :=
  match omap id l with
  | [] => None
  | a :: l' => Some (foldl op a l')
  end.

#[export] Instance scalars : Scalars := {|
  num := option Z;
  num_eqb := λ x y, bool_decide (x = y);
  num_isnan := λ x, bool_decide (x = None);
  num_str := λ x, match x with Some z => pretty z | None => "nan" end;
  num_zero := Some 0%Z;
  num_add := lift2 Z.add;
  num_sub := lift2 Z.sub;
  num_div := λ x y, if bool_decide (y = Some 0%Z) then None else lift2 Z.div x y;
  num_ltz := λ x, match x with Some z => (z <? 0)%Z | None => false end;
  num_round := λ _ x, x;
  series_max := reduce Z.max;
  series_min := reduce Z.min
|}.

(** four rows: a numeric column and two columns of strings, one cell
    missing *)
Definition table : frame :=
  Frame 4
    [("age", [VNum (Some 31%Z); VNum (Some 45%Z); VNum (Some 31%Z); VNum (Some 52%Z)]);
     ("city", [VStr "Oslo"; VStr "Rome"; VStr "Oslo"; VNum None]);
     ("Zip_Gender", [VStr "0150"; VStr "7"; VStr "0150"; VStr "00199"])].

#[export] Instance libs : Libs := {|
  rng := nat;
  laplace_sample := λ loc scale r,
    (num_add loc (num_sub scale (Some (Z.of_nat r))), S r);
  fake_zipcode := λ r, ("9000" +:+ pretty r, S r);
  fake_job := λ r, ("Clerk " +:+ pretty r, S r);
  fake_word := λ r, ("word" +:+ pretty r, S r);
  random_choice := λ l r, (default "" (l !! (r `mod` length l)), S r);
  os_path_exists := λ p, bool_decide (p = "data.csv");
  pd_read_csv := λ _, Ok table;
  groups_order := reverse;
  groups_order_perm := reverse_Permutation;
  groups_rejects_nan := false;
  setitem_upcasts := false
|}.

(** the object as [DataAnonymizer()] makes it *)
Definition fresh : state := init 0.

(** the object after [load_data("data.csv")] *)
Definition loaded : state := (load_data "data.csv" fresh).2.

(** the cells of its two columns of strings *)
Definition city_cells : list value :=
  [VStr "Oslo"; VStr "Rome"; VStr "Oslo"; VNum None].

Definition zip_cells : list value :=
  [VStr "0150"; VStr "7"; VStr "0150"; VStr "00199"].

(** the classes of [table] over the two columns of strings *)
Definition classes : list group :=
  [([VNum None; VStr "00199"], [3]);
   ([VStr "Rome"; VStr "7"], [1]);
   ([VStr "Oslo"; VStr "0150"], [0; 2])].

(** [table] once the classes of fewer than 2 rows are suppressed in
    column "city" *)
Definition suppressed_table : frame :=
  Frame 4
    [("age", [VNum (Some 31%Z); VNum (Some 45%Z); VNum (Some 31%Z); VNum (Some 52%Z)]);
     ("city", [VStr "Oslo"; VStr "****"; VStr "Oslo"; VStr "***"]);
     ("Zip_Gender", [VStr "0150"; VStr "7"; VStr "0150"; VStr "00199"])].

Definition suppressed : state :=
  (apply_k_anonymity ["city"] 2 "suppression" loaded).2.

(** The same libraries on the other side of the two changes of pandas
    3.0: the grouper rejects a missing key and an assignment converts the
    column. The instance above is the one the names of this module refer
    to; this one is named where it is meant. *)
Definition legacy : Libs := {|
  rng := nat;
  laplace_sample := λ loc scale r,
    (num_add loc (num_sub scale (Some (Z.of_nat r))), S r);
  fake_zipcode := λ r, ("9000" +:+ pretty r, S r);
  fake_job := λ r, ("Clerk " +:+ pretty r, S r);
  fake_word := λ r, ("word" +:+ pretty r, S r);
  random_choice := λ l r, (default "" (l !! (r `mod` length l)), S r);
  os_path_exists := λ p, bool_decide (p = "data.csv");
  pd_read_csv := λ _, Ok table;
  groups_order := reverse;
  groups_order_perm := reverse_Permutation;
  groups_rejects_nan := true;
  setitem_upcasts := true
|}.

Definition legacy_loaded : @state scalars legacy :=
  (@load_data scalars legacy "data.csv" (@init scalars legacy 0)).2.

End Demo.

(** * Properties *)

(** ** Strings *)
Section PyFacts.

#[local] Arguments String.append !_ _ / : simpl nomatch.

Lemma length_str_app (a b : string) :
  String.length (a +:+ b) = String.length a + String.length b.
Proof. induction a as [|c a IH]; simpl; [done | by rewrite IH]. Qed.

Lemma length_replicate_str (n : nat) (c : ascii) :
  String.length (Py.replicate_str n (String c "")) = n.
Proof. induction n as [|n IH]; simpl; [done | by rewrite IH]. Qed.

Lemma len_repeat (c : ascii) (n : Z) :
  Py.len (Py.repeat (String c "") n) = Z.max 0 n.
Proof.
  unfold Py.len, Py.repeat. destruct (Z.leb_spec n 0) as [Hn|Hn].
  - simpl. lia.
  - rewrite length_replicate_str. lia.
Qed.

Lemma all_stars_replicate (n : nat) : all_stars (Py.replicate_str n "*").
Proof.
  unfold all_stars. induction n as [|n IH]; simpl; [constructor|].
  constructor; [done | exact IH].
Qed.

Lemma all_stars_repeat (n : Z) : all_stars (Py.repeat "*" n).
Proof.
  unfold Py.repeat. destruct (n <=? 0)%Z; [constructor|].
  apply all_stars_replicate.
Qed.

(** a repetition is determined by its length *)
Lemma repeat_len_eq (a b : Z) :
  Z.max 0 a = Z.max 0 b → Py.repeat "*" a = Py.repeat "*" b.
Proof.
  unfold Py.repeat. intros Hab.
  destruct (Z.leb_spec a 0), (Z.leb_spec b 0); try done; try lia.
  f_equal. lia.
Qed.

Lemma length_slice_to (n : nat) (s : string) :
  String.length (Py.slice_to n s) = n `min` String.length s.
Proof.
  revert s. induction n as [|n IH]; intros [|c s]; simpl; try done.
  by rewrite IH.
Qed.

Lemma slice_to_app (n : nat) (s t : string) :
  (n ≤ String.length s)%nat → Py.slice_to n (s +:+ t) = Py.slice_to n s.
Proof.
  revert s. induction n as [|n IH]; intros [|c s] Hn; simpl in *;
    try done; try lia.
  f_equal. apply IH. lia.
Qed.

Lemma slice_to_idemp (n : nat) (s : string) :
  Py.slice_to n (Py.slice_to n s) = Py.slice_to n s.
Proof.
  revert s. induction n as [|n IH]; intros [|c s]; simpl; try done.
  by rewrite IH.
Qed.

Lemma slice_to_all (n : nat) (s : string) :
  (String.length s ≤ n)%nat → Py.slice_to n s = s.
Proof.
  revert s. induction n as [|n IH]; intros [|c s] Hn; simpl in *;
    try done; try lia.
  f_equal. apply IH. lia.
Qed.

Lemma app_empty_r (s : string) : s +:+ "" = s.
Proof. induction s as [|c s IH]; simpl; [done | by rewrite IH]. Qed.

Lemma app_assoc_str (a b c : string) : (a +:+ b) +:+ c = a +:+ (b +:+ c).
Proof. induction a as [|x a IH]; simpl; [done | by rewrite IH]. Qed.

(** [String.prefix] is "starts with" *)
Lemma prefix_spec (sub s : string) :
  String.prefix sub s = true ↔ ∃ b, s = sub +:+ b.
Proof.
  revert s. induction sub as [|c sub IH]; intros s.
  - destruct s; simpl; split; eauto.
  - destruct s as [|d s]; simpl.
    + split; [done | intros [b Hb]; discriminate].
    + destruct (ascii_dec c d) as [->|Hne].
      * rewrite IH. split; intros [b Hb]; exists b; congruence.
      * split; [done | intros [b Hb]; congruence].
Qed.

(** [sub in s] holds exactly when [sub] occurs in [s] *)
Lemma contains_spec (sub s : string) :
  Py.contains sub s = true ↔ ∃ a b, s = a +:+ sub +:+ b.
Proof.
  induction s as [|d s IH].
  - cbn [Py.contains]. rewrite orb_false_r, prefix_spec. split.
    + intros [b Hb]. by exists "", b.
    + intros [a [b Hb]]. destruct a; [by exists b | discriminate].
  - cbn [Py.contains]. rewrite orb_true_iff, prefix_spec, IH. split.
    + intros [[b Hb] | [a [b Hb]]].
      * by exists "", b.
      * exists (String d a), b. simpl. by rewrite Hb.
    + intros [a [b Hb]]. destruct a as [|x a].
      * left. by exists b.
      * right. exists a, b. simpl in Hb. congruence.
Qed.

End PyFacts.

(** ** The two string strategies on one cell *)
Section Strategies.
Context `{Scalars}.

#[local] Arguments String.append !_ _ / : simpl nomatch.

Lemma suppress_stars (v : value) :
  ∃ out, suppress v = VStr out ∧ all_stars out ∧
         Py.len out = Py.len (str v).
Proof.
  eexists. split; [reflexivity|]. split; [apply all_stars_repeat|].
  rewrite len_repeat. unfold Py.len. lia.
Qed.

Lemma suppress_idemp (v : value) : suppress (suppress v) = suppress v.
Proof.
  unfold suppress at 1 3. f_equal. apply repeat_len_eq.
  cbn [str suppress]. rewrite len_repeat. unfold Py.len. lia.
Qed.

Lemma generalize_long (v : value) :
  (2 ≤ Py.len (str v))%Z →
  ∃ out, generalize v = VStr out ∧
         Py.slice_to 2 out = Py.slice_to 2 (str v) ∧
         Py.len out = Py.len (str v).
Proof.
  intros Hlen. eexists. split; [reflexivity|]. unfold Py.len in *. split.
  - rewrite slice_to_app, slice_to_idemp; [done|].
    rewrite length_slice_to. lia.
  - rewrite length_str_app, length_slice_to.
    pose proof (len_repeat "*" (Z.of_nat (String.length (str v)) - 2)) as Hr.
    unfold Py.len in Hr. lia.
Qed.

Lemma generalize_short (v : value) :
  (Py.len (str v) < 2)%Z →
  Py.repeat "*" (Py.len (str v) - 2) = "" ∧
  generalize v = VStr (str v +:+ Py.repeat "*" 0) ∧
  generalize v = VStr (str v).
Proof.
  intros Hlen. unfold generalize, Py.len in *.
  assert (Py.repeat "*" (Z.of_nat (String.length (str v)) - 2) = "") as ->.
  { unfold Py.repeat. destruct (Z.leb_spec (Z.of_nat (String.length (str v)) - 2) 0);
      [done | lia]. }
  rewrite slice_to_all by lia. cbn [Py.repeat Z.leb Z.compare].
  by rewrite app_empty_r.
Qed.

Lemma generalize_idemp (v : value) : generalize (generalize v) = generalize v.
Proof.
  destruct (Z.lt_ge_cases (Py.len (str v)) 2) as [Hs|Hl].
  - destruct (generalize_short v Hs) as (_ & _ & Hg).
    rewrite Hg. unfold generalize at 1. cbn [str]. exact Hg.
  - destruct (generalize_long v) as (out & Hg & Hpre & Hlen); [lia|].
    rewrite Hg. unfold generalize at 1. cbn [str]. rewrite Hpre, Hlen.
    exact Hg.
Qed.

End Strategies.

(** ** Columns of a frame *)
Section Frames.
Context `{Scalars}.

Lemma assoc_alter_fst {A : Type} (g : A → A) (c : string)
    (l : list (string * A)) :
  (assoc_alter g c l).*1 = l.*1.
Proof.
  induction l as [|[c' x] l IH]; simpl; [done|].
  case_decide; simpl; [done | by f_equal].
Qed.

Lemma assoc_assoc_alter {A : Type} (g : A → A) (c c' : string)
    (l : list (string * A)) :
  assoc c' (assoc_alter g c l) =
  if decide (c = c') then g <$> assoc c l else assoc c' l.
Proof.
  induction l as [|[d x] l IH]; simpl.
  - by case_decide.
  - repeat (case_decide; simplify_eq/=); try done.
Qed.

Lemma assoc_is_Some {A : Type} (c : string) (l : list (string * A)) :
  is_Some (assoc c l) ↔ c ∈ l.*1.
Proof.
  induction l as [|[d x] l IH]; simpl.
  - split; [by intros [? ?] | by intros ?%elem_of_nil].
  - case_decide; subst.
    + split; [intros _; left | eauto].
    + rewrite IH. split; [by right | by intros [?|?]%elem_of_cons].
Qed.

Lemma assoc_elem_of {A : Type} (c : string) (l : list (string * A)) (x : A) :
  assoc c l = Some x → (c, x) ∈ l.
Proof.
  induction l as [|[d y] l IH]; simpl; [done|].
  case_decide; [intros [= <-]; subst; left | right; auto].
Qed.

Lemma has_column_true (f : frame) (c : string) :
  has_column f c = true ↔ c ∈ columns f.
Proof. unfold has_column. by rewrite bool_decide_eq_true. Qed.

Lemma getitem_is_Some (f : frame) (c : string) :
  is_Some (getitem f c) ↔ c ∈ columns f.
Proof. apply assoc_is_Some. Qed.

Lemma getitem_length (f : frame) (c : string) (col : list value) :
  wf_frame f → getitem f c = Some col → length col = nrows f.
Proof.
  intros [_ Hlen] Hc%assoc_elem_of.
  rewrite Forall_forall in Hlen. by apply (Hlen (c, col)).
Qed.

Lemma columns_alter_column g c (f : frame) :
  columns (alter_column g c f) = columns f.
Proof. apply assoc_alter_fst. Qed.

Lemma getitem_alter_column g c c' (f : frame) :
  getitem (alter_column g c f) c' =
  if decide (c = c') then g <$> getitem f c else getitem f c'.
Proof. apply assoc_assoc_alter. Qed.

Lemma cell_is_Some (f : frame) (c : string) (i : nat) :
  wf_frame f → c ∈ columns f → i < nrows f → is_Some (cell f c i).
Proof.
  intros Hwf [col Hcol]%getitem_is_Some Hi. unfold cell. rewrite Hcol. simpl.
  apply lookup_lt_is_Some. by rewrite (getitem_length f c col).
Qed.

(** *** Positional assignment *)

Lemma length_foldl_insert (zs : list (nat * value)) (old : list value) :
  length (foldl (λ acc p, <[p.1:=p.2]> acc) old zs) = length old.
Proof.
  revert old. induction zs as [|z zs IH]; intros old; simpl; [done|].
  by rewrite IH, length_insert.
Qed.

Lemma lookup_foldl_insert_notin (zs : list (nat * value)) (old : list value)
    (i : nat) :
  i ∉ zs.*1 → foldl (λ acc p, <[p.1:=p.2]> acc) old zs !! i = old !! i.
Proof.
  revert old. induction zs as [|z zs IH]; intros old Hi; simpl; [done|].
  rewrite fmap_cons, not_elem_of_cons in Hi. destruct Hi as [Hne Hi].
  rewrite IH by done. by rewrite list_lookup_insert_ne.
Qed.

Lemma lookup_foldl_insert_at (zs : list (nat * value)) (old : list value)
    (j i : nat) (v : value) :
  NoDup zs.*1 → zs !! j = Some (i, v) → i < length old →
  foldl (λ acc p, <[p.1:=p.2]> acc) old zs !! i = Some v.
Proof.
  revert old j. induction zs as [|z zs IH]; intros old j Hnd Hj Hi; [done|].
  rewrite fmap_cons, NoDup_cons in Hnd. destruct Hnd as [Hz Hnd].
  destruct j as [|j]; simpl in *.
  - simplify_eq/=. rewrite lookup_foldl_insert_notin by done.
    by rewrite list_lookup_insert_eq.
  - eapply IH; [done | done | by rewrite length_insert].
Qed.

Lemma assoc_of_elem {A : Type} (c : string) (x : A) (l : list (string * A)) :
  NoDup l.*1 → (c, x) ∈ l → assoc c l = Some x.
Proof.
  induction l as [|[d y] l IH]; simpl; [by intros _ ?%elem_of_nil|].
  rewrite NoDup_cons. intros [Hd Hnd] [[= -> ->]|Hin]%elem_of_cons.
  - by rewrite decide_True.
  - rewrite decide_False; [by apply IH|]. intros ->. apply Hd.
    apply list_elem_of_fmap. by exists (c, x).
Qed.

Lemma wf_frame_intro (f : frame) :
  NoDup (columns f) →
  (∀ c col, getitem f c = Some col → length col = nrows f) →
  wf_frame f.
Proof.
  intros Hnd Hlen. split; [done|]. apply Forall_forall. intros [c col] Hin.
  simpl. apply (Hlen c). by apply assoc_of_elem.
Qed.

(** *** Column types *)

Lemma forallb_false_elem {A : Type} (p : A → bool) (l : list A) :
  forallb p l = false → ∃ x, x ∈ l ∧ p x = false.
Proof.
  induction l as [|x l IH]; simpl; [done|].
  destruct (p x) eqn:Hx; simpl.
  - intros (y & Hy & Hpy)%IH. exists y. split; [by right | done].
  - intros _. exists x. split; [by left | done].
Qed.

Lemma forallb_false_of_elem {A : Type} (p : A → bool) (l : list A) (x : A) :
  x ∈ l → p x = false → forallb p l = false.
Proof.
  induction l as [|y l IH]; [by intros ?%elem_of_nil|].
  simpl. intros [->|Hin]%elem_of_cons Hp.
  - by rewrite Hp.
  - rewrite (IH Hin Hp). apply andb_false_r.
Qed.

(** a column has dtype [str] or [object] when it is empty or holds a cell
    that is no number and a cell that is no boolean *)
Lemma accepts_str_spec (c : list value) :
  accepts_str c = true ↔
  c = [] ∨ ((∃ v, v ∈ c ∧ is_num v = false) ∧
            (∃ v, v ∈ c ∧ is_bool v = false)).
Proof.
  destruct c as [|v c]; [simpl; split; auto|].
  unfold accepts_str. rewrite andb_true_iff, !negb_true_iff. split.
  - intros [Hn Hb]. right. split; by apply forallb_false_elem.
  - intros [?|[(x & Hx & Hnx) (y & Hy & Hby)]]; [done|].
    split; [by apply (forallb_false_of_elem _ _ x) |
            by apply (forallb_false_of_elem _ _ y)].
Qed.

(** it keeps that dtype when cells of it are replaced by strings *)
Lemma accepts_str_written (c c' : list value) :
  length c' = length c →
  (∀ i v, c !! i = Some v →
     ∃ v', c' !! i = Some v' ∧ (v' = v ∨ is_str v' = true)) →
  accepts_str c = true → accepts_str c' = true.
Proof.
  intros Hlen Hcells. rewrite !accepts_str_spec.
  intros [->|[(x & Hx & Hnx) (y & Hy & Hby)]].
  - left. by apply nil_length_inv.
  - right. split.
    + apply list_elem_of_lookup in Hx as [i Hi].
      destruct (Hcells i x Hi) as (x' & Hi' & [->|Hstr]).
      * exists x. split; [by eapply list_elem_of_lookup_2 | done].
      * exists x'. split; [by eapply list_elem_of_lookup_2|]. by destruct x'.
    + apply list_elem_of_lookup in Hy as [i Hi].
      destruct (Hcells i y Hi) as (y' & Hi' & [->|Hstr]).
      * exists y. split; [by eapply list_elem_of_lookup_2 | done].
      * exists y'. split; [by eapply list_elem_of_lookup_2|]. by destruct y'.
Qed.

(** a column of numbers, or of booleans, that is not empty cannot hold
    a string *)
Lemma accepts_str_numeric (c : list value) :
  c ≠ [] → forallb is_num c = true → accepts_str c = false.
Proof. destruct c; [done|]. unfold accepts_str. by intros _ ->. Qed.

Lemma accepts_str_boolean (c : list value) :
  c ≠ [] → forallb is_bool c = true → accepts_str c = false.
Proof.
  destruct c; [done|]. unfold accepts_str. intros _ ->. apply andb_false_r.
Qed.

(** a column that holds a string has dtype [str] or [object] *)
Lemma accepts_str_holds (c : list value) (v : value) :
  v ∈ c → is_str v = true → accepts_str c = true.
Proof.
  intros Hv Hstr. apply accepts_str_spec. right.
  split; exists v; (split; [done | by destruct v]).
Qed.

End Frames.

(** ** The grouper *)
Section Grouper.
Context `{Libs}.

Lemma add_to_group_rows (k : key) (i : nat) (gs : list group) :
  mjoin (add_to_group k i gs).*2 ≡ₚ i :: mjoin gs.*2.
Proof.
  induction gs as [|[k' idx] gs IH]; simpl; [done|].
  destruct (key_eqb k' k); simpl.
  - rewrite <- app_assoc. simpl. symmetry. apply Permutation_middle.
  - rewrite IH. symmetry. apply Permutation_middle.
Qed.

Lemma add_to_group_sorted (k : key) (i : nat) (gs : list group) :
  Forall (λ g, StronglySorted lt g.2 ∧ Forall (λ j, j < i) g.2) gs →
  Forall (λ g, StronglySorted lt g.2 ∧ Forall (λ j, j < S i) g.2)
         (add_to_group k i gs).
Proof.
  assert (∀ idx : list nat, Forall (λ j, j < i) idx → Forall (λ j, j < S i) idx)
    as Hmono by (intros idx Hidx; eapply Forall_impl; [exact Hidx | simpl; lia]).
  induction 1 as [|[k' idx] gs [Hs Hlt] Hgs IH]; simpl.
  - repeat constructor.
  - destruct (key_eqb k' k); constructor; simpl; auto.
    + split.
      * apply StronglySorted_app_2; [|done|repeat constructor].
        intros a b Ha ->%list_elem_of_singleton.
        rewrite Forall_forall in Hlt. auto.
      * rewrite Forall_app. split; [auto | repeat constructor].
    + eapply Forall_impl; [exact Hgs|]. intros g [? ?]. auto.
Qed.

Lemma classify_partition (ks : list (list value)) (n : nat) :
  mjoin (classify false ks n).*2 ≡ₚ seq 0 n ∧
  Forall (λ g, StronglySorted lt g.2 ∧ Forall (λ j, j < n) g.2)
         (classify false ks n).
Proof.
  unfold classify. induction n as [|n [IHp IHs]]; [by split; constructor|].
  rewrite seq_S, foldl_app. simpl. split.
  - rewrite add_to_group_rows, IHp. apply Permutation_cons_append.
  - by apply add_to_group_sorted.
Qed.

(** what a grouper that returns has returned *)
Lemma groupby_Ok (f : frame) (by_ : list string) (dropna : bool)
    (groups : list group) :
  groupby f by_ dropna = Ok groups →
  by_ ≠ [] ∧
  ∃ ks, mapM (getitem f) by_ = Some ks ∧
        groups = groups_order (classify dropna ks (nrows f)) ∧
        (groups_rejects_nan && negb dropna &&
         bool_decide (length ks = 1) && existsb (existsb isna) ks) = false.
Proof.
  unfold groupby. destruct by_ as [|c by_]; [done|].
  destruct (mapM _ _) as [ks|]; [|done].
  destruct (_ && _ && _ && _) eqn:Hrej; [done|]. intros [= <-].
  split; [done|]. by exists ks.
Qed.

(** The classes of [groupby(by, dropna=False)] hold each row index once,
    each class in ascending order. *)
Lemma groupby_rows (f : frame) (by_ : list string) (groups : list group) :
  groupby f by_ false = Ok groups →
  mjoin groups.*2 ≡ₚ seq 0 (nrows f) ∧
  Forall (λ g, StronglySorted lt g.2) groups.
Proof.
  intros (_ & ks & _ & -> & _)%groupby_Ok.
  destruct (classify_partition ks (nrows f)) as [Hp Hs]. split.
  - by rewrite groups_order_perm.
  - rewrite groups_order_perm. eapply Forall_impl; [exact Hs|]. by intros g [? ?].
Qed.

Lemma groupby_columns (f : frame) (by_ : list string) (groups : list group) :
  groupby f by_ false = Ok groups → by_ ≠ [] ∧ ∀ c, c ∈ by_ → c ∈ columns f.
Proof.
  intros (Hne & ks & Hks & _)%groupby_Ok. split; [done|].
  intros c Hc. apply mapM_Some_1 in Hks.
  apply list_elem_of_lookup in Hc as [j Hj].
  destruct (Forall2_lookup_l _ _ _ _ _ Hks Hj) as (col & _ & Hcol).
  apply getitem_is_Some. eauto.
Qed.

(** *** No class is empty *)

Lemma add_to_group_nonempty (k : key) (i : nat) (gs : list group) :
  Forall (λ g : group, g.2 ≠ []) gs →
  Forall (λ g : group, g.2 ≠ []) (add_to_group k i gs).
Proof.
  induction 1 as [|[k' idx] gs Hg Hgs IH]; simpl.
  - constructor; [done | constructor].
  - destruct (key_eqb k' k); constructor; simpl; try done.
    intros Hnil%app_eq_nil. by destruct Hnil.
Qed.

Lemma classify_nonempty (dropna : bool) (ks : list (list value)) (n : nat) :
  Forall (λ g : group, g.2 ≠ []) (classify dropna ks n).
Proof.
  unfold classify.
  assert (∀ (l : list nat) (gs : list group),
            Forall (λ g : group, g.2 ≠ []) gs →
            Forall (λ g : group, g.2 ≠ [])
              (foldl (λ gs i,
                        let k := row_key ks i in
                        if dropna && existsb isna k then gs
                        else add_to_group k i gs) gs l)) as Hgen.
  { induction l as [|i l IH]; intros gs Hgs; simpl; [done|].
    apply IH. destruct (dropna && _); [done|].
    by apply add_to_group_nonempty. }
  apply Hgen. constructor.
Qed.

Lemma groupby_class_nonempty (f : frame) (by_ : list string) (dropna : bool)
    (groups : list group) (g : group) :
  groupby f by_ dropna = Ok groups → g ∈ groups → g.2 ≠ [].
Proof.
  intros (_ & ks & _ & -> & _)%groupby_Ok Hg.
  pose proof (classify_nonempty dropna ks (nrows f)) as Hne.
  rewrite <- (groups_order_perm _) in Hne.
  rewrite Forall_forall in Hne. by apply Hne.
Qed.

End Grouper.

(** ** The state monad and its loops *)
Section Monad.
Context `{Libs}.

Lemma bind_run {A B : Type} (m : M A) (k : A → M B) (s : state) :
  (m ≫= k) s =
  match m s with
  | (Ok a, s') => k a s'
  | (Raise e, s') => (Raise e, s')
  end.
Proof. reflexivity. Qed.

Lemma for_each_app {A : Type} (l1 l2 : list A) (body : A → M unit)
    (s : state) :
  for_each (l1 ++ l2) body s =
  match for_each l1 body s with
  | (Ok _, s') => for_each l2 body s'
  | (Raise e, s') => (Raise e, s')
  end.
Proof.
  revert s. induction l1 as [|x l1 IH]; intros s; simpl; [done|].
  rewrite !bind_run. destruct (body x s) as [[[]|e] s']; [apply IH | done].
Qed.

(** An invariant indexed by the elements already visited: if every
    iteration returns and re-establishes it, so does the loop. *)
Lemma for_each_inv {A : Type} (I : list A → state → Prop) (l : list A)
    (body : A → M unit) (s : state) :
  I [] s →
  (∀ pre x post t, l = pre ++ x :: post → I pre t →
     ∃ t', body x t = (Ok (), t') ∧ I (pre ++ [x]) t') →
  ∃ t', for_each l body s = (Ok (), t') ∧ I l t'.
Proof.
  intros Hinit Hstep.
  assert (∀ post pre t, l = pre ++ post → I pre t →
            ∃ t', for_each post body t = (Ok (), t') ∧ I l t') as Hgen.
  { induction post as [|x post IH]; intros pre t Hl Hpre.
    - rewrite app_nil_r in Hl. subst. by exists t.
    - destruct (Hstep pre x post t Hl Hpre) as (t1 & Hx & H1).
      destruct (IH (pre ++ [x]) t1) as (t2 & Hrest & H2); [|done|].
      { by rewrite <- app_assoc. }
      exists t2. split; [|done]. simpl. by rewrite bind_run, Hx. }
  by apply (Hgen l [] s).
Qed.

Lemma deref_self_df (s : state) (f : frame) :
  current s = Some f → deref self_df s = (Ok f, s).
Proof. unfold current, deref. by intros ->. Qed.

Lemma deref_self_original_df (s : state) (f : frame) :
  original s = Some f → deref self_original_df s = (Ok f, s).
Proof. unfold original, deref. by intros ->. Qed.

Lemma current_Some (s : state) (f : frame) :
  current s = Some f ↔ ∃ l, self_df s = Some l ∧ heap s !! l = Some f.
Proof.
  unfold current. destruct (self_df s) as [l|]; simpl.
  - split; [by exists l | by intros (? & [= <-] & ?)].
  - split; [done | by intros (? & ? & ?)].
Qed.

Lemma current_update_df (g : frame → frame) (s : state) (f : frame) :
  current s = Some f →
  ∃ t, update_df g s = (Ok (), t) ∧ current t = Some (g f) ∧
       self_df t = self_df s ∧ self_original_df t = self_original_df s ∧
       stdout t = stdout s ∧ random t = random s ∧
       length (heap t) = length (heap s) ∧
       ∀ l, self_df s ≠ Some l → heap t !! l = heap s !! l.
Proof.
  intros (l & Hl & Hf)%current_Some. unfold update_df. rewrite Hl.
  eexists. split; [done|]. unfold current. simpl.
  rewrite list_lookup_alter_eq, Hf, length_alter. repeat split; try done.
  intros l' Hne. rewrite list_lookup_alter_ne; [done | congruence].
Qed.

(** a property of the state that every iteration keeps, whatever its
    outcome, holds after the loop *)
Lemma for_each_preserves {A : Type} (P : state → Prop) (l : list A)
    (body : A → M unit) (s : state) :
  (∀ x t, x ∈ l → P t → P (body x t).2) → P s → P (for_each l body s).2.
Proof.
  revert s. induction l as [|x l IH]; intros s Hbody Hs; simpl; [done|].
  rewrite bind_run. pose proof (Hbody x s (list_elem_of_here _ _) Hs) as Hx.
  destruct (body x s) as [[[]|e] s1]; simpl in *; [|done].
  apply IH; [|done]. intros y t Hy. apply Hbody. by right.
Qed.

Lemma for_each_outcome {A : Type} (P : state → Prop) (Q : exn → Prop)
    (l : list A) (body : A → M unit) (s : state) :
  (∀ x t, P t → P (body x t).2 ∧
                ∀ e, (body x t).1 = Raise e → Q e) →
  P s →
  P (for_each l body s).2 ∧ ∀ e, (for_each l body s).1 = Raise e → Q e.
Proof.
  revert s. induction l as [|x l IH]; intros s Hbody Hs; simpl; [done|].
  rewrite bind_run. destruct (Hbody x s Hs) as [Hx He].
  destruct (body x s) as [[[]|e] s1]; simpl in *.
  - by apply IH.
  - split; [done|]. intros e' [= <-]. by apply He.
Qed.

(** an update that succeeds replaces the table [self.df] refers to *)
Lemma modify_df_Ok (g : frame → result frame) (s : state) (f f' : frame) :
  current s = Some f → g f = Ok f' →
  ∃ t, modify_df g s = (Ok (), t) ∧ current t = Some f' ∧
       self_df t = self_df s ∧ self_original_df t = self_original_df s ∧
       stdout t = stdout s ∧ random t = random s ∧
       length (heap t) = length (heap s) ∧
       ∀ l, self_df s ≠ Some l → heap t !! l = heap s !! l.
Proof.
  intros Hcur Hg. unfold modify_df.
  rewrite bind_run, (deref_self_df s f Hcur), Hg.
  apply (current_update_df (λ _, f') s f Hcur).
Qed.

(** an update that fails leaves the state as it is *)
Lemma modify_df_Raise (g : frame → result frame) (s : state) (f : frame)
    (e : exn) :
  current s = Some f → g f = Raise e → modify_df g s = (Raise e, s).
Proof.
  intros Hcur Hg. unfold modify_df.
  by rewrite bind_run, (deref_self_df s f Hcur), Hg.
Qed.

End Monad.

(** ** The rewriting loops of [apply_k_anonymity] *)
Section Rewriting.
Context `{Libs}.

Lemma draw_length {A : Type} (g : rng → A * rng) (n : nat) (r : rng) :
  length (draw g n r).1 = n.
Proof.
  revert r. induction n as [|n IH]; intros r; simpl; [done|].
  destruct (g r) as [a r1]. specialize (IH r1).
  destruct (draw g n r1) as [l r2]. simpl in *. by rewrite IH.
Qed.

(** every value drawn is the result of one call of the generator *)
Lemma draw_elem_of {A : Type} (g : rng → A * rng) (n : nat) (r : rng)
    (a : A) :
  a ∈ (draw g n r).1 → ∃ r', a = (g r').1.
Proof.
  revert r. induction n as [|n IH]; intros r; simpl.
  - by intros ?%elem_of_nil.
  - destruct (g r) as [a1 r1] eqn:Hg. specialize (IH r1).
    destruct (draw g n r1) as [l r2]. simpl in *.
    intros [->|Ha]%elem_of_cons; [|by apply IH].
    exists r. by rewrite Hg.
Qed.

Lemma rewritten_trans (strategy c : string) (old cur new : value) :
  rewritten strategy c old cur → rewritten strategy c cur new →
  rewritten strategy c old new.
Proof.
  intros [[Hs ->]|[[Hs ->]|[Hs _]]] [[Hs' ->]|[[Hs' ->]|[Hs' Hnew]]];
    try (subst; discriminate).
  - left. by rewrite suppress_idemp.
  - right; left. by rewrite generalize_idemp.
  - right; right. done.
Qed.

Lemma cells_rewritten_refl (strategy : string) (df : frame) :
  wf_frame df → cells_rewritten strategy (λ _ _, False) df df.
Proof.
  intros Hwf. repeat split; try done.
  - intros c col. by apply getitem_length.
  - intros c i old Hold. exists old. split; [done | left; tauto].
Qed.

Lemma cells_rewritten_trans (strategy : string) (D D' : nat → string → Prop)
    (df f f' : frame) :
  cells_rewritten strategy D df f → cells_rewritten strategy D' f f' →
  cells_rewritten strategy (λ i c, D i c ∨ D' i c) df f'.
Proof.
  intros (Hn & Hc & Hl & Hcells) (Hn' & Hc' & Hl' & Hcells').
  repeat split; try congruence.
  - intros c col Hcol. rewrite <- Hn. eauto.
  - intros c i old Hold.
    destruct (Hcells c i old Hold) as (cur & Hcur & Hcase).
    destruct (Hcells' c i cur Hcur) as (new & Hnew & Hcase').
    exists new. split; [done|].
    destruct Hcase as [[Hd ->]|[Hd Hr]], Hcase' as [[Hd' ->]|[Hd' Hr']].
    + left. tauto.
    + right. tauto.
    + right. tauto.
    + right. split; [tauto|]. by eapply rewritten_trans.
Qed.

Lemma cells_rewritten_iff (strategy : string) (D D' : nat → string → Prop)
    (df f : frame) :
  (∀ i c, D i c ↔ D' i c) →
  cells_rewritten strategy D df f → cells_rewritten strategy D' df f.
Proof.
  intros HD (Hn & Hc & Hl & Hcells). repeat split; try done.
  intros c i old Hold. destruct (Hcells c i old Hold) as (new & Hnew & Hcase).
  exists new. split; [done|]. rewrite <- !HD. exact Hcase.
Qed.

(** a cell outside the rewritten region is the cell of the table before *)
Lemma cells_rewritten_outside (strategy : string)
    (D : nat → string → Prop) (df df' : frame) (c : string) (i : nat) :
  wf_frame df → cells_rewritten strategy D df df' → ¬ D i c →
  cell df' c i = cell df c i.
Proof.
  intros Hwf (Hn & Hc & Hl & Hcells) HD.
  destruct (cell df c i) as [old|] eqn:Hold.
  - destruct (Hcells c i old Hold) as (new & Hnew & [[_ ->]|[? _]]); done.
  - unfold cell in *. destruct (getitem df c) as [col|] eqn:Hcol.
    + simpl in Hold. apply lookup_ge_None in Hold.
      rewrite (getitem_length df c col) in Hold by done.
      destruct (getitem df' c) as [col'|] eqn:Hcol'; [|done]. simpl.
      apply lookup_ge_None. rewrite (Hl c col' Hcol'). done.
    + assert (getitem df' c = None) as ->; [|done].
      apply eq_None_not_Some. rewrite getitem_is_Some, Hc.
      rewrite <- getitem_is_Some, Hcol. by intros [? ?].
Qed.

(** a column none of whose cells is in the region is kept whole *)
Lemma cells_rewritten_column (strategy : string)
    (D : nat → string → Prop) (df df' : frame) (c : string) :
  wf_frame df → cells_rewritten strategy D df df' → (∀ i, ¬ D i c) →
  getitem df' c = getitem df c.
Proof.
  intros Hwf Hcells HD.
  assert (∀ i, cell df' c i = cell df c i) as Heq
    by (intros i; by eapply cells_rewritten_outside).
  destruct Hcells as (Hn & Hc & Hl & _). unfold cell in Heq.
  destruct (getitem df c) as [col|] eqn:Hcol.
  - destruct (getitem df' c) as [col'|] eqn:Hcol'.
    + f_equal. apply list_eq. intros i. apply (Heq i).
    + exfalso. apply eq_None_not_Some in Hcol'. apply Hcol'.
      rewrite getitem_is_Some, Hc, <- getitem_is_Some. by rewrite Hcol.
  - apply eq_None_not_Some. rewrite getitem_is_Some, Hc.
    rewrite <- getitem_is_Some, Hcol. by intros [? ?].
Qed.

Lemma cells_rewritten_wf (strategy : string) (D : nat → string → Prop)
    (df df' : frame) :
  wf_frame df → cells_rewritten strategy D df df' → wf_frame df'.
Proof.
  intros [Hnd _] (Hn & Hc & Hl & _). apply wf_frame_intro.
  - by rewrite Hc.
  - intros c col Hcol. rewrite Hn. eauto.
Qed.

(** *** Strings and the dtype of a column *)

(** what a strategy writes is a string *)
Lemma rewritten_is_str (strategy c : string) (old new : value) :
  rewritten strategy c old new → is_str new = true.
Proof. by intros [[_ ->]|[[_ ->]|[_ [r ->]]]]. Qed.

Lemma cells_rewritten_accepts (strategy : string) (D : nat → string → Prop)
    (df f : frame) (c : string) (col col' : list value) :
  wf_frame df → cells_rewritten strategy D df f →
  getitem df c = Some col → getitem f c = Some col' →
  accepts_str col = true → accepts_str col' = true.
Proof.
  intros Hwf (Hn & Hc & Hl & Hcells) Hcol Hcol'.
  apply accepts_str_written.
  - rewrite (Hl c col' Hcol'). symmetry. by eapply getitem_length.
  - intros i v Hv.
    destruct (Hcells c i v) as (new & Hnew & Hcase).
    { unfold cell. by rewrite Hcol. }
    unfold cell in Hnew. rewrite Hcol' in Hnew. simpl in Hnew.
    exists new. split; [done|].
    destruct Hcase as [[_ ->]|[_ Hr]];
      [by left | right; by eapply rewritten_is_str].
Qed.

(** a column that takes strings still does once cells are rewritten *)
Lemma takes_strings_kept (strategy : string) (D : nat → string → Prop)
    (df f : frame) (c : string) :
  wf_frame df → cells_rewritten strategy D df f → c ∈ columns df →
  takes_strings df c = true → takes_strings f c = true.
Proof.
  intros Hwf Hcells [col Hcol]%getitem_is_Some.
  unfold takes_strings, string_column.
  destruct setitem_upcasts; [done|]. simpl. rewrite Hcol. simpl.
  destruct (getitem f c) as [col'|] eqn:Hcol'; simpl.
  - by eapply cells_rewritten_accepts.
  - exfalso. destruct Hcells as (_ & Hc & _).
    apply eq_None_not_Some in Hcol'. apply Hcol'.
    rewrite getitem_is_Some, Hc, <- getitem_is_Some. by rewrite Hcol.
Qed.

Lemma refuses_takes (f : frame) (c0 : string) (col written : list value) :
  getitem f c0 = Some col → takes_strings f c0 = true →
  refuses col written = false.
Proof.
  unfold takes_strings, string_column, refuses. intros ->. simpl.
  destruct setitem_upcasts; [done|]. simpl. intros ->. apply andb_false_r.
Qed.

Lemma refuses_not_takes (f : frame) (c0 : string)
    (col written : list value) :
  getitem f c0 = Some col → takes_strings f c0 = false →
  existsb is_str written = true → refuses col written = true.
Proof.
  unfold takes_strings, string_column, refuses. intros ->. simpl.
  destruct setitem_upcasts; [done|]. simpl. by intros -> ->.
Qed.

(** a class of the table has a string to write *)
Lemma written_series_str (h : value → value) (col : list value)
    (indices : list nat) :
  (∀ v, is_str (h v) = true) → indices ≠ [] →
  (∀ i, i ∈ indices → i < length col) →
  existsb is_str (omap ((h <$> col) !!.) indices) = true.
Proof.
  intros Hh Hne Hlt. destruct indices as [|i indices]; [done|].
  destruct (lookup_lt_is_Some_2 col i) as [v Hv]; [apply Hlt; left|].
  cbn [omap list_omap]. rewrite list_lookup_fmap, Hv. simpl. by rewrite Hh.
Qed.

Lemma written_list_str (indices : list nat) (values : list string) :
  indices ≠ [] → length values = length indices →
  existsb is_str (zip indices (VStr <$> values)).*2 = true.
Proof. by destruct indices, values. Qed.

(** *** The assignments *)

Lemma loc_assign_series_takes (indices : list nat) (c0 : string)
    (series : list value) (f : frame) :
  takes_strings f c0 = true →
  loc_assign_series indices c0 series f =
  Ok (alter_column (write_series indices series) c0 f).
Proof.
  intros Htakes. unfold loc_assign_series.
  destruct (getitem f c0) as [col|] eqn:Hcol; [|done].
  cbn [from_option]. by rewrite (refuses_takes f c0 col _ Hcol Htakes).
Qed.

Lemma loc_assign_series_refused (indices : list nat) (c0 : string)
    (series col : list value) (f : frame) :
  getitem f c0 = Some col → takes_strings f c0 = false →
  existsb is_str (omap (series !!.) indices) = true →
  loc_assign_series indices c0 series f = Raise TypeError.
Proof.
  intros Hcol Htakes Hstr. unfold loc_assign_series. rewrite Hcol.
  cbn [from_option]. by rewrite (refuses_not_takes f c0 col _ Hcol Htakes Hstr).
Qed.

Lemma loc_assign_list_takes (indices : list nat) (c0 : string)
    (values : list value) (f : frame) :
  takes_strings f c0 = true →
  loc_assign_list indices c0 values f =
  Ok (alter_column (write_list indices values) c0 f).
Proof.
  intros Htakes. unfold loc_assign_list.
  destruct (getitem f c0) as [col|] eqn:Hcol; [|done].
  cbn [from_option]. by rewrite (refuses_takes f c0 col _ Hcol Htakes).
Qed.

Lemma loc_assign_list_refused (indices : list nat) (c0 : string)
    (values col : list value) (f : frame) :
  getitem f c0 = Some col → takes_strings f c0 = false →
  existsb is_str (zip indices values).*2 = true →
  loc_assign_list indices c0 values f = Raise TypeError.
Proof.
  intros Hcol Htakes Hstr. unfold loc_assign_list. rewrite Hcol.
  cbn [from_option]. by rewrite (refuses_not_takes f c0 col _ Hcol Htakes Hstr).
Qed.

(** the cells after [df.loc[indices, col] = df[col].apply(h)] *)
Lemma write_series_cells (strategy : string) (indices : list nat)
    (c0 : string) (h : value → value) (f : frame) (col : list value) :
  (∀ c colv, getitem f c = Some colv → length colv = nrows f) →
  getitem f c0 = Some col →
  (∀ v, rewritten strategy c0 v (h v)) →
  cells_rewritten strategy (λ i c, c = c0 ∧ i ∈ indices) f
    (alter_column (write_series indices (h <$> col)) c0 f).
Proof.
  intros Hlen Hcol Hh. unfold write_series. repeat split.
  - apply columns_alter_column.
  - intros c colv. rewrite getitem_alter_column. case_decide; [subst c|].
    + rewrite Hcol. intros [= <-]. rewrite length_imap. eauto.
    + eauto.
  - intros c i old. unfold cell. rewrite getitem_alter_column.
    case_decide as Hc; [subst c|].
    + rewrite Hcol. simpl. intros Hold. rewrite list_lookup_imap, Hold. simpl.
      rewrite list_lookup_fmap, Hold. simpl. eexists. split; [done|].
      case_bool_decide; [right; split; [done | apply Hh] | left; tauto].
    + intros Hold. exists old. split; [done|]. left. split; [|done].
      intros [? _]. congruence.
Qed.

(** the cells after [df.loc[indices, col] = values] *)
Lemma write_list_cells (strategy : string) (indices : list nat)
    (c0 : string) (values : list value) (f : frame) :
  (∀ c colv, getitem f c = Some colv → length colv = nrows f) →
  NoDup indices →
  length values = length indices →
  (∀ v old, v ∈ values → rewritten strategy c0 old v) →
  cells_rewritten strategy (λ i c, c = c0 ∧ i ∈ indices) f
    (alter_column (write_list indices values) c0 f).
Proof.
  intros Hlen Hnd Hvals Hr. unfold write_list.
  assert ((zip indices values).*1 = indices) as Hfst
    by (apply fst_zip; lia).
  repeat split.
  - apply columns_alter_column.
  - intros c colv. rewrite getitem_alter_column.
    case_decide; [subst c|eauto].
    destruct (getitem f c0) as [col|] eqn:Hcol; [|done]. intros [= <-].
    rewrite length_foldl_insert. eauto.
  - intros c i old. unfold cell. rewrite getitem_alter_column.
    case_decide as Hc; [subst c|].
    + destruct (getitem f c0) as [col|] eqn:Hcol; [|done]. simpl. intros Hold.
      destruct (decide (i ∈ indices)) as [Hi|Hi].
      * apply list_elem_of_lookup in Hi as Hj. destruct Hj as [j Hj].
        destruct (lookup_lt_is_Some_2 values j) as [v Hv].
        { rewrite Hvals. by eapply lookup_lt_Some. }
        exists v. split.
        -- eapply (lookup_foldl_insert_at _ _ j).
           ++ by rewrite Hfst.
           ++ rewrite lookup_zip_with, Hj. simpl. by rewrite Hv.
           ++ by eapply lookup_lt_Some.
        -- right. split; [done|]. apply Hr. by eapply list_elem_of_lookup_2.
      * exists old. split; [|left; tauto].
        rewrite lookup_foldl_insert_notin; [done | by rewrite Hfst].
    + intros Hold. exists old. split; [done|]. left. split; [|done].
      intros [? _]. congruence.
Qed.

(** *** One iteration of the inner loop *)

(** on a column that takes strings the assignment is made *)
Lemma rewrite_group_run (strategy : string) (indices : list nat)
    (c0 : string) (t : state) (f : frame) :
  strategy ∈ ["suppression"; "generalization"; "synthetic"] →
  current t = Some f →
  (∀ c colv, getitem f c = Some colv → length colv = nrows f) →
  c0 ∈ columns f →
  NoDup indices →
  takes_strings f c0 = true →
  ∃ t' f', rewrite_group strategy indices c0 t = (Ok (), t') ∧
           current t' = Some f' ∧
           cells_rewritten strategy (λ i c, c = c0 ∧ i ∈ indices) f f'.
Proof.
  intros Hs Hcur Hlen [col Hcol]%getitem_is_Some Hnd Htakes.
  unfold rewrite_group.
  rewrite !elem_of_cons, elem_of_nil in Hs.
  destruct Hs as [->|[->|[->|[]]]]; simpl.
  - rewrite bind_run, (deref_self_df t f Hcur). unfold column_of.
    rewrite Hcol, bind_run. simpl.
    edestruct (modify_df_Ok) as (t' & -> & Hcur' & _);
      [exact Hcur | by apply loc_assign_series_takes |].
    exists t'. eexists. split; [done|]. split; [exact Hcur'|].
    apply write_series_cells; [done | done |].
    intros v. left. done.
  - rewrite bind_run, (deref_self_df t f Hcur). unfold column_of.
    rewrite Hcol, bind_run. simpl.
    edestruct (modify_df_Ok) as (t' & -> & Hcur' & _);
      [exact Hcur | by apply loc_assign_series_takes |].
    exists t'. eexists. split; [done|]. split; [exact Hcur'|].
    apply write_series_cells; [done | done |].
    intros v. right; left. done.
  - rewrite bind_run. unfold sample.
    pose proof (draw_length (generate (synthetic_kind_of c0))
                  (length indices) (random t)) as Hdl.
    pose proof (draw_elem_of (generate (synthetic_kind_of c0))
                  (length indices) (random t)) as Hde.
    destruct (draw _ _ _) as [values r'] eqn:Hdraw. simpl in Hdl, Hde.
    set (t1 := State _ _ _ _ r').
    assert (current t1 = Some f) as Hcur1 by done.
    edestruct (modify_df_Ok) as (t' & -> & Hcur' & _);
      [exact Hcur1 | by apply loc_assign_list_takes |].
    exists t'. eexists. split; [done|]. split; [exact Hcur'|].
    apply write_list_cells; [done | done | by rewrite length_fmap |].
    intros v old (w & -> & Hw)%list_elem_of_fmap.
    right; right. split; [done|]. destruct (Hde w Hw) as [r Hr].
    exists r. by rewrite Hr.
Qed.

(** on a column that does not take strings the assignment, for a class
    of the table, is refused: the table is left as it is, and so is the
    rest of the state but for the generators, which the synthetic strategy
    has called *)
Lemma rewrite_group_refused (strategy : string) (indices : list nat)
    (c0 : string) (t : state) (f : frame) :
  strategy ∈ ["suppression"; "generalization"; "synthetic"] →
  current t = Some f →
  (∀ c colv, getitem f c = Some colv → length colv = nrows f) →
  c0 ∈ columns f →
  indices ≠ [] → (∀ i, i ∈ indices → i < nrows f) →
  takes_strings f c0 = false →
  ∃ t', rewrite_group strategy indices c0 t = (Raise TypeError, t') ∧
        current t' = Some f ∧ heap t' = heap t ∧
        self_df t' = self_df t ∧ self_original_df t' = self_original_df t ∧
        stdout t' = stdout t ∧
        (strategy ≠ "synthetic" → t' = t) ∧
        (strategy = "synthetic" →
         random t' = (draw (generate (synthetic_kind_of c0))
                           (length indices) (random t)).2).
Proof.
  intros Hs Hcur Hlen [col Hcol]%getitem_is_Some Hne Hlt Htakes.
  assert (∀ i, i ∈ indices → i < length col) as Hlt'.
  { intros i Hi. rewrite (Hlen c0 col Hcol). by apply Hlt. }
  unfold rewrite_group.
  rewrite !elem_of_cons, elem_of_nil in Hs.
  destruct Hs as [->|[->|[->|[]]]]; simpl.
  - rewrite bind_run, (deref_self_df t f Hcur). unfold column_of.
    rewrite Hcol, bind_run. simpl.
    rewrite (modify_df_Raise _ t f TypeError Hcur).
    + exists t. do 6 (split; [done|]). split; [done | intros [=]].
    + eapply loc_assign_series_refused; [done | done |].
      by apply written_series_str.
  - rewrite bind_run, (deref_self_df t f Hcur). unfold column_of.
    rewrite Hcol, bind_run. simpl.
    rewrite (modify_df_Raise _ t f TypeError Hcur).
    + exists t. do 6 (split; [done|]). split; [done | intros [=]].
    + eapply loc_assign_series_refused; [done | done |].
      by apply written_series_str.
  - rewrite bind_run. unfold sample.
    pose proof (draw_length (generate (synthetic_kind_of c0))
                  (length indices) (random t)) as Hdl.
    destruct (draw _ _ _) as [values r'] eqn:Hdraw. simpl in Hdl.
    set (t1 := State _ _ _ _ r').
    assert (current t1 = Some f) as Hcur1 by done.
    rewrite (modify_df_Raise _ t1 f TypeError Hcur1).
    + exists t1. do 6 (split; [done|]). split; [by intros [] | done].
    + eapply loc_assign_list_refused; [done | done |].
      by apply written_list_str.
Qed.

(** *** The loops *)

(** the inner loop, over columns that take strings *)
Lemma rewrite_columns_run (strategy : string) (indices : list nat)
    (cs : list string) (t : state) (f : frame) :
  strategy ∈ ["suppression"; "generalization"; "synthetic"] →
  current t = Some f → wf_frame f → NoDup indices →
  (∀ c, c ∈ cs → c ∈ columns f ∧ takes_strings f c = true) →
  ∃ t' f', for_each cs (rewrite_group strategy indices) t = (Ok (), t') ∧
           current t' = Some f' ∧
           cells_rewritten strategy (λ i c, c ∈ cs ∧ i ∈ indices) f f'.
Proof.
  intros Hs Hcur Hwf Hnd Hcs.
  destruct (for_each_inv
    (λ cpre w, ∃ f1, current w = Some f1 ∧
       cells_rewritten strategy (λ i c, c ∈ cpre ∧ i ∈ indices) f f1)
    cs (rewrite_group strategy indices) t)
    as (t' & Hrun & f' & Hcur' & Hcells).
  - exists f. split; [done|].
    eapply cells_rewritten_iff; [|by apply cells_rewritten_refl].
    intros i c. split; [done|]. by intros [?%elem_of_nil _].
  - intros cpre c0 cpost w Hsplit (f1 & Hw & Hf1).
    pose proof Hf1 as (Hn1 & Hc1 & Hl1 & _).
    assert (c0 ∈ cs) as Hc0 by (subst cs; apply elem_of_app; right; left).
    destruct (Hcs c0 Hc0) as [Hcol Htakes].
    destruct (rewrite_group_run strategy indices c0 w f1)
      as (w' & f2 & Hrun & Hw' & Hstep); try done.
    + intros c colv Hcolv. rewrite Hn1. eauto.
    + by rewrite Hc1.
    + by eapply takes_strings_kept.
    + exists w'. split; [done|]. exists f2. split; [done|].
      eapply cells_rewritten_iff;
        [|eapply cells_rewritten_trans; [exact Hf1|exact Hstep]].
      intros i c. simpl. rewrite elem_of_app, list_elem_of_singleton.
      split; [|tauto]. intros [[? ?]|[-> ?]]; tauto.
  - eauto.
Qed.

(** the two nested loops, when they have nothing to write or every
    column takes what they write *)
Lemma rewrite_loops_run (strategy : string) (qi : list string)
    (small : list group) (t : state) (df : frame) :
  strategy ∈ ["suppression"; "generalization"; "synthetic"] →
  current t = Some df →
  wf_frame df →
  (∀ c, c ∈ qi → c ∈ columns df) →
  Forall (λ g, NoDup g.2) small →
  writable df qi small = true →
  ∃ t' f',
    for_each small
      (λ g, for_each qi (rewrite_group strategy g.2)) t = (Ok (), t') ∧
    current t' = Some f' ∧
    cells_rewritten strategy
      (λ i c, c ∈ qi ∧ ∃ g, g ∈ small ∧ i ∈ g.2) df f'.
Proof.
  intros Hs Hcur Hwf Hqi Hsmall Hw.
  assert (small = [] ∨ ∀ c, c ∈ qi → takes_strings df c = true)
    as [->|Htakes].
  { destruct small; [by left|]. right. simpl in Hw.
    intros c Hc. rewrite forallb_forall in Hw. apply Hw.
    by apply list_elem_of_In. }
  { exists t, df. split; [done|]. split; [done|].
    eapply cells_rewritten_iff; [|by apply cells_rewritten_refl].
    intros i c. split; [done|]. by intros (_ & g & ?%elem_of_nil & _). }
  destruct (for_each_inv
    (λ pre u, ∃ f, current u = Some f ∧
       cells_rewritten strategy
         (λ i c, c ∈ qi ∧ ∃ g, g ∈ pre ∧ i ∈ g.2) df f)
    small (λ g, for_each qi (rewrite_group strategy g.2)) t)
    as (t' & Hrun & f' & Hcur' & Hcells).
  - exists df. split; [done|].
    eapply cells_rewritten_iff; [|by apply cells_rewritten_refl].
    intros i c. split; [done|]. intros (_ & g & []%elem_of_nil & _).
  - intros pre g post u Hsplit (f & Hu & Hf).
    assert (NoDup g.2) as Hnd.
    { rewrite Forall_forall in Hsmall. apply Hsmall. subst small.
      apply elem_of_app. right. left. }
    pose proof Hf as (_ & Hc1 & _).
    destruct (rewrite_columns_run strategy g.2 qi u f)
      as (u' & f1 & Hrun & Hu' & Hf1); try done.
    + by eapply cells_rewritten_wf.
    + intros c Hc. split; [rewrite Hc1; by apply Hqi|].
      eapply takes_strings_kept; eauto.
    + exists u'. split; [done|]. exists f1. split; [done|].
      eapply cells_rewritten_iff;
        [|eapply cells_rewritten_trans; [exact Hf|exact Hf1]].
      intros i c. simpl. split.
      * intros [(Hc & g' & Hg' & Hi)|[Hc Hi]].
        -- split; [done|]. exists g'. rewrite elem_of_app. auto.
        -- split; [done|]. exists g.
           rewrite elem_of_app, list_elem_of_singleton. auto.
      * intros (Hc & g' & [Hg'| ->%list_elem_of_singleton]%elem_of_app & Hi).
        -- left. eauto.
        -- right. done.
  - eauto.
Qed.

(** the first column of a list that fails a test *)
Lemma first_failing {A : Type} (p : A → bool) (l : list A) :
  forallb p l = false →
  ∃ pre x post, l = pre ++ x :: post ∧
                (∀ y, y ∈ pre → p y = true) ∧ p x = false.
Proof.
  induction l as [|x l IH]; simpl; [done|].
  destruct (p x) eqn:Hx; simpl.
  - intros (pre & y & post & -> & Hpre & Hy)%IH.
    exists (x :: pre), y, post. split; [done|]. split; [|done].
    intros z [->|Hz]%elem_of_cons; auto.
  - intros _. exists [], x, l. split; [done|]. split; [|done].
    by intros z ?%elem_of_nil.
Qed.

(** the two nested loops, when a class is to be rewritten and a column
    does not take strings: the first such column stops the rewriting of
    the first class, whose cells in the columns before it are rewritten *)
Lemma rewrite_loops_refused (strategy : string) (qi : list string)
    (g0 : group) (rest : list group) (t : state) (df : frame) :
  strategy ∈ ["suppression"; "generalization"; "synthetic"] →
  current t = Some df →
  wf_frame df →
  (∀ c, c ∈ qi → c ∈ columns df) →
  NoDup g0.2 → g0.2 ≠ [] → (∀ i, i ∈ g0.2 → i < nrows df) →
  writable df qi (g0 :: rest) = false →
  ∃ t' f' pre c0 post,
    qi = pre ++ c0 :: post ∧
    (∀ c, c ∈ pre → takes_strings df c = true) ∧
    takes_strings df c0 = false ∧
    for_each (g0 :: rest)
      (λ g, for_each qi (rewrite_group strategy g.2)) t
      = (Raise TypeError, t') ∧
    current t' = Some f' ∧
    cells_rewritten strategy (λ i c, c ∈ pre ∧ i ∈ g0.2) df f'.
Proof.
  intros Hs Hcur Hwf Hqi Hnd Hne Hlt Hw. simpl in Hw.
  apply first_failing in Hw as (pre & c0 & post & -> & Hpre & Hc0).
  destruct (rewrite_columns_run strategy g0.2 pre t df)
    as (u & f1 & Hrun & Hu & Hf1); try done.
  { intros c Hc. split; [|by apply Hpre].
    apply Hqi. apply elem_of_app. by left. }
  pose proof Hf1 as (Hn1 & Hc1 & Hl1 & _).
  assert (c0 ∉ pre) as Hnotin.
  { intros Hin. specialize (Hpre c0 Hin). congruence. }
  assert (getitem f1 c0 = getitem df c0) as Hsame.
  { eapply cells_rewritten_column; [done | exact Hf1 |]. by intros i [? _]. }
  destruct (rewrite_group_refused strategy g0.2 c0 u f1)
    as (u' & Hrun' & Hu' & _); try done.
  - intros c colv Hcolv. rewrite Hn1. eauto.
  - rewrite Hc1. apply Hqi. apply elem_of_app. right. left.
  - intros i Hi. rewrite Hn1. by apply Hlt.
  - unfold takes_strings, string_column in *. by rewrite Hsame.
  - exists u', f1, pre, c0, post. repeat (split; [done|]).
    split; [|by split].
    cbn [for_each]. rewrite bind_run, for_each_app, Hrun.
    cbn [for_each]. by rewrite bind_run, Hrun'.
Qed.

End Rewriting.

(** ** The equivalence classes *)
Section Classes.
Context `{Libs}.

Lemma class_position_unique (ls : list (list nat)) (j1 j2 : nat)
    (l1 l2 : list nat) (i : nat) :
  NoDup (mjoin ls) → ls !! j1 = Some l1 → ls !! j2 = Some l2 →
  i ∈ l1 → i ∈ l2 → j1 = j2.
Proof.
  revert j1 j2. induction ls as [|l ls IH]; intros j1 j2 Hnd H1 H2 Hi1 Hi2;
    [done|].
  simpl in Hnd. apply NoDup_app in Hnd as (_ & Hdisj & Hnd).
  destruct j1 as [|j1], j2 as [|j2]; simplify_eq/=; try done.
  - exfalso. apply (Hdisj i Hi1). apply list_elem_of_join.
    exists l2. split; [done|]. by eapply list_elem_of_lookup_2.
  - exfalso. apply (Hdisj i Hi2). apply list_elem_of_join.
    exists l1. split; [done|]. by eapply list_elem_of_lookup_2.
  - f_equal. by eapply IH.
Qed.

Lemma class_unique (gs : list group) (g1 g2 : group) (i : nat) :
  NoDup (mjoin gs.*2) → g1 ∈ gs → g2 ∈ gs → i ∈ g1.2 → i ∈ g2.2 →
  g1 = g2.
Proof.
  intros Hnd [j1 H1]%list_elem_of_lookup [j2 H2]%list_elem_of_lookup Hi1 Hi2.
  assert (j1 = j2) as ->; [|congruence].
  eapply (class_position_unique gs.*2 j1 j2 g1.2 g2.2 i); try done.
  - by apply (list_lookup_fmap_Some_2 snd).
  - by apply (list_lookup_fmap_Some_2 snd).
Qed.

Lemma groupby_NoDup (f : frame) (by_ : list string) (groups : list group) :
  groupby f by_ false = Ok groups → NoDup (mjoin groups.*2).
Proof.
  intros [Hp _]%groupby_rows. rewrite Hp. apply NoDup_seq.
Qed.

Lemma ascending_NoDup (l : list nat) : StronglySorted lt l → NoDup l.
Proof.
  induction 1 as [|x l Hs IH Hx]; constructor; [|done].
  intros Hin. rewrite Forall_forall in Hx. specialize (Hx x Hin). lia.
Qed.

Lemma groupby_row_lt (f : frame) (by_ : list string) (groups : list group)
    (g : group) (i : nat) :
  groupby f by_ false = Ok groups → g ∈ groups → i ∈ g.2 → i < nrows f.
Proof.
  intros [Hp _]%groupby_rows Hg Hi.
  assert (i ∈ mjoin groups.*2) as Hin.
  { apply list_elem_of_join. exists g.2. split; [done|].
    apply list_elem_of_fmap. eauto. }
  rewrite Hp, elem_of_seq in Hin. lia.
Qed.

(** the classes to rewrite are classes of the table: rows of the table,
    each once, and at least one *)
Lemma small_groups_classes (f : frame) (cols : list string) (k : Z)
    (groups : list group) :
  groupby f cols false = Ok groups →
  Forall (λ g : group, NoDup g.2 ∧ g.2 ≠ [] ∧ ∀ i, i ∈ g.2 → i < nrows f)
         (small_groups k groups).
Proof.
  intros Hgroups. destruct (groupby_rows _ _ _ Hgroups) as [_ Hsorted].
  apply Forall_forall. intros g [_ Hg]%list_elem_of_filter.
  split; [|split].
  - apply ascending_NoDup. rewrite Forall_forall in Hsorted. by apply Hsorted.
  - by eapply groupby_class_nonempty.
  - intros i Hi. by eapply groupby_row_lt.
Qed.

(** the call, once the strategy is checked and the classes are made, is
    the loops followed by the line printed *)
Lemma apply_k_anonymity_loops (s : state) (df : frame) (cols : list string)
    (k : Z) (strategy : string) (groups : list group) :
  current s = Some df →
  strategy ∈ ["suppression"; "generalization"; "synthetic"] →
  groupby df cols false = Ok groups →
  apply_k_anonymity cols k strategy s =
  match for_each (small_groups k groups)
          (λ g, for_each cols (rewrite_group strategy g.2)) s with
  | (Ok _, t) =>
      (Ok (), logged ("K-Anonymity (" +:+ strategy +:+ ") applied with k=" +:+
                      pretty k +:+ ".") t)
  | (Raise e, t) => (Raise e, t)
  end.
Proof.
  intros Hcur Hs Hgroups. unfold apply_k_anonymity.
  rewrite (bool_decide_eq_true_2 _ Hs). simpl.
  rewrite bind_run, (deref_self_df s df Hcur), bind_run.
  unfold lift_result. rewrite Hgroups, bind_run.
  by destruct (for_each _ _ s) as [[[]|e] t].
Qed.

(** the call stops before the loops when the grouper fails *)
Lemma apply_k_anonymity_no_classes (s : state) (df : frame)
    (cols : list string) (k : Z) (strategy : string) (e : exn) :
  current s = Some df →
  strategy ∈ ["suppression"; "generalization"; "synthetic"] →
  groupby df cols false = Raise e →
  apply_k_anonymity cols k strategy s = (Raise e, s).
Proof.
  intros Hcur Hs Hgroups. unfold apply_k_anonymity.
  rewrite (bool_decide_eq_true_2 _ Hs). simpl.
  rewrite bind_run, (deref_self_df s df Hcur), bind_run.
  unfold lift_result. by rewrite Hgroups.
Qed.

(** A call with a recognised strategy, on classes that the loops can
    rewrite, returns, and the cells it has rewritten are those of the
    grouping columns in the rows of the small classes. *)
Lemma apply_k_anonymity_run (s : state) (df : frame) (cols : list string)
    (k : Z) (strategy : string) (groups : list group) :
  current s = Some df → wf_frame df →
  strategy ∈ ["suppression"; "generalization"; "synthetic"] →
  groupby df cols false = Ok groups →
  writable df cols (small_groups k groups) = true →
  ∃ s' df',
    apply_k_anonymity cols k strategy s = (Ok (), s') ∧
    current s' = Some df' ∧
    cells_rewritten strategy
      (λ i c, c ∈ cols ∧ ∃ g, g ∈ small_groups k groups ∧ i ∈ g.2) df df'.
Proof.
  intros Hcur Hwf Hs Hgroups Hw.
  destruct (groupby_columns _ _ _ Hgroups) as [_ Hcols].
  pose proof (small_groups_classes df cols k groups Hgroups) as Hsmall.
  destruct (rewrite_loops_run strategy cols (small_groups k groups) s df)
    as (t & df' & Hrun & Hcur' & Hcells); try done.
  { eapply Forall_impl; [exact Hsmall|]. by intros g [? _]. }
  exists (logged ("K-Anonymity (" +:+ strategy +:+ ") applied with k=" +:+
                  pretty k +:+ ".") t), df'.
  split; [|by split].
  by rewrite (apply_k_anonymity_loops s df cols k strategy groups), Hrun.
Qed.

(** When a class is to be rewritten and a grouping column does not take
    strings, the call raises [TypeError] at the first such column, in the
    first class: the cells of that class in the columns before it are
    rewritten, and nothing is printed. *)
Lemma apply_k_anonymity_refused (s : state) (df : frame)
    (cols : list string) (k : Z) (strategy : string) (groups : list group) :
  current s = Some df → wf_frame df →
  strategy ∈ ["suppression"; "generalization"; "synthetic"] →
  groupby df cols false = Ok groups →
  writable df cols (small_groups k groups) = false →
  ∃ s' df' g0 rest pre c0 post,
    small_groups k groups = g0 :: rest ∧
    cols = pre ++ c0 :: post ∧
    (∀ c, c ∈ pre → takes_strings df c = true) ∧
    takes_strings df c0 = false ∧
    apply_k_anonymity cols k strategy s = (Raise TypeError, s') ∧
    current s' = Some df' ∧
    cells_rewritten strategy (λ i c, c ∈ pre ∧ i ∈ g0.2) df df'.
Proof.
  intros Hcur Hwf Hs Hgroups Hw.
  destruct (groupby_columns _ _ _ Hgroups) as [_ Hcols].
  pose proof (small_groups_classes df cols k groups Hgroups) as Hsmall.
  destruct (small_groups k groups) as [|g0 rest] eqn:Hsg; [done|].
  apply Forall_cons in Hsmall as [(Hnd & Hne & Hlt) _].
  destruct (rewrite_loops_refused strategy cols g0 rest s df)
    as (t & df' & pre & c0 & post & Hsplit & Hpre & Hc0 & Hrun & Hcur' & Hcells);
    try done.
  exists t, df', g0, rest, pre, c0, post. repeat (split; [done|]).
  split; [|by split].
  by rewrite (apply_k_anonymity_loops s df cols k strategy groups),
     Hsg, Hrun.
Qed.

(** The two outcomes together: the region [D] of the cells written lies
    in the grouping columns that take strings and in the rows of the small
    classes, and is all of it when the call returns. *)
Lemma apply_k_anonymity_cells (s : state) (df : frame) (cols : list string)
    (k : Z) (strategy : string) (groups : list group) :
  current s = Some df → wf_frame df →
  strategy ∈ ["suppression"; "generalization"; "synthetic"] →
  groupby df cols false = Ok groups →
  ∃ s' df' (D : nat → string → Prop),
    apply_k_anonymity cols k strategy s =
      (if writable df cols (small_groups k groups)
       then Ok () else Raise TypeError, s') ∧
    current s' = Some df' ∧
    cells_rewritten strategy D df df' ∧
    (∀ i c, D i c →
       c ∈ cols ∧ takes_strings df c = true ∧
       ∃ g, g ∈ small_groups k groups ∧ i ∈ g.2) ∧
    (writable df cols (small_groups k groups) = true →
     ∀ i c, c ∈ cols → (∃ g, g ∈ small_groups k groups ∧ i ∈ g.2) → D i c).
Proof.
  intros Hcur Hwf Hs Hgroups.
  destruct (writable df cols (small_groups k groups)) eqn:Hw.
  - destruct (apply_k_anonymity_run s df cols k strategy groups)
      as (s' & df' & Hrun & Hcur' & Hcells); try done.
    exists s', df',
      (λ i c, c ∈ cols ∧ ∃ g, g ∈ small_groups k groups ∧ i ∈ g.2).
    repeat (split; [done|]). split; [|by auto].
    intros i c (Hc & g & Hg & Hi). split; [done|]. split; [|eauto].
    destruct (small_groups k groups) as [|g0 rest];
      [by apply elem_of_nil in Hg|].
    simpl in Hw. rewrite forallb_forall in Hw. apply Hw.
    by apply list_elem_of_In.
  - destruct (apply_k_anonymity_refused s df cols k strategy groups)
      as (s' & df' & g0 & rest & pre & c0 & post & Hsg & -> & Hpre & Hc0 &
          Hrun & Hcur' & Hcells); try done.
    exists s', df', (λ i c, c ∈ pre ∧ i ∈ g0.2).
    repeat (split; [done|]). split; [|done].
    intros i c [Hc Hi]. split; [apply elem_of_app; by left|].
    split; [by apply Hpre|]. exists g0. split; [rewrite Hsg; left | done].
Qed.

(** the rows of a class of at least [k] rows keep their cells *)
Lemma large_class_kept (df df' : frame) (cols : list string) (k : Z)
    (strategy : string) (groups : list group) (D : nat → string → Prop)
    (g : group) (i : nat) (c : string) :
  wf_frame df → groupby df cols false = Ok groups →
  cells_rewritten strategy D df df' →
  (∀ i c, D i c → ∃ g, g ∈ small_groups k groups ∧ i ∈ g.2) →
  g ∈ groups → i ∈ g.2 → (k ≤ Py.len_list g.2)%Z →
  cell df' c i = cell df c i.
Proof.
  intros Hwf Hgroups Hcells HD Hg Hi Hbig.
  pose proof (groupby_NoDup _ _ _ Hgroups) as Hnd.
  eapply cells_rewritten_outside; [done | exact Hcells |].
  intros (g' & [Hsmall Hg']%list_elem_of_filter & Hi')%HD.
  assert (g = g') as <- by by eapply class_unique. simpl in Hsmall. lia.
Qed.

(** the rows of a class of fewer than [k] rows are rewritten in each
    grouping column, when the region is all of the small classes *)
Lemma small_class_rewritten (df df' : frame) (cols : list string) (k : Z)
    (strategy : string) (groups : list group) (D : nat → string → Prop)
    (g : group) (i : nat) (c : string) :
  wf_frame df → groupby df cols false = Ok groups →
  cells_rewritten strategy D df df' →
  (∀ i c, c ∈ cols → (∃ g, g ∈ small_groups k groups ∧ i ∈ g.2) → D i c) →
  g ∈ groups → i ∈ g.2 → (Py.len_list g.2 < k)%Z → c ∈ cols →
  ∃ old new, cell df c i = Some old ∧ cell df' c i = Some new ∧
             rewritten strategy c old new.
Proof.
  intros Hwf Hgroups (Hn & Hc & Hl & Hcells) HD Hg Hi Hsmall Hcin.
  destruct (groupby_columns _ _ _ Hgroups) as [_ Hcols].
  pose proof (groupby_row_lt _ _ _ _ _ Hgroups Hg Hi) as Hlt.
  destruct (cell_is_Some df c i) as [old Hold]; [done|by apply Hcols|done|].
  destruct (Hcells c i old Hold) as (new & Hnew & [[HD' _]|[_ Hr]]).
  - exfalso. apply HD'. apply HD; [done|]. exists g. split; [|done].
    by apply list_elem_of_filter.
  - by exists old, new.
Qed.

(** a written cell holds what the strategy makes of the cell before *)
Lemma written_cell (df df' : frame) (strategy : string)
    (D : nat → string → Prop) (i : nat) (c : string) :
  wf_frame df → cells_rewritten strategy D df df' →
  (∀ i c, D i c → c ∈ columns df ∧ i < nrows df) → D i c →
  ∃ old new, cell df c i = Some old ∧ cell df' c i = Some new ∧
             rewritten strategy c old new.
Proof.
  intros Hwf (Hn & Hc & Hl & Hcells) Hin HD.
  destruct (Hin i c HD) as [Hcol Hlt].
  destruct (cell_is_Some df c i) as [old Hold]; [done..|].
  destruct (Hcells c i old Hold) as (new & Hnew & [[HD' _]|[_ Hr]]);
    [done|]. by exists old, new.
Qed.

(** the call on a well-formed table, any outcome: the table keeps its
    shape *)
Lemma apply_k_anonymity_shape (s : state) (df : frame)
    (cols : list string) (k : Z) (strategy : string) :
  current s = Some df → wf_frame df →
  ∃ df', current (apply_k_anonymity cols k strategy s).2 = Some df' ∧
         wf_frame df' ∧ columns df' = columns df ∧ nrows df' = nrows df.
Proof.
  intros Hcur Hwf.
  destruct (decide (strategy ∈ ["suppression"; "generalization"; "synthetic"]))
    as [Hs|Hs].
  - destruct (groupby df cols false) as [groups|e0] eqn:Hgroups.
    + destruct (apply_k_anonymity_cells s df cols k strategy groups)
        as (s' & df' & D & -> & Hcur' & Hcells & _); try done.
      exists df'. split; [done|].
      split; [by eapply cells_rewritten_wf|]. split; apply Hcells.
    + rewrite (apply_k_anonymity_no_classes s df cols k strategy e0)
        by done.
      by exists df.
  - unfold apply_k_anonymity. rewrite (bool_decide_eq_false_2 _ Hs).
    by exists df.
Qed.

End Classes.

(** ** Footprint of the computations *)
Section Footprint.
Context `{Libs}.

Lemma writes_df_only_ret {A : Type} (a : A) : writes_df_only (mret a).
Proof. by intros s. Qed.

Lemma writes_df_only_raise {A : Type} (e : exn) : writes_df_only (@raise _ _ A e).
Proof. by intros s. Qed.

Lemma writes_df_only_lift {A : Type} (r : result A) :
  writes_df_only (lift_result r).
Proof. by intros s. Qed.

Lemma writes_df_only_print (line : string) : writes_df_only (print line).
Proof. by intros s. Qed.

Lemma writes_df_only_sample {A : Type} (g : rng → A * rng) :
  writes_df_only (sample g).
Proof. intros s. unfold sample. by destruct (g (random s)). Qed.

Lemma writes_df_only_deref (ref : state → option nat) :
  writes_df_only (deref ref).
Proof. intros s. unfold deref. by destruct (ref s ≫= _). Qed.

Lemma writes_df_only_update_df (g : frame → frame) :
  writes_df_only (update_df g).
Proof.
  intros s. unfold update_df. destruct (self_df s) as [l|] eqn:Hl; simpl;
    [|done].
  rewrite length_alter. repeat split; try done.
  intros l' Hne. apply list_lookup_alter_ne. congruence.
Qed.

Lemma writes_df_only_modify_df (g : frame → result frame) :
  writes_df_only (modify_df g).
Proof.
  intros s. unfold modify_df. rewrite bind_run.
  pose proof (writes_df_only_deref self_df s) as Hderef.
  destruct (deref self_df s) as [[df|e] s1] eqn:Hd; [|exact Hderef].
  assert (s1 = s) as ->.
  { unfold deref in Hd. by destruct (self_df s ≫= _); simplify_eq. }
  destruct (g df) as [df'|e]; [apply writes_df_only_update_df | done].
Qed.

Lemma writes_df_only_bind {A B : Type} (m : M A) (k : A → M B) :
  writes_df_only m → (∀ a, writes_df_only (k a)) →
  writes_df_only (m ≫= k).
Proof.
  intros Hm Hk s. rewrite bind_run. specialize (Hm s).
  destruct (m s) as [[a|e] s1]; simpl in *; [|done].
  specialize (Hk a s1). destruct Hm as (Hd & Ho & Hlen & Hheap).
  destruct Hk as (Hd' & Ho' & Hlen' & Hheap').
  repeat split; try congruence.
  intros l Hl. rewrite Hheap', Hheap; [done | done | congruence].
Qed.

Lemma writes_df_only_for_each {A : Type} (l : list A) (body : A → M unit) :
  (∀ x, writes_df_only (body x)) → writes_df_only (for_each l body).
Proof.
  intros Hbody. induction l as [|x l IH]; simpl.
  - apply writes_df_only_ret.
  - apply writes_df_only_bind; [apply Hbody | intros _; apply IH].
Qed.

Lemma stdout_blind_ret {A : Type} (a : A) : stdout_blind (mret a).
Proof. by intros s t Hst. Qed.

Lemma stdout_blind_raise {A : Type} (e : exn) : stdout_blind (@raise _ _ A e).
Proof. by intros s t Hst. Qed.

Lemma stdout_blind_print (line : string) : stdout_blind (print line).
Proof. by intros s t Hst. Qed.

Lemma stdout_blind_sample {A : Type} (g : rng → A * rng) :
  stdout_blind (sample g).
Proof.
  intros s t (Hd & Ho & Hh & Hr). unfold sample. rewrite Hr.
  by destruct (g (random t)).
Qed.

Lemma stdout_blind_deref_self_df : stdout_blind (deref self_df).
Proof.
  intros s t (Hd & Ho & Hh & Hr). unfold deref. rewrite Hd, Hh.
  by destruct (self_df t ≫= _).
Qed.

Lemma stdout_blind_update_df (g : frame → frame) : stdout_blind (update_df g).
Proof.
  intros s t Hst. pose proof Hst as (Hd & Ho & Hh & Hr).
  unfold update_df. rewrite Hd.
  destruct (self_df t); [|by split].
  split; [done|]. unfold same_store. simpl. by rewrite Hh.
Qed.

Lemma stdout_blind_bind {A B : Type} (m : M A) (k : A → M B) :
  stdout_blind m → (∀ a, stdout_blind (k a)) → stdout_blind (m ≫= k).
Proof.
  intros Hm Hk s t Hst. rewrite !bind_run. destruct (Hm s t Hst) as [Hr Hs].
  destruct (m s) as [[a|e] s1], (m t) as [[a'|e'] t1]; simplify_eq/=.
  - by apply Hk.
  - done.
Qed.

Lemma stdout_blind_for_each {A : Type} (l : list A) (body : A → M unit) :
  (∀ x, stdout_blind (body x)) → stdout_blind (for_each l body).
Proof.
  intros Hbody. induction l as [|x l IH]; simpl.
  - apply stdout_blind_ret.
  - apply stdout_blind_bind; [apply Hbody | intros _; apply IH].
Qed.

Lemma writes_df_only_dp_column (epsilon : num) (col : string) :
  writes_df_only (dp_column epsilon col).
Proof.
  unfold dp_column, column_of, numeric, np_random_laplace, series_add.
  apply writes_df_only_bind; [apply writes_df_only_deref|]. intros df.
  destruct (has_column df col); [|apply writes_df_only_print].
  apply writes_df_only_bind;
    [destruct (getitem df col);
       [apply writes_df_only_ret | apply writes_df_only_raise]|].
  intros c. apply writes_df_only_bind;
    [destruct (mapM as_num c);
       [apply writes_df_only_ret | apply writes_df_only_raise]|].
  intros xs. apply writes_df_only_bind;
    [destruct (num_ltz _);
       [apply writes_df_only_raise | apply writes_df_only_sample]|].
  intros noise. apply writes_df_only_bind;
    [case_bool_decide;
       [apply writes_df_only_ret | apply writes_df_only_raise]|].
  intros ys. apply writes_df_only_bind; [apply writes_df_only_update_df|].
  intros _. apply writes_df_only_bind; [apply writes_df_only_update_df|].
  intros _. apply writes_df_only_print.
Qed.

Lemma stdout_blind_dp_column (epsilon : num) (col : string) :
  stdout_blind (dp_column epsilon col).
Proof.
  unfold dp_column, column_of, numeric, np_random_laplace, series_add.
  apply stdout_blind_bind; [apply stdout_blind_deref_self_df|]. intros df.
  destruct (has_column df col); [|apply stdout_blind_print].
  apply stdout_blind_bind;
    [destruct (getitem df col);
       [apply stdout_blind_ret | apply stdout_blind_raise]|].
  intros c. apply stdout_blind_bind;
    [destruct (mapM as_num c);
       [apply stdout_blind_ret | apply stdout_blind_raise]|].
  intros xs. apply stdout_blind_bind;
    [destruct (num_ltz _);
       [apply stdout_blind_raise | apply stdout_blind_sample]|].
  intros noise. apply stdout_blind_bind;
    [case_bool_decide;
       [apply stdout_blind_ret | apply stdout_blind_raise]|].
  intros ys. apply stdout_blind_bind; [apply stdout_blind_update_df|].
  intros _. apply stdout_blind_bind; [apply stdout_blind_update_df|].
  intros _. apply stdout_blind_print.
Qed.

Lemma writes_df_only_rewrite_group (strategy : string) (indices : list nat)
    (col : string) :
  writes_df_only (rewrite_group strategy indices col).
Proof.
  unfold rewrite_group, column_of.
  repeat case_bool_decide.
  1,2: apply writes_df_only_bind; [apply writes_df_only_deref|]; intros df;
       apply writes_df_only_bind;
         [destruct (getitem df col);
            [apply writes_df_only_ret | apply writes_df_only_raise]|];
       intros c; apply writes_df_only_modify_df.
  - apply writes_df_only_bind; [apply writes_df_only_sample|].
    intros values. apply writes_df_only_modify_df.
  - apply writes_df_only_ret.
Qed.

Lemma writes_df_only_apply_k_anonymity (qi : list string) (k : Z)
    (strategy : string) :
  writes_df_only (apply_k_anonymity qi k strategy).
Proof.
  unfold apply_k_anonymity.
  destruct (negb _); [apply writes_df_only_raise|].
  apply writes_df_only_bind; [apply writes_df_only_deref|]. intros df.
  apply writes_df_only_bind; [apply writes_df_only_lift|]. intros groups.
  apply writes_df_only_bind; [|intros _; apply writes_df_only_print].
  apply writes_df_only_for_each. intros g.
  apply writes_df_only_for_each. intros c.
  apply writes_df_only_rewrite_group.
Qed.

Lemma writes_df_only_run_call (c : call) : writes_df_only (run_call c).
Proof.
  destruct c as [cs eps|qi k strategy]; simpl.
  - apply writes_df_only_for_each. intros c. apply writes_df_only_dp_column.
  - apply writes_df_only_apply_k_anonymity.
Qed.

(** the snapshot object survives any sequence of calls *)
Lemma run_calls_original (cs : list call) (s : state) (l l' : nat)
    (f : frame) :
  self_df s = Some l → self_original_df s = Some l' → l ≠ l' →
  heap s !! l' = Some f →
  self_df (run_calls cs s) = Some l ∧
  self_original_df (run_calls cs s) = Some l' ∧
  heap (run_calls cs s) !! l' = Some f.
Proof.
  revert s. induction cs as [|c cs IH]; intros s Hd Ho Hne Hf; [done|].
  simpl. destruct (writes_df_only_run_call c s) as (Hd' & Ho' & _ & Hh').
  apply IH; try congruence.
  rewrite Hh'; [done | congruence].
Qed.

End Footprint.

(** ** One column of [apply_differential_privacy] *)
Section Noise.
Context `{Libs}.

Lemma mapM_as_num (xs : list num) : mapM as_num (VNum <$> xs) = Some xs.
Proof.
  apply mapM_Some_2. induction xs as [|x xs IH]; constructor; done.
Qed.

Lemma round_fmap (ys : list num) :
  (λ v : value, match v with
                | VNum y => VNum (num_round 2 y)
                | _ => v
                end) <$> (VNum <$> ys) =
  VNum <$> (num_round 2 <$> ys).
Proof. induction ys as [|y ys IH]; simpl; [done | by f_equal]. Qed.

Lemma dp_column_absent (epsilon : num) (col : string) (s : state)
    (df : frame) :
  current s = Some df → col ∉ columns df →
  dp_column epsilon col s =
  (Ok (), logged ("Warning: Column '" +:+ col +:+ "' not found in dataset.") s).
Proof.
  intros Hcur Hcol. unfold dp_column.
  rewrite bind_run, (deref_self_df s df Hcur).
  unfold has_column. by rewrite bool_decide_eq_false_2.
Qed.

Lemma dp_column_present (epsilon : num) (col : string) (s : state)
    (df : frame) (xs : list num) :
  current s = Some df → wf_frame df →
  getitem df col = Some (VNum <$> xs) →
  num_ltz (dp_scale xs epsilon) = false →
  ∃ noise r' s' df',
    draw (laplace_sample num_zero (dp_scale xs epsilon)) (nrows df)
         (random s) = (noise, r') ∧
    length noise = nrows df ∧
    dp_column epsilon col s = (Ok (), s') ∧
    self_df s' = self_df s ∧ self_original_df s' = self_original_df s ∧
    random s' = r' ∧
    stdout s' = stdout s ++
      ["Differential Privacy applied on '" +:+ col +:+ "' with epsilon=" +:+
       num_str epsilon +:+ "."] ∧
    current s' = Some df' ∧
    nrows df' = nrows df ∧ columns df' = columns df ∧
    getitem df' col =
      Some (VNum <$> (num_round 2 <$> zip_with num_add xs noise)) ∧
    ∀ c, c ≠ col → getitem df' c = getitem df c.
Proof.
  intros Hcur Hwf Hcol Hscale.
  pose proof (draw_length (laplace_sample num_zero (dp_scale xs epsilon))
                (nrows df) (random s)) as Hdl.
  destruct (draw _ _ _) as [noise r'] eqn:Hdraw. simpl in Hdl.
  pose proof (getitem_length df col _ Hwf Hcol) as Hxs.
  rewrite length_fmap in Hxs.
  set (s1 := State (self_df s) (self_original_df s) (heap s) (stdout s) r').
  assert (current s1 = Some df) as Hcur1 by done.
  destruct (current_update_df
              (alter_column (λ _, VNum <$> zip_with num_add xs noise) col)
              s1 df Hcur1)
    as (s2 & Hrun2 & Hcur2 & Hd2 & Ho2 & Hout2 & Hr2 & _).
  destruct (current_update_df
              (alter_column
                 (fmap (λ v : value, match v with
                                     | VNum y => VNum (num_round 2 y)
                                     | _ => v
                                     end)) col)
              s2 _ Hcur2)
    as (s3 & Hrun3 & Hcur3 & Hd3 & Ho3 & Hout3 & Hr3 & _).
  exists noise, r', (logged ("Differential Privacy applied on '" +:+ col +:+
                             "' with epsilon=" +:+ num_str epsilon +:+ ".") s3).
  eexists. split; [done|]. split; [done|]. split.
  { unfold dp_column. rewrite bind_run, (deref_self_df s df Hcur).
    assert (has_column df col = true) as ->.
    { apply has_column_true, getitem_is_Some. by rewrite Hcol. }
    unfold column_of. rewrite Hcol, bind_run. simpl.
    unfold numeric. rewrite mapM_as_num, bind_run. simpl.
    unfold np_random_laplace. fold (dp_scale xs epsilon).
    rewrite Hscale, bind_run. unfold sample. rewrite Hdraw. fold s1.
    unfold series_add. rewrite bool_decide_eq_true_2 by congruence.
    rewrite !bind_run. cbn [mret M_ret].
    rewrite bind_run, Hrun2, bind_run, Hrun3. done. }
  subst s1. simpl in Hd2, Ho2, Hout2, Hr2.
  split; [simpl; congruence|]. split; [simpl; congruence|].
  split; [simpl; congruence|]. split; [simpl; congruence|].
  split; [exact Hcur3|]. split; [done|].
  split; [by rewrite !columns_alter_column|]. split.
  - rewrite !getitem_alter_column. rewrite !decide_True by done.
    rewrite Hcol. simpl. by rewrite round_fmap.
  - intros c Hc. rewrite !getitem_alter_column.
    by rewrite !decide_False by done.
Qed.

(** ** [load_data] *)
Lemma load_data_run (filepath : string) (s s' : state) :
  load_data filepath s = (Ok (), s') →
  ∃ f, pd_read_csv filepath = Ok f ∧
       self_df s' = Some (length (heap s)) ∧
       self_original_df s' = Some (S (length (heap s))) ∧
       heap s' = heap s ++ [f; f].
Proof.
  unfold load_data. destruct (os_path_exists filepath); simpl; [|done].
  rewrite bind_run. unfold lift_result.
  destruct (pd_read_csv filepath) as [f|e]; [|done].
  rewrite bind_run. cbn [alloc]. rewrite bind_run. cbn [set_self_df].
  rewrite bind_run, (deref_self_df _ f);
    [|by unfold current; simpl; apply list_lookup_middle].
  rewrite bind_run. cbn [alloc heap]. rewrite bind_run.
  cbn [set_self_original_df self_df self_original_df heap stdout random].
  rewrite bind_run, (deref_self_df _ f);
    [|by unfold current; simpl; rewrite <- app_assoc;
         apply list_lookup_middle].
  unfold print. simpl. intros [= <-]. exists f. simpl.
  by rewrite <- app_assoc, length_app, Nat.add_1_r.
Qed.

End Noise.

(** ** The report *)
Section Report.
Context `{Libs}.

Lemma for_each_print {A : Type} (l : list A) (g : A → string) (s : state) :
  for_each l (λ x, print (g x)) s =
  (Ok (), State (self_df s) (self_original_df s) (heap s)
                (stdout s ++ (g <$> l)) (random s)).
Proof.
  revert s. induction l as [|x l IH]; intros s; simpl.
  - rewrite app_nil_r. by destruct s.
  - rewrite bind_run. unfold print at 1. rewrite IH. simpl.
    by rewrite <- app_assoc.
Qed.

Lemma report_column_run (col : string) (report : list entry) (s : state)
    (orig df : frame) :
  original s = Some orig → current s = Some df → col ∈ columns orig →
  ∃ new,
    report_column col report s = (Ok (report ++ new), s) ∧
    entry_column <$> new = filter (λ c, c ∈ columns df) [col] ∧
    Forall (λ e, ∃ oc ac,
              getitem orig (entry_column e) = Some oc ∧
              getitem df (entry_column e) = Some ac ∧
              entry_original e = nunique oc ∧
              entry_anonymized e = nunique ac ∧
              entry_gain e = (nunique oc - nunique ac)%Z) new.
Proof.
  intros Horig Hcur [oc Hoc]%getitem_is_Some. unfold report_column.
  rewrite bind_run, (deref_self_df s df Hcur).
  rewrite filter_cons, filter_nil. unfold has_column.
  case_bool_decide as Hcol.
  - rewrite decide_True by done.
    apply getitem_is_Some in Hcol as [ac Hac].
    rewrite bind_run, (deref_self_original_df s orig Horig).
    unfold column_of. rewrite Hoc, bind_run. cbn [mret M_ret].
    rewrite bind_run, (deref_self_df s df Hcur).
    rewrite Hac, bind_run. cbn [mret M_ret].
    eexists [_]. split; [done|]. split; [done|].
    constructor; [|done]. exists oc, ac. done.
  - rewrite decide_False by done. exists []. rewrite app_nil_r. done.
Qed.

Lemma build_report_run (s : state) (orig df : frame) :
  original s = Some orig → current s = Some df →
  ∃ report,
    build_report s = (Ok report, s) ∧
    entry_column <$> report = filter (λ c, c ∈ columns df) (columns orig) ∧
    Forall (λ e, ∃ oc ac,
              getitem orig (entry_column e) = Some oc ∧
              getitem df (entry_column e) = Some ac ∧
              entry_original e = nunique oc ∧
              entry_anonymized e = nunique ac ∧
              entry_gain e = (nunique oc - nunique ac)%Z) report.
Proof.
  intros Horig Hcur. unfold build_report.
  rewrite bind_run, (deref_self_original_df s orig Horig).
  assert (∀ cs acc, (∀ c, c ∈ cs → c ∈ columns orig) →
    ∃ new,
      fold_each cs report_column acc s = (Ok (acc ++ new), s) ∧
      entry_column <$> new = filter (λ c, c ∈ columns df) cs ∧
      Forall (λ e, ∃ oc ac,
                getitem orig (entry_column e) = Some oc ∧
                getitem df (entry_column e) = Some ac ∧
                entry_original e = nunique oc ∧
                entry_anonymized e = nunique ac ∧
                entry_gain e = (nunique oc - nunique ac)%Z) new) as Hgen.
  { induction cs as [|c cs IH]; intros acc Hcs; simpl.
    - exists []. by rewrite app_nil_r.
    - destruct (report_column_run c acc s orig df)
        as (new1 & Hrun1 & Hcols1 & Hok1); [done | done | apply Hcs; left |].
      destruct (IH (acc ++ new1)) as (new2 & Hrun2 & Hcols2 & Hok2).
      { intros c' Hc'. apply Hcs. by right. }
      exists (new1 ++ new2). rewrite bind_run, Hrun1, Hrun2.
      split; [by rewrite app_assoc|]. split.
      + rewrite fmap_app, Hcols1, Hcols2.
        by rewrite (filter_app _ [c] cs).
      + by apply Forall_app. }
  destruct (Hgen (columns orig) []) as (report & Hrun & Hcols & Hok); [done|].
  exists report. done.
Qed.

End Report.

(** ** The synthetic strategy *)
Section Synthetic.
Context `{Libs}.

(** the j-th row of the class receives the j-th value drawn *)
Lemma rewrite_group_synthetic (indices : list nat) (col : string)
    (s : state) (df : frame) :
  current s = Some df → wf_frame df → col ∈ columns df →
  NoDup indices → (∀ i, i ∈ indices → i < nrows df) →
  takes_strings df col = true →
  ∃ s' df',
    rewrite_group "synthetic" indices col s = (Ok (), s') ∧
    current s' = Some df' ∧
    random s' =
      (draw (generate (synthetic_kind_of col)) (length indices)
            (random s)).2 ∧
    ∀ j i, indices !! j = Some i →
      cell df' col i =
      VStr <$> (draw (generate (synthetic_kind_of col)) (length indices)
                     (random s)).1 !! j.
Proof.
  intros Hcur Hwf [c Hc]%getitem_is_Some Hnd Hlt Htakes.
  unfold rewrite_group. simpl. rewrite bind_run. unfold sample.
  pose proof (draw_length (generate (synthetic_kind_of col))
                (length indices) (random s)) as Hdl.
  destruct (draw _ _ _) as [values r'] eqn:Hdraw. simpl in Hdl.
  set (s1 := State _ _ _ _ r').
  assert (current s1 = Some df) as Hcur1 by done.
  destruct (modify_df_Ok
              (loc_assign_list indices col (VStr <$> values)) s1 df _ Hcur1
              (loc_assign_list_takes indices col (VStr <$> values) df Htakes))
    as (s' & Hrun & Hcur' & _ & _ & _ & Hr & _).
  exists s'. eexists. split; [exact Hrun|]. split; [exact Hcur'|].
  split; [done|]. intros j i Hj. simpl.
  unfold cell, write_list. rewrite getitem_alter_column.
  rewrite decide_True by done. rewrite Hc. simpl.
  destruct (lookup_lt_is_Some_2 values j) as [v Hv].
  { rewrite Hdl. by eapply lookup_lt_Some. }
  rewrite Hv. simpl. eapply (lookup_foldl_insert_at _ _ j).
  - rewrite fst_zip; [done | rewrite length_fmap; lia].
  - rewrite lookup_zip_with, Hj. simpl. by rewrite list_lookup_fmap, Hv.
  - rewrite (getitem_length df col c) by done. apply Hlt.
    by eapply list_elem_of_lookup_2.
Qed.

Lemma synthetic_kind_of_cases (col : string) :
  (synthetic_kind_of col = Zipcode ↔
     Py.contains "zip" (Py.lower col) = true) ∧
  (synthetic_kind_of col = Gender ↔
     Py.contains "zip" (Py.lower col) = false ∧
     Py.contains "gender" (Py.lower col) = true) ∧
  (synthetic_kind_of col = Job ↔
     Py.contains "zip" (Py.lower col) = false ∧
     Py.contains "gender" (Py.lower col) = false ∧
     (Py.contains "occupation" (Py.lower col) = true ∨
      Py.contains "job" (Py.lower col) = true)) ∧
  (synthetic_kind_of col = Word ↔
     Py.contains "zip" (Py.lower col) = false ∧
     Py.contains "gender" (Py.lower col) = false ∧
     Py.contains "occupation" (Py.lower col) = false ∧
     Py.contains "job" (Py.lower col) = false).
Proof.
  unfold synthetic_kind_of.
  destruct (Py.contains "zip" _), (Py.contains "gender" _),
    (Py.contains "occupation" _), (Py.contains "job" _); simpl;
    repeat split; try done; intros; try discriminate;
    intuition discriminate.
Qed.

End Synthetic.

(** * Properties of the specification *)
Section Specification.
Context `{Libs}.


(** C2. For every state and every strategy string other than
    "suppression", "generalization" and "synthetic", [apply_k_anonymity]
    raises [ValueError] and leaves the whole state as it was. *)
Theorem invalid_strategy_raises (s : state) (cols : list string) (k : Z)
    (strategy : string) :
  strategy ∉ ["suppression"; "generalization"; "synthetic"] →
  apply_k_anonymity cols k strategy s = (Raise ValueError, s).
Proof.
  intros Hs. unfold apply_k_anonymity.
  by rewrite (bool_decide_eq_false_2 _ Hs).
Qed.

(** C3. Generalization. The cells a call with the generalization
    strategy writes are cells of rows of classes smaller than [k], in
    columns of [cols] (all of them when the call returns, which it does
    when it has no class to rewrite or every column of [cols] takes
    strings); a cell it does not write is kept. Every cell written holds
    a string [out] such that, for the string [str original] of the cell
    before the call: if it has at least 2 characters, [out] has the same
    2 first characters and the same length; if it has fewer than 2, the
    repeat count [len - 2] gives no star and [out] is the original string
    followed by zero stars. *)
Theorem generalization_invariant (s : state) (df : frame)
    (cols : list string) (k : Z) (groups : list group) :
  current s = Some df → wf_frame df →
  groupby df cols false = Ok groups →
  ∃ r s' df' (written : nat → string → Prop),
    apply_k_anonymity cols k "generalization" s = (r, s') ∧
    current s' = Some df' ∧
    (∀ i c, written i c →
       c ∈ cols ∧ ∃ g, g ∈ groups ∧ (Py.len_list g.2 < k)%Z ∧ i ∈ g.2) ∧
    (r = Ok () →
     ∀ g i c, g ∈ groups → (Py.len_list g.2 < k)%Z → i ∈ g.2 → c ∈ cols →
       written i c) ∧
    (writable df cols (small_groups k groups) = true → r = Ok ()) ∧
    (∀ i c, ¬ written i c → cell df' c i = cell df c i) ∧
    ∀ i c, written i c →
      ∃ original out,
        cell df c i = Some original ∧ cell df' c i = Some (VStr out) ∧
        ((2 ≤ Py.len (str original))%Z →
           Py.slice_to 2 out = Py.slice_to 2 (str original) ∧
           Py.len out = Py.len (str original)) ∧
        ((Py.len (str original) < 2)%Z →
           Py.repeat "*" (Py.len (str original) - 2) = "" ∧
           out = str original +:+ Py.repeat "*" 0).
Proof.
  intros Hcur Hwf Hgroups.
  destruct (apply_k_anonymity_cells s df cols k "generalization" groups)
    as (s' & df' & D & Hrun & Hcur' & Hcells & Hin & Hall); try done.
  { apply elem_of_cons. right. apply elem_of_cons. by left. }
  destruct (groupby_columns _ _ _ Hgroups) as [_ Hcols].
  assert (∀ i c, D i c →
            c ∈ cols ∧ ∃ g, g ∈ groups ∧ (Py.len_list g.2 < k)%Z ∧ i ∈ g.2)
    as Hregion.
  { intros i c (Hc & _ & g & [Hsmall Hg]%list_elem_of_filter & Hi)%Hin.
    split; [done|]. by exists g. }
  eexists _, s', df', D. split; [exact Hrun|]. split; [done|].
  split; [exact Hregion|]. split; [|split; [|split]].
  - destruct (writable df cols (small_groups k groups)); [|done].
    intros _ g i c Hg Hsmall Hi Hc. apply Hall; [done | done |].
    exists g. split; [by apply list_elem_of_filter | done].
  - by intros ->.
  - intros i c HD. by eapply cells_rewritten_outside.
  - intros i c HD. destruct (Hregion i c HD) as (Hc & g & Hg & _ & Hi).
    destruct (written_cell df df' "generalization" D i c)
      as (old & new & Hold & Hnew & Hr); try done.
    { intros i' c' (Hc' & g' & Hg' & _ & Hi')%Hregion.
      split; [by apply Hcols | by eapply groupby_row_lt]. }
    destruct Hr as [[? _]|[[_ ->]|[? _]]]; try discriminate.
    exists old, (Py.slice_to 2 (str old) +:+
                 Py.repeat "*" (Py.len (str old) - 2)).
    split; [done|]. split; [done|]. split.
    + intros Hlong.
      destruct (generalize_long old Hlong) as (out & Hout & ? & ?).
      injection Hout as <-. done.
    + intros Hshort.
      destruct (generalize_short old Hshort) as (Hrep & Hout & _).
      split; [done|]. by injection Hout.
Qed.

(** C4. Suppression. The cells a call with the suppression strategy
    writes are cells of rows of classes smaller than [k], in columns of
    [cols] (all of them when the call returns, which it does when it has
    no class to rewrite or every column of [cols] takes strings); a cell
    it does not write is kept. Every cell written holds a string made of
    stars only, as long as the string of the cell before the call:
    [len(output) == len(str(original))]. *)
Theorem suppression_invariant (s : state) (df : frame)
    (cols : list string) (k : Z) (groups : list group) :
  current s = Some df → wf_frame df →
  groupby df cols false = Ok groups →
  ∃ r s' df' (written : nat → string → Prop),
    apply_k_anonymity cols k "suppression" s = (r, s') ∧
    current s' = Some df' ∧
    (∀ i c, written i c →
       c ∈ cols ∧ ∃ g, g ∈ groups ∧ (Py.len_list g.2 < k)%Z ∧ i ∈ g.2) ∧
    (r = Ok () →
     ∀ g i c, g ∈ groups → (Py.len_list g.2 < k)%Z → i ∈ g.2 → c ∈ cols →
       written i c) ∧
    (writable df cols (small_groups k groups) = true → r = Ok ()) ∧
    (∀ i c, ¬ written i c → cell df' c i = cell df c i) ∧
    ∀ i c, written i c →
      ∃ original out,
        cell df c i = Some original ∧ cell df' c i = Some (VStr out) ∧
        all_stars out ∧ Py.len out = Py.len (str original).
Proof.
  intros Hcur Hwf Hgroups.
  destruct (apply_k_anonymity_cells s df cols k "suppression" groups)
    as (s' & df' & D & Hrun & Hcur' & Hcells & Hin & Hall); try done.
  { apply elem_of_cons. by left. }
  destruct (groupby_columns _ _ _ Hgroups) as [_ Hcols].
  assert (∀ i c, D i c →
            c ∈ cols ∧ ∃ g, g ∈ groups ∧ (Py.len_list g.2 < k)%Z ∧ i ∈ g.2)
    as Hregion.
  { intros i c (Hc & _ & g & [Hsmall Hg]%list_elem_of_filter & Hi)%Hin.
    split; [done|]. by exists g. }
  eexists _, s', df', D. split; [exact Hrun|]. split; [done|].
  split; [exact Hregion|]. split; [|split; [|split]].
  - destruct (writable df cols (small_groups k groups)); [|done].
    intros _ g i c Hg Hsmall Hi Hc. apply Hall; [done | done |].
    exists g. split; [by apply list_elem_of_filter | done].
  - by intros ->.
  - intros i c HD. by eapply cells_rewritten_outside.
  - intros i c HD. destruct (Hregion i c HD) as (Hc & g & Hg & _ & Hi).
    destruct (written_cell df df' "suppression" D i c)
      as (old & new & Hold & Hnew & Hr); try done.
    { intros i' c' (Hc' & g' & Hg' & _ & Hi')%Hregion.
      split; [by apply Hcols | by eapply groupby_row_lt]. }
    destruct Hr as [[_ ->]|[[? _]|[? _]]]; try discriminate.
    destruct (suppress_stars old) as (out & Hout & Hstars & Hlen).
    exists old, out. rewrite <- Hout. done.
Qed.

(** C5. Partition. The classes [groupby(cols, dropna=False)] gives for a
    table partition its row indices: every row index lies in exactly one
    class (no row is dropped, whatever its key holds), an index lies in
    some class exactly when it is a row index of the table, and the
    indices of each class are in ascending order. *)
Theorem groupby_partition (f : frame) (cols : list string)
    (groups : list group) :
  groupby f cols false = Ok groups →
  (∀ i, i < nrows f →
     ∃ j, (∃ g, groups !! j = Some g ∧ i ∈ g.2) ∧
          ∀ j', (∃ g, groups !! j' = Some g ∧ i ∈ g.2) → j' = j) ∧
  (∀ i, (∃ g, g ∈ groups ∧ i ∈ g.2) ↔ i < nrows f) ∧
  mjoin groups.*2 ≡ₚ seq 0 (nrows f) ∧
  Forall (λ g, StronglySorted lt g.2) groups.
Proof.
  intros Hgroups.
  destruct (groupby_rows _ _ _ Hgroups) as [Hp Hsorted].
  pose proof (groupby_NoDup _ _ _ Hgroups) as Hnd.
  assert (∀ i, (∃ g, g ∈ groups ∧ i ∈ g.2) ↔ i < nrows f) as Hunion.
  { intros i. split.
    - intros (g & Hg & Hi). by eapply groupby_row_lt.
    - intros Hi. assert (i ∈ mjoin groups.*2) as Hin.
      { rewrite Hp, elem_of_seq. lia. }
      apply list_elem_of_join in Hin as (l & Hil & Hl).
      apply list_elem_of_fmap in Hl as (g & -> & Hg). eauto. }
  split; [|done].
  intros i Hi. apply Hunion in Hi as (g & Hg & Hi).
  apply list_elem_of_lookup in Hg as [j Hj].
  exists j. split; [eauto|]. intros j' (g' & Hj' & Hi').
  eapply (class_position_unique groups.*2 j' j g'.2 g.2 i); try done.
  - by apply (list_lookup_fmap_Some_2 snd).
  - by apply (list_lookup_fmap_Some_2 snd).
Qed.

(** C6. Differential privacy on one column. When the loop of
    [apply_differential_privacy] reaches a requested column that is in the
    table and numeric, with values [xs], and the scale it computes is not
    negative (as for [epsilon > 0]), it computes
    [sensitivity = max(xs) - min(xs)] and [scale = sensitivity / epsilon],
    draws one Laplace sample of location 0 and that scale per row, adds
    the samples to the values, rounds each sum to 2 decimals and writes
    the result over the column of the same table object; the other
    columns are kept and the loop goes on with the remaining columns. *)
Theorem differential_privacy_column (s s1 : state) (pre post : list string)
    (c : string) (epsilon : num) (df : frame) (xs : list num) :
  apply_differential_privacy pre epsilon s = (Ok (), s1) →
  current s1 = Some df → wf_frame df →
  getitem df c = Some (VNum <$> xs) →
  num_ltz (num_div (num_sub (series_max xs) (series_min xs)) epsilon)
    = false →
  ∃ noise r' s2 df2,
    draw (laplace_sample num_zero
            (num_div (num_sub (series_max xs) (series_min xs)) epsilon))
         (nrows df) (random s1) = (noise, r') ∧
    length noise = nrows df ∧
    dp_column epsilon c s1 = (Ok (), s2) ∧
    apply_differential_privacy (pre ++ c :: post) epsilon s =
      apply_differential_privacy post epsilon s2 ∧
    self_df s2 = self_df s1 ∧ random s2 = r' ∧
    current s2 = Some df2 ∧
    nrows df2 = nrows df ∧ columns df2 = columns df ∧
    getitem df2 c =
      Some (VNum <$> (num_round 2 <$> zip_with num_add xs noise)) ∧
    ∀ c', c' ≠ c → getitem df2 c' = getitem df c'.
Proof.
  intros Hpre Hcur Hwf Hc Hscale.
  destruct (dp_column_present epsilon c s1 df xs Hcur Hwf Hc Hscale)
    as (noise & r' & s2 & df2 & Hdraw & Hlen & Hrun & Hd & _ & Hr & _ &
        Hcur2 & Hn & Hcols & Hnew & Hother).
  exists noise, r', s2, df2. repeat (split; [done|]).
  split; [|done].
  unfold apply_differential_privacy in *. rewrite for_each_app, Hpre.
  simpl. by rewrite bind_run, Hrun.
Qed.

(** C7. The report. [get_anonymization_report] builds one entry for each
    column of the original table that is also a column of the current
    table, in the order of the original columns, and no entry for a column
    the current table lacks; the gain of an entry is exactly the
    distinct-value count of the column in the original table minus its
    distinct-value count in the current table. Only text is printed. *)
Theorem report_entries (s : state) (orig df : frame) :
  original s = Some orig → current s = Some df → wf_frame orig →
  ∃ report s',
    get_anonymization_report s = (Ok report, s') ∧ same_store s' s ∧
    entry_column <$> report = filter (λ c, c ∈ columns df) (columns orig) ∧
    NoDup (entry_column <$> report) ∧
    (∀ c, c ∈ entry_column <$> report ↔ c ∈ columns orig ∧ c ∈ columns df) ∧
    ∀ e, e ∈ report →
      ∃ oc ac,
        getitem orig (entry_column e) = Some oc ∧
        getitem df (entry_column e) = Some ac ∧
        entry_original e = nunique oc ∧
        entry_anonymized e = nunique ac ∧
        entry_gain e = (nunique oc - nunique ac)%Z.
Proof.
  intros Horig Hcur [Hnd _].
  destruct (build_report_run s orig df Horig Hcur)
    as (report & Hrun & Hcols & Hok).
  exists report. eexists. split.
  { unfold get_anonymization_report. rewrite bind_run, Hrun.
    rewrite bind_run. unfold print at 1.
    rewrite bind_run. unfold print at 1.
    rewrite bind_run. unfold print at 1.
    rewrite bind_run, for_each_print. cbn [self_df self_original_df heap stdout random].
    rewrite bind_run. unfold print at 1. reflexivity. }
  split; [done|]. split; [done|]. split.
  { rewrite Hcols. by apply NoDup_filter. }
  split.
  { intros c. rewrite Hcols, list_elem_of_filter. tauto. }
  by apply Forall_forall.
Qed.

(** C8. A requested column that the table lacks does not make
    [apply_differential_privacy] fail: at that column the loop prints a
    warning and changes nothing else, then goes on with the remaining
    columns, so that the outcome and the store are those of the same call
    without that column. *)
Theorem missing_column_skipped (s s1 : state) (pre post : list string)
    (c : string) (epsilon : num) (df : frame) :
  apply_differential_privacy pre epsilon s = (Ok (), s1) →
  current s1 = Some df → c ∉ columns df →
  let warned :=
    logged ("Warning: Column '" +:+ c +:+ "' not found in dataset.") s1 in
  dp_column epsilon c s1 = (Ok (), warned) ∧
  heap warned = heap s1 ∧ current warned = Some df ∧
  random warned = random s1 ∧
  apply_differential_privacy (pre ++ c :: post) epsilon s =
    apply_differential_privacy post epsilon warned ∧
  (apply_differential_privacy (pre ++ c :: post) epsilon s).1 =
    (apply_differential_privacy (pre ++ post) epsilon s).1 ∧
  same_store (apply_differential_privacy (pre ++ c :: post) epsilon s).2
             (apply_differential_privacy (pre ++ post) epsilon s).2.
Proof.
  intros Hpre Hcur Hc warned.
  pose proof (dp_column_absent epsilon c s1 df Hcur Hc) as Hstep.
  fold warned in Hstep.
  assert (apply_differential_privacy (pre ++ c :: post) epsilon s =
          apply_differential_privacy post epsilon warned) as Hgo.
  { unfold apply_differential_privacy in *. rewrite for_each_app, Hpre.
    simpl. by rewrite bind_run, Hstep. }
  assert (apply_differential_privacy (pre ++ post) epsilon s =
          apply_differential_privacy post epsilon s1) as Hwithout.
  { unfold apply_differential_privacy in *. by rewrite for_each_app, Hpre. }
  repeat (split; [done|]).
  rewrite Hgo, Hwithout. unfold apply_differential_privacy.
  apply stdout_blind_for_each; [|done].
  intros x. apply stdout_blind_dp_column.
Qed.

(** C9. The snapshot. After [load_data], whatever sequence of calls of
    [apply_differential_privacy] and [apply_k_anonymity] is made,
    [self.original_df] refers to the same object and that object is, cell
    for cell, the table that was loaded. *)
Theorem original_snapshot_preserved (s0 s1 : state) (filepath : string)
    (calls : list call) :
  load_data filepath s0 = (Ok (), s1) →
  ∃ f, pd_read_csv filepath = Ok f ∧
       current s1 = Some f ∧ original s1 = Some f ∧
       self_original_df (run_calls calls s1) = self_original_df s1 ∧
       original (run_calls calls s1) = Some f.
Proof.
  intros (f & Hread & Hd & Ho & Hheap)%load_data_run.
  assert (heap s1 !! length (heap s0) = Some f) as Hcur.
  { rewrite Hheap. by apply list_lookup_middle. }
  assert (heap s1 !! S (length (heap s0)) = Some f) as Horig.
  { rewrite Hheap. rewrite (cons_middle f (heap s0) [f]), app_assoc.
    apply list_lookup_middle. rewrite length_app. simpl. lia. }
  destruct (run_calls_original calls s1 (length (heap s0))
              (S (length (heap s0))) f) as (_ & Ho' & Hf'); try done; try lia.
  exists f. unfold current, original.
  rewrite Hd, Ho, Ho'. simpl. done.
Qed.

(** C10. The synthetic strategy chooses its generator from the lower-cased
    column name by substring, in a fixed order: a name containing "zip" is
    given postal codes; failing that, one containing "gender" a choice
    between the two labels; failing that, one containing "occupation" or
    "job" a job title; otherwise a word. Names equal up to case are
    treated alike, "zip_gender" is dispatched on "zip" alone. For a class
    the generator is called once per row. On a column that takes strings
    each row of the class then receives the value of its own call, the
    j-th row the j-th value; on a column that does not, the assignment of
    the values drawn raises [TypeError] and the table is left as it
    is. *)
Theorem synthetic_dispatch (s : state) (df : frame) (indices : list nat)
    (col : string) :
  current s = Some df → wf_frame df → col ∈ columns df →
  NoDup indices → (∀ i, i ∈ indices → i < nrows df) →
  (synthetic_kind_of col = Zipcode ↔
     ∃ a b, Py.lower col = a +:+ "zip" +:+ b) ∧
  (synthetic_kind_of col = Gender ↔
     (¬ ∃ a b, Py.lower col = a +:+ "zip" +:+ b) ∧
     ∃ a b, Py.lower col = a +:+ "gender" +:+ b) ∧
  (synthetic_kind_of col = Job ↔
     (¬ ∃ a b, Py.lower col = a +:+ "zip" +:+ b) ∧
     (¬ ∃ a b, Py.lower col = a +:+ "gender" +:+ b) ∧
     ((∃ a b, Py.lower col = a +:+ "occupation" +:+ b) ∨
      (∃ a b, Py.lower col = a +:+ "job" +:+ b))) ∧
  (synthetic_kind_of col = Word ↔
     (¬ ∃ a b, Py.lower col = a +:+ "zip" +:+ b) ∧
     (¬ ∃ a b, Py.lower col = a +:+ "gender" +:+ b) ∧
     (¬ ∃ a b, Py.lower col = a +:+ "occupation" +:+ b) ∧
     (¬ ∃ a b, Py.lower col = a +:+ "job" +:+ b)) ∧
  (∀ col', Py.lower col' = Py.lower col →
     synthetic_kind_of col' = synthetic_kind_of col) ∧
  synthetic_kind_of "zip_gender" = Zipcode ∧
  synthetic_kind_of "Gender_JOB" = Gender ∧
  generate Zipcode = fake_zipcode ∧
  generate Gender = random_choice ["Male"; "Female"] ∧
  generate Job = fake_job ∧
  generate Word = fake_word ∧
  length (draw (generate (synthetic_kind_of col)) (length indices)
               (random s)).1 = length indices ∧
  (takes_strings df col = true →
   ∃ s' df',
     rewrite_group "synthetic" indices col s = (Ok (), s') ∧
     current s' = Some df' ∧
     random s' =
       (draw (generate (synthetic_kind_of col)) (length indices)
             (random s)).2 ∧
     ∀ j i, indices !! j = Some i →
       cell df' col i =
       VStr <$> (draw (generate (synthetic_kind_of col)) (length indices)
                      (random s)).1 !! j) ∧
  (takes_strings df col = false → indices ≠ [] →
   ∃ s',
     rewrite_group "synthetic" indices col s = (Raise TypeError, s') ∧
     current s' = Some df ∧
     random s' =
       (draw (generate (synthetic_kind_of col)) (length indices)
             (random s)).2).
Proof.
  intros Hcur Hwf Hcol Hnd Hlt.
  destruct (synthetic_kind_of_cases col) as (Hz & Hg & Hj & Hw).
  assert (∀ sub t, Py.contains sub t = false ↔
                   ¬ ∃ a b, t = a +:+ sub +:+ b) as Hno.
  { intros sub t. rewrite <- contains_spec. by destruct (Py.contains sub t). }
  split; [by rewrite Hz, contains_spec|].
  split; [by rewrite Hg, Hno, contains_spec|].
  split; [by rewrite Hj, !Hno, !contains_spec|].
  split; [by rewrite Hw, !Hno|].
  split; [intros col' Heq; unfold synthetic_kind_of; by rewrite Heq|].
  do 6 (split; [reflexivity|]).
  split; [apply draw_length|]. split.
  - intros Htakes.
    destruct (rewrite_group_synthetic indices col s df)
      as (s' & df' & Hrun & Hcur' & Hr & Hcells); try done.
    exists s', df'. repeat (split; [done|]). done.
  - intros Htakes Hne.
    destruct (rewrite_group_refused "synthetic" indices col s df)
      as (s' & Hrun & Hcur' & _ & _ & _ & _ & _ & Hr); try done.
    + rewrite !elem_of_cons. auto.
    + intros c colv. by apply getitem_length.
    + exists s'. split; [done|]. split; [done|]. by apply Hr.
Qed.

End Specification.

(** * Further properties *)

(** ** What the string strategies keep of a value *)
Section Leaks.
Context `{Scalars}.

#[local] Arguments String.append !_ _ / : simpl nomatch.

Lemma generalize_shape (v : value) :
  ∃ out, generalize v = VStr out ∧
         Py.slice_to 2 out = Py.slice_to 2 (str v) ∧
         Py.len out = Py.len (str v).
Proof.
  destruct (Z.lt_ge_cases (Py.len (str v)) 2) as [Hs|Hl].
  - destruct (generalize_short v Hs) as (_ & _ & Hg). by exists (str v).
  - apply generalize_long. lia.
Qed.

(** X1. Suppression leaks the length of a value and nothing else: two
    values are suppressed to the same string exactly when their strings
    have the same length. *)
Theorem suppress_eq_iff (x y : value) :
  suppress x = suppress y ↔ Py.len (str x) = Py.len (str y).
Proof.
  split.
  - intros Heq.
    destruct (suppress_stars x) as (ox & Hx & _ & Hlx).
    destruct (suppress_stars y) as (oy & Hy & _ & Hly).
    rewrite Hx, Hy in Heq. injection Heq as ->. congruence.
  - intros Heq. unfold suppress. by rewrite Heq.
Qed.

(** X2. Generalization leaks the first two characters and the length of a
    value and nothing else: two values are generalized to the same string
    exactly when their strings agree on both. *)
Theorem generalize_eq_iff (x y : value) :
  generalize x = generalize y ↔
  Py.slice_to 2 (str x) = Py.slice_to 2 (str y) ∧
  Py.len (str x) = Py.len (str y).
Proof.
  split.
  - intros Heq.
    destruct (generalize_shape x) as (ox & Hx & Hpx & Hlx).
    destruct (generalize_shape y) as (oy & Hy & Hpy & Hly).
    rewrite Hx, Hy in Heq. injection Heq as ->. split; congruence.
  - intros [Hp Hl]. unfold generalize. by rewrite Hp, Hl.
Qed.

End Leaks.

(** ** The lines read by the script *)
Section Lines.

#[local] Arguments String.append !_ _ / : simpl nomatch.

Lemma length_lstrip (s : string) :
  (String.length (Py.lstrip s) ≤ String.length s)%nat.
Proof.
  induction s as [|c s IH]; simpl; [done|].
  destruct (Py.isspace c); simpl; lia.
Qed.

Lemma lstrip_fixed (c : ascii) (s : string) :
  Py.lstrip (String c s) = String c s → Py.isspace c = false.
Proof.
  simpl. destruct (Py.isspace c); [|done]. intros Heq.
  pose proof (length_lstrip s) as Hlen. rewrite Heq in Hlen. simpl in Hlen. lia.
Qed.

Lemma lstrip_idemp (s : string) : Py.lstrip (Py.lstrip s) = Py.lstrip s.
Proof.
  induction s as [|c s IH]; simpl; [done|].
  destruct (Py.isspace c) eqn:Hc; [done|]. simpl. by rewrite Hc.
Qed.

Lemma rstrip_idemp (s : string) : Py.rstrip (Py.rstrip s) = Py.rstrip s.
Proof.
  induction s as [|c s IH]; simpl; [done|].
  destruct (Py.rstrip s) as [|d t] eqn:Hr.
  - destruct (Py.isspace c) eqn:Hc; simpl; [done | by rewrite Hc].
  - change (Py.rstrip (String c (String d t))) with
      (match Py.rstrip (String d t) with
       | EmptyString =>
           if Py.isspace c then EmptyString else String c EmptyString
       | String d' t' => String c (String d' t')
       end).
    by rewrite IH.
Qed.

Lemma lstrip_rstrip (s : string) :
  Py.lstrip s = s → Py.lstrip (Py.rstrip s) = Py.rstrip s.
Proof.
  destruct s as [|c s]; [done|]. intros Hc%lstrip_fixed. simpl.
  destruct (Py.rstrip s); rewrite ?Hc; simpl; by rewrite Hc.
Qed.

Lemma strip_idemp (s : string) : Py.strip (Py.strip s) = Py.strip s.
Proof.
  unfold Py.strip. rewrite lstrip_rstrip by apply lstrip_idemp.
  apply rstrip_idemp.
Qed.

(** the stripped string is a piece of the string *)
Lemma lstrip_suffix (s : string) : ∃ a, s = a +:+ Py.lstrip s.
Proof.
  induction s as [|c s [a IH]]; simpl; [by exists ""|].
  destruct (Py.isspace c); [|by exists ""].
  exists (String c a). simpl. by rewrite <- IH.
Qed.

Lemma rstrip_prefix (s : string) : ∃ b, s = Py.rstrip s +:+ b.
Proof.
  induction s as [|c s [b IH]]; simpl; [by exists ""|].
  destruct (Py.rstrip s) as [|d t].
  - destruct (Py.isspace c).
    + exists (String c s). done.
    + exists b. simpl. by rewrite IH.
  - exists b. simpl. simpl in IH. by rewrite <- IH.
Qed.

Lemma contains_strip (sub s : string) :
  Py.contains sub (Py.strip s) = true → Py.contains sub s = true.
Proof.
  rewrite !contains_spec. intros (a & b & Hab). unfold Py.strip in Hab.
  destruct (lstrip_suffix s) as [a' Ha'].
  destruct (rstrip_prefix (Py.lstrip s)) as [b' Hb'].
  exists (a' +:+ a), (b +:+ b').
  rewrite Ha', Hb', Hab. by rewrite !app_assoc_str.
Qed.

Lemma split_not_nil (sep : ascii) (s : string) : Py.split sep s ≠ [].
Proof.
  induction s as [|c s IH]; simpl; [done|].
  destruct (Ascii.eqb c sep); [done|]. by destruct (Py.split sep s).
Qed.

Lemma contains_char_cons (sep c : ascii) (s : string) :
  Py.contains (String sep "") (String c s) =
  Ascii.eqb c sep || Py.contains (String sep "") s.
Proof.
  cbn [Py.contains String.prefix]. f_equal.
  destruct (ascii_dec sep c) as [->|Hne].
  - rewrite Ascii.eqb_refl. by destruct s.
  - symmetry. apply Ascii.eqb_neq. congruence.
Qed.

Lemma split_no_sep (sep : ascii) (s field : string) :
  field ∈ Py.split sep s → Py.contains (String sep "") field = false.
Proof.
  revert field. induction s as [|c s IH]; intros field; simpl.
  - by intros ->%list_elem_of_singleton.
  - destruct (Ascii.eqb c sep) eqn:Hc.
    + intros [->|Hin]%elem_of_cons; [done | by apply IH].
    + pose proof (split_not_nil sep s) as Hnil.
      destruct (Py.split sep s) as [|f fs]; [done|].
      intros [->|Hin]%elem_of_cons.
      * rewrite contains_char_cons, Hc. apply IH. left.
      * apply IH. by right.
Qed.

Lemma join_cons_cons (sep a b : string) (l : list string) :
  Py.join sep (a :: b :: l) = a +:+ sep +:+ Py.join sep (b :: l).
Proof. reflexivity. Qed.

Lemma join_cons_char (sep : string) (c : ascii) (f : string)
    (fs : list string) :
  Py.join sep (String c f :: fs) = String c (Py.join sep (f :: fs)).
Proof. by destruct fs. Qed.

Lemma join_split (sep : ascii) (s : string) :
  Py.join (String sep "") (Py.split sep s) = s.
Proof.
  induction s as [|c s IH]; simpl; [done|].
  pose proof (split_not_nil sep s) as Hnil.
  destruct (Ascii.eqb_spec c sep) as [->|Hne].
  - destruct (Py.split sep s) as [|f fs]; [done|].
    rewrite join_cons_cons, IH. done.
  - destruct (Py.split sep s) as [|f fs]; [done|].
    by rewrite join_cons_char, IH.
Qed.

(** X3. The column names the script reads from a line: there is always at
    least one name (an empty line gives the one name ""), no name has a
    comma or white space at either end, and the fields of the stripped line
    joined by commas are that line again, so that no text of the line is
    lost or invented. *)
Theorem parse_columns_names (line : string) :
  parse_columns line ≠ [] ∧
  (∀ name, name ∈ parse_columns line →
     Py.strip name = name ∧ Py.contains "," name = false) ∧
  length (parse_columns line) = length (Py.split "," (Py.strip line)) ∧
  Py.join "," (Py.split "," (Py.strip line)) = Py.strip line.
Proof.
  unfold parse_columns. split; [|split; [|split]].
  - intros Hnil%fmap_nil_inv. by apply split_not_nil in Hnil.
  - intros name (field & -> & Hfield)%list_elem_of_fmap. split.
    + apply strip_idemp.
    + destruct (Py.contains "," (Py.strip field)) eqn:Hc; [|done].
      apply contains_strip in Hc.
      by rewrite (split_no_sep _ _ _ Hfield) in Hc.
  - by rewrite length_fmap.
  - apply join_split.
Qed.

(** X4. The strategy the script passes is always one of the three
    recognised ones: the choices "1", "2" and "3" give suppression,
    generalization and synthetic, and any other line read gives
    generalization. *)
Theorem strategy_of_valid (strategy_choice : string) :
  strategy_of strategy_choice ∈
    ["suppression"; "generalization"; "synthetic"] ∧
  strategy_of "1" = "suppression" ∧
  strategy_of "2" = "generalization" ∧
  strategy_of "3" = "synthetic" ∧
  (strategy_choice ∉ ["1"; "2"; "3"] →
   strategy_of strategy_choice = "generalization").
Proof.
  unfold strategy_of, strategy_mapping. simpl.
  repeat case_decide; subst; simpl.
  all: split; [rewrite !elem_of_cons; tauto|].
  all: do 3 (split; [reflexivity|]).
  all: rewrite !not_elem_of_cons; intros (? & ? & ? & _); congruence.
Qed.

End Lines.

(** ** Loading *)
Section Loading.
Context `{Libs}.

(** the state a successful [load_data] leaves *)
Lemma load_data_ok (filepath : string) (s : state) (f : frame) :
  os_path_exists filepath = true → pd_read_csv filepath = Ok f →
  load_data filepath s =
  (Ok (),
   State (Some (length (heap s))) (Some (S (length (heap s))))
         (heap s ++ [f; f])
         (stdout s ++
          ["Dataset loaded successfully with " +:+ pretty (nrows f) +:+
           " rows and " +:+ pretty (length (cols f)) +:+ " columns."])
         (random s)).
Proof.
  intros Hex Hread. unfold load_data. rewrite Hex. simpl.
  rewrite bind_run. unfold lift_result. rewrite Hread.
  rewrite bind_run. cbn [alloc]. rewrite bind_run. cbn [set_self_df].
  rewrite bind_run, (deref_self_df _ f);
    [|by unfold current; simpl; apply list_lookup_middle].
  rewrite bind_run. cbn [alloc heap]. rewrite bind_run.
  cbn [set_self_original_df self_df self_original_df heap stdout random].
  rewrite bind_run, (deref_self_df _ f);
    [|by unfold current; simpl; rewrite <- app_assoc;
         apply list_lookup_middle].
  unfold print. simpl.
  by rewrite <- app_assoc, length_app, Nat.add_1_r.
Qed.

(** X5. A failing [load_data] changes nothing: it raises
    [FileNotFoundError] when the path does not exist, or the exception of
    [read_csv] when the file cannot be read, and in both cases the object
    keeps its tables and nothing is printed. *)
Theorem load_data_failure (filepath : string) (s s' : state) (e : exn) :
  load_data filepath s = (Raise e, s') →
  s' = s ∧
  ((os_path_exists filepath = false ∧ e = FileNotFoundError) ∨
   (os_path_exists filepath = true ∧ pd_read_csv filepath = Raise e)).
Proof.
  destruct (os_path_exists filepath) eqn:Hex.
  - destruct (pd_read_csv filepath) as [f|e'] eqn:Hread.
    + by rewrite (load_data_ok filepath s f Hex Hread).
    + unfold load_data. rewrite Hex. simpl.
      rewrite bind_run. unfold lift_result. rewrite Hread.
      intros [= <- <-]. split; [done|]. by right.
  - unfold load_data. rewrite Hex. simpl. unfold raise.
    intros [= <- <-]. split; [done|]. by left.
Qed.

(** X6. A successful [load_data] makes [self.df] and [self.original_df]
    refer to two distinct new objects that both hold the table read; the
    objects that existed before are kept as they were, no random number is
    drawn and one line giving the numbers of rows and columns is printed.
    This holds in any state, so loading again replaces the working table
    and the snapshot alike. *)
Theorem load_data_success (filepath : string) (s s' : state) :
  load_data filepath s = (Ok (), s') →
  ∃ f l l',
    pd_read_csv filepath = Ok f ∧
    self_df s' = Some l ∧ self_original_df s' = Some l' ∧ l ≠ l' ∧
    heap s' !! l = Some f ∧ heap s' !! l' = Some f ∧
    (length (heap s) ≤ l)%nat ∧ (length (heap s) ≤ l')%nat ∧
    (∀ j, j < length (heap s) → heap s' !! j = heap s !! j) ∧
    random s' = random s ∧
    stdout s' = stdout s ++
      ["Dataset loaded successfully with " +:+ pretty (nrows f) +:+
       " rows and " +:+ pretty (length (cols f)) +:+ " columns."].
Proof.
  destruct (os_path_exists filepath) eqn:Hex;
    [|unfold load_data; rewrite Hex; simpl; unfold raise; discriminate].
  destruct (pd_read_csv filepath) as [f|e'] eqn:Hread.
  - rewrite (load_data_ok filepath s f Hex Hread). intros [= <-].
    exists f, (length (heap s)), (S (length (heap s))). simpl.
    split; [done|]. split; [done|]. split; [done|]. split; [lia|].
    split; [by apply list_lookup_middle|]. split.
    { rewrite (cons_middle f (heap s) [f]), app_assoc.
      apply list_lookup_middle. rewrite length_app. simpl. lia. }
    split; [lia|]. split; [lia|]. split; [|done].
    intros j Hj. by apply lookup_app_l.
  - unfold load_data. rewrite Hex. simpl.
    rewrite bind_run. unfold lift_result. by rewrite Hread.
Qed.

(** X7. Before any table is loaded the methods fail without effect:
    [apply_differential_privacy] with at least one column, [apply_k_anonymity]
    with a recognised strategy and [get_anonymization_report] raise
    [AttributeError] and leave the object as it is. *)
Theorem not_loaded_raises (s : state) (c : string) (cols : list string)
    (epsilon : num) (k : Z) (strategy : string) :
  self_df s = None → self_original_df s = None →
  strategy ∈ ["suppression"; "generalization"; "synthetic"] →
  apply_differential_privacy (c :: cols) epsilon s = (Raise AttributeError, s) ∧
  apply_k_anonymity cols k strategy s = (Raise AttributeError, s) ∧
  get_anonymization_report s = (Raise AttributeError, s).
Proof.
  intros Hd Ho Hs. split; [|split].
  - unfold apply_differential_privacy. simpl. rewrite bind_run.
    unfold dp_column. rewrite bind_run. unfold deref. by rewrite Hd.
  - unfold apply_k_anonymity. rewrite (bool_decide_eq_true_2 _ Hs). simpl.
    rewrite bind_run. unfold deref. by rewrite Hd.
  - unfold get_anonymization_report, build_report. rewrite !bind_run.
    unfold deref. by rewrite Ho.
Qed.

End Loading.

(** ** More on [apply_differential_privacy] *)
Section MoreNoise.
Context `{Libs}.

Lemma mapM_as_num_Some (col : list value) (xs : list num) :
  mapM as_num col = Some xs → col = VNum <$> xs.
Proof.
  intros Hxs%mapM_Some_1. induction Hxs as [|v x col xs Hv _ IH]; [done|].
  rewrite fmap_cons. f_equal; [|exact IH]. by destruct v; simplify_eq/=.
Qed.

Lemma dp_column_type_error (epsilon : num) (col : string) (s : state)
    (df : frame) (c : list value) :
  current s = Some df → getitem df col = Some c → mapM as_num c = None →
  dp_column epsilon col s = (Raise TypeError, s).
Proof.
  intros Hcur Hcol Hnum. unfold dp_column.
  rewrite bind_run, (deref_self_df s df Hcur).
  assert (has_column df col = true) as ->.
  { apply has_column_true, getitem_is_Some. by rewrite Hcol. }
  unfold column_of. rewrite Hcol, bind_run. cbn [mret M_ret].
  unfold numeric. by rewrite Hnum, bind_run.
Qed.

Lemma dp_column_negative_scale (epsilon : num) (col : string) (s : state)
    (df : frame) (xs : list num) :
  current s = Some df → getitem df col = Some (VNum <$> xs) →
  num_ltz (dp_scale xs epsilon) = true →
  dp_column epsilon col s = (Raise ValueError, s).
Proof.
  intros Hcur Hcol Hscale. unfold dp_column.
  rewrite bind_run, (deref_self_df s df Hcur).
  assert (has_column df col = true) as ->.
  { apply has_column_true, getitem_is_Some. by rewrite Hcol. }
  unfold column_of. rewrite Hcol, bind_run. cbn [mret M_ret].
  unfold numeric. rewrite mapM_as_num, bind_run. cbn [mret M_ret].
  unfold np_random_laplace. fold (dp_scale xs epsilon).
  by rewrite Hscale, bind_run.
Qed.

(** one column, whatever the outcome *)
Lemma dp_column_frame (epsilon : num) (col : string) (s : state)
    (df : frame) :
  current s = Some df → wf_frame df →
  ∃ df', current (dp_column epsilon col s).2 = Some df' ∧ wf_frame df' ∧
         columns df' = columns df ∧ nrows df' = nrows df ∧
         ∀ c, c ≠ col → getitem df' c = getitem df c.
Proof.
  intros Hcur Hwf.
  destruct (getitem df col) as [c|] eqn:Hcol.
  - destruct (mapM as_num c) as [xs|] eqn:Hnum.
    + apply mapM_as_num_Some in Hnum as ->.
      destruct (num_ltz (dp_scale xs epsilon)) eqn:Hscale.
      * rewrite (dp_column_negative_scale epsilon col s df xs) by done.
        by exists df.
      * destruct (dp_column_present epsilon col s df xs)
          as (noise & r' & s' & df' & _ & Hlen & -> & _ & _ & _ & _ &
              Hcur' & Hn & Hc & Hnew & Hother); try done.
        exists df'. split; [done|]. split; [|done].
        apply wf_frame_intro; [rewrite Hc; apply Hwf|].
        intros c colv. destruct (decide (c = col)) as [->|Hne].
        -- rewrite Hnew. intros [= <-].
           rewrite !length_fmap, length_zip_with, Hlen, Hn.
           pose proof (getitem_length df col _ Hwf Hcol) as Hxs.
           rewrite length_fmap in Hxs. lia.
        -- rewrite Hother, Hn by done. by apply getitem_length.
    + rewrite (dp_column_type_error epsilon col s df c) by done.
      by exists df.
  - rewrite (dp_column_absent epsilon col s df); [by exists df | done |].
    rewrite <- getitem_is_Some, Hcol. by intros [? ?].
Qed.


(** X9. Whatever the outcome of [apply_differential_privacy] on a
    well-formed table, the table keeps its columns, their order, its number
    of rows and every column that was not requested; it stays
    well-formed. *)
Theorem dp_keeps_shape (s : state) (df : frame) (cols : list string)
    (epsilon : num) :
  current s = Some df → wf_frame df →
  ∃ df',
    current (apply_differential_privacy cols epsilon s).2 = Some df' ∧
    wf_frame df' ∧ columns df' = columns df ∧ nrows df' = nrows df ∧
    ∀ c, c ∉ cols → getitem df' c = getitem df c.
Proof.
  intros Hcur Hwf. unfold apply_differential_privacy.
  apply (for_each_preserves
    (λ t, ∃ df', current t = Some df' ∧ wf_frame df' ∧
                 columns df' = columns df ∧ nrows df' = nrows df ∧
                 ∀ c, c ∉ cols → getitem df' c = getitem df c)).
  - intros x t Hx (df1 & Hcur1 & Hwf1 & Hc1 & Hn1 & Hother1).
    destruct (dp_column_frame epsilon x t df1 Hcur1 Hwf1)
      as (df2 & Hcur2 & Hwf2 & Hc2 & Hn2 & Hother2).
    exists df2. split; [done|]. split; [done|].
    split; [congruence|]. split; [congruence|].
    intros c Hc. rewrite Hother2, Hother1; [done | done |].
    intros ->. done.
  - exists df. done.
Qed.

(** X10. When none of the requested columns is in the table,
    [apply_differential_privacy] returns normally, prints one warning per
    requested column, in order, and changes nothing else. *)
Theorem dp_all_missing (s : state) (df : frame) (cols : list string)
    (epsilon : num) :
  current s = Some df → (∀ c, c ∈ cols → c ∉ columns df) →
  apply_differential_privacy cols epsilon s =
  (Ok (),
   State (self_df s) (self_original_df s) (heap s)
         (stdout s ++
          ((λ c, "Warning: Column '" +:+ c +:+ "' not found in dataset.")
             <$> cols))
         (random s)).
Proof.
  unfold apply_differential_privacy. revert s.
  induction cols as [|c cols IH]; intros s Hcur Hcols; simpl.
  - rewrite app_nil_r. by destruct s.
  - rewrite bind_run, (dp_column_absent epsilon c s df Hcur);
      [|apply Hcols; left].
    rewrite IH; [|done|intros c' Hc'; apply Hcols; by right].
    unfold logged. simpl. by rewrite <- app_assoc.
Qed.

(** X11. One call of [apply_differential_privacy] on a list of columns is
    the same as successive calls on the pieces of the list, each made if
    the one before returned: in particular a column listed twice is
    perturbed twice, the second time from its perturbed values. *)
Theorem dp_sequential (s : state) (cols1 cols2 : list string)
    (epsilon : num) :
  apply_differential_privacy (cols1 ++ cols2) epsilon s =
  (apply_differential_privacy cols1 epsilon;;
   apply_differential_privacy cols2 epsilon) s.
Proof.
  unfold apply_differential_privacy. rewrite for_each_app, bind_run.
  by destruct (for_each cols1 _ s) as [[[]|e] s1].
Qed.

End MoreNoise.

(** ** More on [apply_k_anonymity] *)
Section MoreRewriting.
Context `{Libs}.

(** what a grouper that raises has met *)
Lemma groupby_raise (f : frame) (cols : list string) (dropna : bool)
    (e : exn) :
  groupby f cols dropna = Raise e →
  (cols = [] ∧ e = ValueError) ∨
  (e = KeyError ∧ ∃ c, c ∈ cols ∧ c ∉ columns f) ∨
  (e = ValueError ∧ groups_rejects_nan = true ∧ dropna = false ∧
   ∃ c col, cols = [c] ∧ getitem f c = Some col ∧ existsb isna col = true).
Proof.
  unfold groupby. destruct cols as [|c cols]; [intros [= <-]; by left|].
  destruct (mapM _ _) as [ks|] eqn:Hks.
  - destruct (_ && _ && _ && _) eqn:Hrej; [|done]. intros [= <-].
    right; right.
    apply andb_true_iff in Hrej as [Hrej Hnan].
    apply andb_true_iff in Hrej as [Hrej Hone%bool_decide_eq_true_1].
    apply andb_true_iff in Hrej as [Hflag Hdrop%negb_true_iff].
    split; [done|]. split; [done|]. split; [done|].
    apply mapM_Some_1 in Hks.
    pose proof (Forall2_length _ _ _ Hks) as Hlen. rewrite Hone in Hlen.
    destruct cols as [|c' cols]; [|done].
    destruct ks as [|col [|col' ks]]; try done.
    exists c, col. split; [done|]. split.
    + by apply Forall2_cons_1 in Hks as [Hc _].
    + simpl in Hnan. by rewrite orb_false_r in Hnan.
  - intros [= <-]. right; left.
    split; [done|].
    apply mapM_None_1, Exists_exists in Hks as (x & Hx & Hnone).
    exists x. split; [done|].
    rewrite <- getitem_is_Some, Hnone. by intros [? ?].
Qed.

(** a key column that holds no missing value before the rewriting holds
    none after it, so the grouper of a second call returns as well *)
Lemma groupby_after_rewrite (strategy : string) (D : nat → string → Prop)
    (df df1 : frame) (cols : list string) (groups : list group) :
  wf_frame df → cells_rewritten strategy D df df1 →
  groupby df cols false = Ok groups →
  ∃ groups1, groupby df1 cols false = Ok groups1.
Proof.
  intros Hwf Hcells Hgroups.
  destruct (groupby df1 cols false) as [groups1|e] eqn:Hgroups1; [eauto|].
  exfalso.
  destruct (groupby_columns _ _ _ Hgroups) as [Hne Hcols].
  pose proof Hcells as (Hn & Hc & Hl & Hcell).
  apply groupby_raise in Hgroups1
    as [[? _]|[(_ & c & Hin & Hnot)|(_ & Hflag & _ & c & col1 & -> & Hcol1 & Hnan)]].
  - done.
  - apply Hnot. rewrite Hc. by apply Hcols.
  - destruct (proj2 (getitem_is_Some df c)) as [col Hcol].
    { apply Hcols. left. }
    apply existsb_exists in Hnan as (v1 & Hv1%list_elem_of_In & Hna).
    apply list_elem_of_lookup in Hv1 as [i Hi].
    assert (length col = length col1) as Hlen.
    { rewrite (Hl c col1 Hcol1). by eapply getitem_length. }
    destruct (lookup_lt_is_Some_2 col i) as [old Hold].
    { rewrite Hlen. by eapply lookup_lt_Some. }
    destruct (Hcell c i old) as (new & Hnew & Hcase).
    { unfold cell. by rewrite Hcol. }
    unfold cell in Hnew. rewrite Hcol1 in Hnew. simpl in Hnew.
    assert (new = v1) as -> by congruence.
    destruct Hcase as [[_ ->]|[_ Hr]].
    + apply groupby_Ok in Hgroups as (_ & ks & Hks & _ & Hrej).
      simpl in Hks. rewrite Hcol in Hks. simpl in Hks.
      injection Hks as <-. rewrite Hflag in Hrej. simpl in Hrej.
      rewrite orb_false_r in Hrej.
      assert (existsb isna col = true) as Hex; [|congruence].
      apply existsb_exists. exists old. split; [|done].
      apply list_elem_of_In. by eapply list_elem_of_lookup_2.
    + apply rewritten_is_str in Hr. by destruct v1.
Qed.

Lemma class_length_le (f : frame) (cols : list string)
    (groups : list group) (g : group) :
  groupby f cols false = Ok groups → g ∈ groups →
  (length g.2 ≤ nrows f)%nat.
Proof.
  intros [Hp _]%groupby_rows Hg.
  assert (∀ (ls : list (list nat)) l,
            l ∈ ls → (length l ≤ length (mjoin ls))%nat)
    as Hle.
  { induction ls as [|l0 ls IH]; intros l; [by intros ?%elem_of_nil|].
    simpl. rewrite length_app. intros [->|Hin]%elem_of_cons; [lia|].
    specialize (IH l Hin). lia. }
  assert (length (mjoin groups.*2) = nrows f) as <-.
  { by rewrite Hp, length_seq. }
  apply Hle. apply list_elem_of_fmap. eauto.
Qed.

(** columns that all take strings can be rewritten *)
Lemma writable_takes (df : frame) (cols : list string) (small : list group) :
  (∀ c, c ∈ cols → takes_strings df c = true) →
  writable df cols small = true.
Proof.
  intros Htakes. destruct small; [done|]. simpl.
  apply forallb_forall. intros c Hc%list_elem_of_In. by apply Htakes.
Qed.

(** with [k <= 1] there is no class to rewrite *)
Lemma small_groups_nil (f : frame) (cols : list string) (k : Z)
    (groups : list group) :
  groupby f cols false = Ok groups → (k ≤ 1)%Z → small_groups k groups = [].
Proof.
  intros Hgroups Hk.
  destruct (small_groups k groups) as [|g rest] eqn:Hsg; [done|]. exfalso.
  assert (g ∈ small_groups k groups) as Hg by (rewrite Hsg; left).
  apply list_elem_of_filter in Hg as [Hsmall Hg].
  pose proof (groupby_class_nonempty _ _ _ _ _ Hgroups Hg) as Hne.
  unfold Py.len_list in Hsmall. destruct (g.2); simpl in *; [done | lia].
Qed.

(** X12. How [apply_k_anonymity] fails on a well-formed table. An
    unrecognised strategy ([ValueError]) and a failure of the grouper
    (with the grouper's exception) come before the loops and change
    nothing. A failure in the loops is the [TypeError] of the first
    assignment of strings to a column that does not take them: it
    happens in the first class smaller than [k], at the first such
    column, and it leaves the cells of that class in the columns before
    it rewritten, so that this failure is not atomic. *)
Theorem k_anonymity_failures (s s' : state) (df : frame)
    (cols : list string) (k : Z) (strategy : string) (e : exn) :
  current s = Some df → wf_frame df →
  apply_k_anonymity cols k strategy s = (Raise e, s') →
  ((strategy ∉ ["suppression"; "generalization"; "synthetic"]) ∧
   e = ValueError ∧ s' = s) ∨
  (strategy ∈ ["suppression"; "generalization"; "synthetic"] ∧
   groupby df cols false = Raise e ∧ s' = s) ∨
  (strategy ∈ ["suppression"; "generalization"; "synthetic"] ∧
   e = TypeError ∧
   ∃ groups g0 rest pre c0 post df',
     groupby df cols false = Ok groups ∧
     small_groups k groups = g0 :: rest ∧
     cols = pre ++ c0 :: post ∧
     (∀ c, c ∈ pre → takes_strings df c = true) ∧
     takes_strings df c0 = false ∧
     current s' = Some df' ∧
     (∀ c, c ∉ pre → getitem df' c = getitem df c) ∧
     (∀ c i, i ∉ g0.2 → cell df' c i = cell df c i) ∧
     ∀ c i, c ∈ pre → i ∈ g0.2 →
       ∃ old new, cell df c i = Some old ∧ cell df' c i = Some new ∧
                  rewritten strategy c old new).
Proof.
  intros Hcur Hwf Hrun.
  destruct (decide (strategy ∈ ["suppression"; "generalization"; "synthetic"]))
    as [Hs|Hs].
  - right. destruct (groupby df cols false) as [groups|e0] eqn:Hgroups.
    + right. split; [done|].
      destruct (writable df cols (small_groups k groups)) eqn:Hw.
      * destruct (apply_k_anonymity_run s df cols k strategy groups)
          as (s1 & df1 & Hrun1 & _); try done. congruence.
      * destruct (apply_k_anonymity_refused s df cols k strategy groups)
          as (s1 & df1 & g0 & rest & pre & c0 & post & Hsg & Hsplit & Hpre &
              Hc0 & Hrun1 & Hcur1 & Hcells); try done.
        rewrite Hrun1 in Hrun. injection Hrun as <- <-. split; [done|].
        exists groups, g0, rest, pre, c0, post, df1.
        repeat (split; [done|]).
        destruct (groupby_columns _ _ _ Hgroups) as [_ Hcols].
        pose proof (small_groups_classes df cols k groups Hgroups) as Hsmall.
        rewrite Hsg in Hsmall. apply Forall_cons in Hsmall as [(_ & _ & Hlt) _].
        split; [|split].
        -- intros c Hc. eapply cells_rewritten_column; [done | exact Hcells |].
           by intros i [? _].
        -- intros c i Hi. eapply cells_rewritten_outside;
             [done | exact Hcells |]. by intros [_ ?].
        -- intros c i Hc Hi.
           eapply (written_cell df df1 strategy _ i c); [done | exact Hcells | |done].
           intros i' c' [Hc' Hi']. split; [|by apply Hlt].
           apply Hcols. subst cols. apply elem_of_app. by left.
    + left. split; [done|].
      rewrite (apply_k_anonymity_no_classes s df cols k strategy e0) in Hrun
        by done.
      by injection Hrun as <- <-.
  - left. unfold apply_k_anonymity in Hrun.
    rewrite (bool_decide_eq_false_2 _ Hs) in Hrun. simpl in Hrun.
    unfold raise in Hrun. by injection Hrun as <- <-.
Qed.

(** X24. Missing values in a single grouping column. Where the grouper
    rejects a missing key (the releases of pandas before 3.0), a call of
    [apply_k_anonymity] on one grouping column that holds a missing value
    raises [ValueError] from the grouper, whatever [k] and the recognised
    strategy, and changes nothing. *)
Theorem k_anonymity_missing_key (s : state) (df : frame) (c : string)
    (col : list value) (k : Z) (strategy : string) :
  current s = Some df →
  strategy ∈ ["suppression"; "generalization"; "synthetic"] →
  getitem df c = Some col → existsb isna col = true →
  groups_rejects_nan = true →
  groupby df [c] false = Raise ValueError ∧
  apply_k_anonymity [c] k strategy s = (Raise ValueError, s).
Proof.
  intros Hcur Hs Hcol Hnan Hflag.
  assert (groupby df [c] false = Raise ValueError) as Hgroups.
  { unfold groupby. simpl. rewrite Hcol. simpl.
    by rewrite Hflag, Hnan. }
  split; [done|]. by apply apply_k_anonymity_no_classes with df.
Qed.

(** X13. With [k <= 1] no class is small: [apply_k_anonymity] returns
    and every column of the table is as it was. *)
Theorem k_at_most_one_keeps_table (s : state) (df : frame)
    (cols : list string) (k : Z) (strategy : string) (groups : list group) :
  current s = Some df → wf_frame df →
  strategy ∈ ["suppression"; "generalization"; "synthetic"] →
  groupby df cols false = Ok groups →
  (k ≤ 1)%Z →
  ∃ s' df',
    apply_k_anonymity cols k strategy s = (Ok (), s') ∧
    current s' = Some df' ∧
    columns df' = columns df ∧ nrows df' = nrows df ∧
    ∀ c, getitem df' c = getitem df c.
Proof.
  intros Hcur Hwf Hs Hgroups Hk.
  pose proof (small_groups_nil df cols k groups Hgroups Hk) as Hnil.
  destruct (apply_k_anonymity_run s df cols k strategy groups)
    as (s' & df' & Hrun & Hcur' & Hcells); try done.
  { by rewrite Hnil. }
  exists s', df'. split; [done|]. split; [done|].
  split; [apply Hcells|]. split; [apply Hcells|].
  intros c. eapply cells_rewritten_column; [done | exact Hcells |].
  intros i (_ & g & Hg & _). rewrite Hnil in Hg. by apply elem_of_nil in Hg.
Qed.

(** X14. Whatever its outcome, [apply_k_anonymity] keeps every column
    that is not one of the grouping columns, whole, and leaves a
    well-formed table with the same columns and the same number of
    rows. *)
Theorem k_anonymity_keeps_other_columns (s : state) (df : frame)
    (cols : list string) (k : Z) (strategy : string) :
  current s = Some df → wf_frame df →
  ∃ df', current (apply_k_anonymity cols k strategy s).2 = Some df' ∧
         wf_frame df' ∧
         columns df' = columns df ∧ nrows df' = nrows df ∧
         ∀ c, c ∉ cols → getitem df' c = getitem df c.
Proof.
  intros Hcur Hwf.
  destruct (decide (strategy ∈ ["suppression"; "generalization"; "synthetic"]))
    as [Hs|Hs].
  - destruct (groupby df cols false) as [groups|e0] eqn:Hgroups.
    + destruct (apply_k_anonymity_cells s df cols k strategy groups)
        as (s' & df' & D & -> & Hcur' & Hcells & HD & _); try done.
      exists df'. split; [done|].
      split; [by eapply cells_rewritten_wf|].
      split; [apply Hcells|]. split; [apply Hcells|].
      intros c Hc. eapply cells_rewritten_column; [done | exact Hcells |].
      intros i [? _]%HD. done.
    + rewrite (apply_k_anonymity_no_classes s df cols k strategy e0)
        by done.
      by exists df.
  - unfold apply_k_anonymity. rewrite (bool_decide_eq_false_2 _ Hs).
    by exists df.
Qed.

(** X15. When [k] exceeds the number of rows every class is small: on
    grouping columns that take strings [apply_k_anonymity] returns and has
    rewritten the cell of every row in every grouping column. *)
Theorem k_above_rows_rewrites_all (s : state) (df : frame)
    (cols : list string) (k : Z) (strategy : string) (groups : list group) :
  current s = Some df → wf_frame df →
  strategy ∈ ["suppression"; "generalization"; "synthetic"] →
  groupby df cols false = Ok groups →
  (∀ c, c ∈ cols → takes_strings df c = true) →
  (Z.of_nat (nrows df) < k)%Z →
  ∃ s' df',
    apply_k_anonymity cols k strategy s = (Ok (), s') ∧
    current s' = Some df' ∧
    ∀ i c, i < nrows df → c ∈ cols →
      ∃ old new, cell df c i = Some old ∧ cell df' c i = Some new ∧
                 rewritten strategy c old new.
Proof.
  intros Hcur Hwf Hs Hgroups Htakes Hk.
  destruct (apply_k_anonymity_run s df cols k strategy groups)
    as (s' & df' & Hrun & Hcur' & Hcells); try done.
  { by apply writable_takes. }
  exists s', df'. split; [done|]. split; [done|].
  intros i c Hi Hc.
  destruct (groupby_rows _ _ _ Hgroups) as [Hp _].
  assert (i ∈ mjoin groups.*2) as Hin by (rewrite Hp, elem_of_seq; lia).
  apply list_elem_of_join in Hin as (l & Hil & Hl).
  apply list_elem_of_fmap in Hl as (g & -> & Hg).
  eapply (small_class_rewritten df df' cols k strategy groups _ g i c);
    [done | done | exact Hcells | by auto | done | done | | done].
  pose proof (class_length_le df cols groups g Hgroups Hg).
  unfold Py.len_list. lia.
Qed.

Lemma modify_df_quiet (g : frame → result frame) (t : state) :
  self_df (modify_df g t).2 = self_df t ∧
  self_original_df (modify_df g t).2 = self_original_df t ∧
  stdout (modify_df g t).2 = stdout t ∧
  random (modify_df g t).2 = random t.
Proof.
  unfold modify_df, deref, update_df, raise. rewrite bind_run.
  destruct (self_df t) as [l|] eqn:Hd; simpl; [|done].
  destruct (heap t !! l) as [df|]; simpl; [|done].
  destruct (g df); simpl; [|done]. by rewrite Hd.
Qed.

Lemma rewrite_group_quiet (strategy : string) (indices : list nat)
    (col : string) (t : state) :
  self_df (rewrite_group strategy indices col t).2 = self_df t ∧
  self_original_df (rewrite_group strategy indices col t).2
    = self_original_df t ∧
  stdout (rewrite_group strategy indices col t).2 = stdout t ∧
  (strategy ≠ "synthetic" →
   random (rewrite_group strategy indices col t).2 = random t).
Proof.
  unfold rewrite_group, column_of.
  repeat case_bool_decide; subst; rewrite ?bind_run.
  - unfold deref. destruct (self_df t ≫= _) as [df|]; [|simpl; auto].
    rewrite bind_run. destruct (getitem df col) as [c|]; simpl; [|auto].
    destruct (modify_df_quiet
                (loc_assign_series indices col (suppress <$> c)) t)
      as (? & ? & ? & ?). auto.
  - unfold deref. destruct (self_df t ≫= _) as [df|]; [|simpl; auto].
    rewrite bind_run. destruct (getitem df col) as [c|]; simpl; [|auto].
    destruct (modify_df_quiet
                (loc_assign_series indices col (generalize <$> c)) t)
      as (? & ? & ? & ?). auto.
  - unfold sample. destruct (draw _ _ _) as [values r].
    set (t1 := State _ _ _ _ r).
    destruct (modify_df_quiet
                (loc_assign_list indices col (VStr <$> values)) t1)
      as (Hd & Ho & Hout & _).
    split; [exact Hd|]. split; [exact Ho|]. split; [exact Hout|]. done.
  - simpl. auto.
Qed.

(** the loops leave the references and the printed text alone, and draw
    no random number unless the strategy is the synthetic one *)
Lemma rewrite_loops_quiet (strategy : string) (qi : list string)
    (small : list group) (s : state) :
  let t := (for_each small
              (λ g, for_each qi (rewrite_group strategy g.2)) s).2 in
  self_df t = self_df s ∧ self_original_df t = self_original_df s ∧
  stdout t = stdout s ∧
  (strategy ≠ "synthetic" → random t = random s).
Proof.
  apply (for_each_preserves
    (λ t, self_df t = self_df s ∧ self_original_df t = self_original_df s ∧
          stdout t = stdout s ∧
          (strategy ≠ "synthetic" → random t = random s))); [|done].
  intros g u _ Hu.
  apply (for_each_preserves
    (λ t, self_df t = self_df s ∧ self_original_df t = self_original_df s ∧
          stdout t = stdout s ∧
          (strategy ≠ "synthetic" → random t = random s))); [|done].
  intros c w _ (Hd & Ho & Hout & Hr).
  destruct (rewrite_group_quiet strategy g.2 c w) as (Hd' & Ho' & Hout' & Hr').
  split; [congruence|]. split; [congruence|]. split; [congruence|].
  intros Hne. rewrite Hr', Hr; done.
Qed.

(** X16. What [apply_k_anonymity] leaves of the state besides the table,
    whatever its outcome: the two references are never rebound, the
    suppression and generalization strategies draw no random number, and
    one line is printed, after the rewriting, exactly when the call
    returns; a call that raises prints nothing. *)
Theorem k_anonymity_output (s : state) (cols : list string) (k : Z)
    (strategy : string) :
  let r := apply_k_anonymity cols k strategy s in
  self_df r.2 = self_df s ∧ self_original_df r.2 = self_original_df s ∧
  (strategy ≠ "synthetic" → random r.2 = random s) ∧
  (r.1 = Ok () →
   stdout r.2 = stdout s ++
     ["K-Anonymity (" +:+ strategy +:+ ") applied with k=" +:+
      pretty k +:+ "."]) ∧
  (∀ e, r.1 = Raise e → stdout r.2 = stdout s).
Proof.
  unfold apply_k_anonymity.
  destruct (negb _); [by simpl|].
  rewrite bind_run. unfold deref.
  destruct (self_df s ≫= _) as [df|]; [|by simpl].
  rewrite bind_run. unfold lift_result.
  destruct (groupby df cols false) as [groups|e0]; [|by simpl].
  rewrite bind_run.
  pose proof (rewrite_loops_quiet strategy cols (small_groups k groups) s)
    as (Hd & Ho & Hout & Hr).
  destruct (for_each (small_groups k groups) _ s) as [[[]|e] t];
    simpl in *.
  - rewrite Hout. by repeat split.
  - by repeat split.
Qed.

End MoreRewriting.

(** ** Classes and keys

    The hash tables of pandas compare scalars by an equivalence (NaN is
    equal to NaN there); under that assumption on [num_eqb] the classes of
    the grouper are the classes of rows with equal key tuples. *)
Section Keys.
Context `{Libs}.
Hypothesis num_eqb_refl : ∀ x, num_eqb x x = true.
Hypothesis num_eqb_sym : ∀ x y, num_eqb x y = true → num_eqb y x = true.
Hypothesis num_eqb_trans :
  ∀ x y z, num_eqb x y = true → num_eqb y z = true → num_eqb x z = true.

Lemma value_eqb_refl (v : value) : value_eqb v v = true.
Proof. destruct v; simpl; auto using bool_decide_eq_true_2. Qed.

Lemma value_eqb_sym (v w : value) : value_eqb v w = true → value_eqb w v = true.
Proof.
  destruct v, w; simpl; try done; auto.
  - intros ->%bool_decide_eq_true_1. by apply bool_decide_eq_true_2.
  - intros ->%bool_decide_eq_true_1. by apply bool_decide_eq_true_2.
Qed.

Lemma value_eqb_trans (u v w : value) :
  value_eqb u v = true → value_eqb v w = true → value_eqb u w = true.
Proof.
  destruct u, v, w; simpl; try done; eauto.
  - by intros ->%bool_decide_eq_true_1.
  - by intros ->%bool_decide_eq_true_1.
Qed.

Lemma key_eqb_Forall2 (k1 k2 : key) :
  key_eqb k1 k2 = true ↔ Forall2 (λ v w, value_eqb v w = true) k1 k2.
Proof.
  unfold key_eqb. rewrite andb_true_iff, bool_decide_eq_true. split.
  - intros [Hlen Hall]. revert k2 Hlen Hall.
    induction k1 as [|v k1 IH]; intros [|w k2] Hlen Hall; simplify_eq/=;
      [constructor|].
    apply andb_true_iff in Hall as [Hv Hall]. constructor; auto.
  - induction 1 as [|v w k1 k2 Hv _ [Hlen Hall]]; [done|]. simpl.
    split; [by f_equal|]. by rewrite Hv, Hall.
Qed.

Lemma key_eqb_refl (k : key) : key_eqb k k = true.
Proof.
  apply key_eqb_Forall2. induction k; constructor; auto using value_eqb_refl.
Qed.

Lemma key_eqb_sym (k1 k2 : key) : key_eqb k1 k2 = true → key_eqb k2 k1 = true.
Proof.
  rewrite !key_eqb_Forall2. induction 1; constructor;
    auto using value_eqb_sym.
Qed.

Lemma key_eqb_trans (k1 k2 k3 : key) :
  key_eqb k1 k2 = true → key_eqb k2 k3 = true → key_eqb k1 k3 = true.
Proof.
  rewrite !key_eqb_Forall2. intros H12. revert k3.
  induction H12 as [|u v k1 k2 Huv _ IH]; intros k3 H23;
    inversion H23; subst; constructor; eauto using value_eqb_trans.
Qed.

(** the keys of the classes after one more row *)
Lemma add_to_group_keys (k : key) (i : nat) (gs : list group) :
  (add_to_group k i gs).*1 = gs.*1 ∨
  ((add_to_group k i gs).*1 = gs.*1 ++ [k] ∧
   Forall (λ k', key_eqb k' k = false) gs.*1).
Proof.
  induction gs as [|[k' idx] gs IH]; cbn [add_to_group].
  - right. split; [done | constructor].
  - destruct (key_eqb k' k) eqn:Hk; rewrite !fmap_cons; [by left|].
    destruct IH as [->|[-> Hall]]; [by left|]. right. split; [done|].
    by constructor.
Qed.

Lemma add_to_group_members (keyof : nat → key) (i : nat) (gs : list group) :
  Forall (λ g, Forall (λ j, key_eqb g.1 (keyof j) = true) g.2) gs →
  Forall (λ g, Forall (λ j, key_eqb g.1 (keyof j) = true) g.2)
         (add_to_group (keyof i) i gs).
Proof.
  induction 1 as [|[k' idx] gs Hg Hgs IH]; simpl.
  - repeat constructor. apply key_eqb_refl.
  - destruct (key_eqb k' (keyof i)) eqn:Hk; constructor; simpl in *; auto.
    apply Forall_app. split; [done|]. by repeat constructor.
Qed.

Lemma classify_keys (ks : list (list value)) (n : nat) :
  Forall (λ g, Forall (λ j, key_eqb g.1 (row_key ks j) = true) g.2)
         (classify false ks n) ∧
  ∀ p q k1 k2,
    (classify false ks n).*1 !! p = Some k1 →
    (classify false ks n).*1 !! q = Some k2 →
    key_eqb k1 k2 = true → p = q.
Proof.
  unfold classify. induction n as [|n [IHm IHk]]; [by split; [constructor|]|].
  rewrite seq_S, foldl_app. simpl.
  set (gs := foldl _ [] (seq 0 n)) in *.
  split; [by apply (add_to_group_members (row_key ks))|].
  destruct (add_to_group_keys (row_key ks n) n gs) as [->|[-> Hnew]]; [done|].
  rewrite Forall_forall in Hnew.
  intros p q k1 k2 Hp Hq Heq.
  apply lookup_app_Some in Hp as [Hp|[Hpl Hp]];
    apply lookup_app_Some in Hq as [Hq|[Hql Hq]].
  - by eapply IHk.
  - apply list_lookup_singleton_Some in Hq as [_ <-].
    rewrite (Hnew k1) in Heq; [done | by eapply list_elem_of_lookup_2].
  - apply list_lookup_singleton_Some in Hp as [_ <-].
    apply key_eqb_sym in Heq.
    rewrite (Hnew k2) in Heq; [done | by eapply list_elem_of_lookup_2].
  - apply list_lookup_singleton_Some in Hp as [Hp _].
    apply list_lookup_singleton_Some in Hq as [Hq _]. lia.
Qed.

(** the key of a class is equal to the key of each of its rows *)
Lemma groupby_class_key (f : frame) (cols : list string)
    (ks : list (list value)) (groups : list group) (g : group) (i : nat) :
  mapM (getitem f) cols = Some ks → groupby f cols false = Ok groups →
  g ∈ groups → i ∈ g.2 → key_eqb g.1 (row_key ks i) = true.
Proof.
  intros Hks (_ & ks' & Hks' & -> & _)%groupby_Ok Hg Hi.
  assert (ks' = ks) as -> by congruence.
  destruct (classify_keys ks (nrows f)) as [Hm _].
  rewrite <- (groups_order_perm _) in Hm.
  rewrite Forall_forall in Hm. specialize (Hm g Hg).
  rewrite Forall_forall in Hm. by apply Hm.
Qed.

(** classes with equal keys are one class *)
Lemma groupby_key_class (f : frame) (cols : list string)
    (groups : list group) (g1 g2 : group) :
  groupby f cols false = Ok groups →
  g1 ∈ groups → g2 ∈ groups → key_eqb g1.1 g2.1 = true → g1 = g2.
Proof.
  intros (_ & ks & _ & -> & _)%groupby_Ok.
  rewrite !(groups_order_perm _).
  intros [p Hp]%list_elem_of_lookup [q Hq]%list_elem_of_lookup Heq.
  destruct (classify_keys ks (nrows f)) as [_ Hk].
  assert (p = q) as ->; [|congruence].
  eapply (Hk p q g1.1 g2.1); [| |done].
  - by apply (list_lookup_fmap_Some_2 fst).
  - by apply (list_lookup_fmap_Some_2 fst).
Qed.

(** X17. The classes of the grouper are the classes of rows with equal
    keys: two rows are in the same class exactly when their tuples of
    values over the grouping columns are equal, and the key of a class is
    equal to the tuple of each of its rows. *)
Theorem groupby_classes_by_key (f : frame) (cols : list string)
    (ks : list (list value)) (groups : list group) :
  mapM (getitem f) cols = Some ks →
  groupby f cols false = Ok groups →
  ∀ g1 g2 i j, g1 ∈ groups → g2 ∈ groups → i ∈ g1.2 → j ∈ g2.2 →
    key_eqb g1.1 (row_key ks i) = true ∧
    (g1 = g2 ↔ key_eqb (row_key ks i) (row_key ks j) = true).
Proof.
  intros Hks Hgroups g1 g2 i j Hg1 Hg2 Hi Hj.
  pose proof (groupby_class_key f cols ks groups g1 i Hks Hgroups Hg1 Hi) as H1.
  pose proof (groupby_class_key f cols ks groups g2 j Hks Hgroups Hg2 Hj) as H2.
  split; [done|]. split.
  - intros <-. eapply key_eqb_trans; [apply key_eqb_sym; exact H1 | exact H2].
  - intros Hij. eapply groupby_key_class; try done.
    eapply key_eqb_trans; [exact H1|].
    eapply key_eqb_trans; [exact Hij|]. by apply key_eqb_sym.
Qed.

End Keys.

(** ** A second pass of a string strategy *)
Section SecondPass.
Context `{Libs}.
Hypothesis num_eqb_refl : ∀ x, num_eqb x x = true.
Hypothesis num_eqb_sym : ∀ x y, num_eqb x y = true → num_eqb y x = true.
Hypothesis num_eqb_trans :
  ∀ x y z, num_eqb x y = true → num_eqb y z = true → num_eqb x z = true.

Lemma groupby_mapM (f : frame) (cols : list string) (dropna : bool)
    (groups : list group) :
  groupby f cols dropna = Ok groups →
  ∃ ks, mapM (getitem f) cols = Some ks.
Proof.
  intros (_ & ks & Hks & _)%groupby_Ok. eauto.
Qed.

(** the key of a row is made of its cells in the grouping columns *)
Lemma row_key_cells (f : frame) (cols : list string)
    (ks : list (list value)) (i : nat) :
  mapM (getitem f) cols = Some ks →
  row_key ks i = omap (λ c, cell f c i) cols.
Proof.
  intros Hks%mapM_Some_1. unfold row_key.
  induction Hks as [|c col cols ks Hc _ IH]; [done|].
  cbn [omap list_omap]. unfold cell at 1. rewrite Hc. simpl.
  fold (omap (.!! i) ks). fold (omap (λ c, cell f c i) cols).
  by rewrite IH.
Qed.

Lemma row_key_same_cells (f f' : frame) (cols : list string)
    (ks ks' : list (list value)) (i : nat) :
  mapM (getitem f) cols = Some ks → mapM (getitem f') cols = Some ks' →
  (∀ c, cell f' c i = cell f c i) →
  row_key ks' i = row_key ks i.
Proof.
  intros Hks Hks' Hcells.
  rewrite (row_key_cells f cols ks i Hks), (row_key_cells f' cols ks' i Hks').
  clear Hks Hks'. induction cols as [|c cols IH]; [done|].
  cbn [omap list_omap]. rewrite Hcells.
  fold (omap (λ c, cell f c i) cols). fold (omap (λ c, cell f' c i) cols).
  by rewrite IH.
Qed.

Lemma cells_rewritten_None (strategy : string) (D : nat → string → Prop)
    (df df' : frame) (c : string) (i : nat) :
  wf_frame df → cells_rewritten strategy D df df' →
  cell df c i = None → cell df' c i = None.
Proof.
  intros Hwf (Hn & Hc & Hl & _) Hold. unfold cell in *.
  destruct (getitem df c) as [col|] eqn:Hcol.
  - simpl in Hold. apply lookup_ge_None in Hold.
    rewrite (getitem_length df c col) in Hold by done.
    destruct (getitem df' c) as [col'|] eqn:Hcol'; [|done]. simpl.
    apply lookup_ge_None. by rewrite (Hl c col' Hcol').
  - assert (getitem df' c = None) as ->; [|done].
    apply eq_None_not_Some. rewrite getitem_is_Some, Hc.
    rewrite <- getitem_is_Some, Hcol. by intros [? ?].
Qed.

Lemma columns_of_cells (strategy : string) (D : nat → string → Prop)
    (df df' : frame) :
  cells_rewritten strategy D df df' →
  (∀ c i, cell df' c i = cell df c i) →
  ∀ c, getitem df' c = getitem df c.
Proof.
  intros (Hn & Hc & Hl & _) Heq c. specialize (Heq c). unfold cell in Heq.
  destruct (getitem df c) as [col|] eqn:Hcol.
  - destruct (getitem df' c) as [col'|] eqn:Hcol'.
    + f_equal. apply list_eq. intros i. apply (Heq i).
    + exfalso. apply eq_None_not_Some in Hcol'. apply Hcol'.
      rewrite getitem_is_Some, Hc, <- getitem_is_Some. by rewrite Hcol.
  - apply eq_None_not_Some. rewrite getitem_is_Some, Hc.
    rewrite <- getitem_is_Some, Hcol. by intros [? ?].
Qed.

(** a string strategy applied to what it has written gives it again *)
Lemma rewritten_again (strategy c : string) (old cur new : value) :
  strategy = "suppression" ∨ strategy = "generalization" →
  rewritten strategy c old cur → rewritten strategy c cur new → new = cur.
Proof.
  intros Hs [[Hs1 ->]|[[Hs1 ->]|[Hs1 _]]] [[Hs2 ->]|[[Hs2 ->]|[Hs2 _]]];
    subst; try discriminate.
  - apply suppress_idemp.
  - apply generalize_idemp.
  - by destruct Hs.
Qed.

(** X18. Suppression and generalization reach a fixed point in one pass.
    On grouping columns that take strings, a first call of
    [apply_k_anonymity] returns, and a second call with the same columns,
    [k] and strategy, made on its result, returns as well and changes no
    column: the columns still take strings, rows that were kept are still
    in classes of at least [k] rows, and rewriting a rewritten cell gives
    the same string. *)
Theorem string_strategy_second_pass (s : state) (df : frame)
    (cols : list string) (k : Z) (strategy : string) (groups : list group) :
  current s = Some df → wf_frame df →
  strategy = "suppression" ∨ strategy = "generalization" →
  groupby df cols false = Ok groups →
  (∀ c, c ∈ cols → takes_strings df c = true) →
  ∃ s1 df1 s2 df2,
    apply_k_anonymity cols k strategy s = (Ok (), s1) ∧
    current s1 = Some df1 ∧
    apply_k_anonymity cols k strategy s1 = (Ok (), s2) ∧
    current s2 = Some df2 ∧
    ∀ c, getitem df2 c = getitem df1 c.
Proof.
  intros Hcur Hwf Hstr Hgroups Htakes.
  assert (strategy ∈ ["suppression"; "generalization"; "synthetic"]) as Hs.
  { rewrite !elem_of_cons. tauto. }
  destruct (apply_k_anonymity_run s df cols k strategy groups)
    as (s1 & df1 & Hrun1 & Hcur1 & Hcells1); try done.
  { by apply writable_takes. }
  pose proof (cells_rewritten_wf _ _ _ _ Hwf Hcells1) as Hwf1.
  destruct (groupby_columns _ _ _ Hgroups) as [Hne Hcols].
  pose proof Hcells1 as (Hn1 & Hc1 & _ & Hcell1).
  destruct (groupby_after_rewrite _ _ df df1 cols groups Hwf Hcells1 Hgroups)
    as [groups1 Hgroups1].
  destruct (apply_k_anonymity_run s1 df1 cols k strategy groups1)
    as (s2 & df2 & Hrun2 & Hcur2 & Hcells2); try done.
  { apply writable_takes. intros c Hc.
    apply (takes_strings_kept _ _ df df1 c Hwf Hcells1);
      [by apply Hcols | by apply Htakes]. }
  exists s1, df1, s2, df2. repeat (split; [done|]).
  apply (columns_of_cells _ _ _ _ Hcells2). intros c i.
  destruct (cell df1 c i) as [cur|] eqn:Hcur1c;
    [|by eapply cells_rewritten_None].
  pose proof Hcells2 as (_ & _ & _ & Hcell2).
  destruct (Hcell2 c i cur Hcur1c)
    as (new & -> & [[_ ->]|[(Hc & g' & Hg' & Hi') Hr2]]); [done|].
  apply list_elem_of_filter in Hg' as [Hsmall' Hg'].
  pose proof (groupby_row_lt _ _ _ _ _ Hgroups1 Hg' Hi') as Hlt.
  rewrite Hn1 in Hlt.
  destruct (groupby_rows _ _ _ Hgroups) as [Hp Hsorted].
  assert (i ∈ mjoin groups.*2) as Hin by (rewrite Hp, elem_of_seq; lia).
  apply list_elem_of_join in Hin as (l & Hil & Hl).
  apply list_elem_of_fmap in Hl as (g & -> & Hg).
  destruct (decide (Py.len_list g.2 < k)%Z) as [Hsmall|Hlarge].
  - (* the row was rewritten by the first pass *)
    destruct (small_class_rewritten df df1 cols k strategy groups _ g i c
                Hwf Hgroups Hcells1)
      as (old & cur' & Hold & Hcur' & Hr1); try done.
    assert (cur' = cur) as -> by congruence.
    f_equal. by eapply rewritten_again.
  - (* the row was kept: its class has not shrunk *)
    exfalso.
    destruct (groupby_mapM _ _ _ _ Hgroups) as [ks Hks].
    destruct (groupby_mapM _ _ _ _ Hgroups1) as [ks1 Hks1].
    assert (∀ j, j ∈ g.2 → row_key ks1 j = row_key ks j) as Hkeys.
    { intros j Hj. eapply row_key_same_cells; [done | done |].
      intros c'.
      eapply (large_class_kept df df1 cols k strategy groups _ g j c'
                Hwf Hgroups Hcells1); try done; [|lia].
      by intros i' c'' [_ ?]. }
    assert (∀ j, j ∈ g.2 → j ∈ g'.2) as Hsub.
    { intros j Hj.
      pose proof (groupby_row_lt _ _ _ _ _ Hgroups Hg Hj) as Hjlt.
      destruct (groupby_rows _ _ _ Hgroups1) as [Hp1 _].
      assert (j ∈ mjoin groups1.*2) as Hjin
        by (rewrite Hp1, elem_of_seq; lia).
      apply list_elem_of_join in Hjin as (l & Hjl & Hl).
      apply list_elem_of_fmap in Hl as (gj & -> & Hgj).
      assert (gj = g') as ->; [|done].
      assert (key_eqb g.1 (row_key ks i) = true) as Hgi
        by (eapply groupby_class_key; eassumption).
      assert (key_eqb g.1 (row_key ks j) = true) as Hgj0
        by (eapply groupby_class_key; eassumption).
      assert (key_eqb gj.1 (row_key ks1 j) = true) as H1j
        by (eapply groupby_class_key; eassumption).
      assert (key_eqb g'.1 (row_key ks1 i) = true) as H1i
        by (eapply groupby_class_key; eassumption).
      rewrite (Hkeys j Hj) in H1j. rewrite (Hkeys i Hil) in H1i.
      assert (∀ a b : key, key_eqb a b = true → key_eqb b a = true) as Ksym
        by (intros; eapply key_eqb_sym; eassumption).
      assert (∀ a b c : key, key_eqb a b = true → key_eqb b c = true →
                key_eqb a c = true) as Ktrans
        by (intros; eapply key_eqb_trans; eassumption).
      eapply groupby_key_class; try eassumption.
      apply (Ktrans _ _ _ H1j). apply (Ktrans _ _ _ (Ksym _ _ Hgj0)).
      apply (Ktrans _ _ _ Hgi). by apply Ksym. }
    assert (NoDup g.2) as Hnd.
    { apply ascending_NoDup. rewrite Forall_forall in Hsorted. auto. }
    pose proof (submseteq_length _ _ (NoDup_submseteq _ _ Hnd Hsub)) as Hlen.
    unfold Py.len_list in *. lia.
Qed.

End SecondPass.

(** ** More on the report *)
Section MoreReport.
Context `{Libs}.

Lemma uniques_length (l : list value) :
  (length (uniques l) ≤ length l)%nat.
Proof.
  unfold uniques.
  assert (∀ seen : list value,
            (length (foldl (λ seen v,
                       if isna v || existsb (λ u, value_eqb u v) seen
                       then seen else seen ++ [v]) seen l)
             ≤ length seen + length l)%nat) as Hgen.
  { induction l as [|v l IH]; intros seen; simpl; [lia|].
    destruct (isna v || existsb _ seen).
    - specialize (IH seen). lia.
    - specialize (IH (seen ++ [v])). rewrite length_app in IH. simpl in IH. lia. }
  apply (Hgen []).
Qed.

Lemma nunique_bounds (l : list value) :
  (0 ≤ nunique l ≤ Z.of_nat (length l))%Z.
Proof.
  unfold nunique, Py.len_list. pose proof (uniques_length l). lia.
Qed.

Lemma filter_all_columns (cs : list string) :
  filter (λ c, c ∈ cs) cs = cs.
Proof.
  assert (∀ l : list string, (∀ c, c ∈ l → c ∈ cs) →
            filter (λ c, c ∈ cs) l = l) as Hgen.
  { induction l as [|c l IH]; intros Hl; [done|].
    rewrite filter_cons, decide_True by (apply Hl; left).
    f_equal. apply IH. intros c' Hc'. apply Hl. by right. }
  by apply Hgen.
Qed.

(** the whole method, once the list is built *)
Lemma get_anonymization_report_run (s : state) (report : list entry) :
  build_report s = (Ok report, s) →
  get_anonymization_report s =
  (Ok report,
   State (self_df s) (self_original_df s) (heap s)
         (stdout s ++
          [String "010" "Anonymization Report:"; report_header;
           Py.repeat "-" 75] ++
          (report_line <$> report) ++ [Py.repeat "-" 75])
         (random s)).
Proof.
  intros Hrun. unfold get_anonymization_report. rewrite bind_run, Hrun.
  rewrite bind_run. unfold print at 1.
  rewrite bind_run. unfold print at 1.
  rewrite bind_run. unfold print at 1.
  rewrite bind_run, for_each_print.
  cbn [self_df self_original_df heap stdout random].
  rewrite bind_run. unfold print at 1.
  cbn [self_df self_original_df heap stdout random mret M_ret].
  do 2 f_equal. rewrite <- !app_assoc. done.
Qed.

(** X19. The numbers of the report are bounded by the number of rows:
    for tables with [n] rows each count of distinct values lies between 0
    and [n], and each gain, the difference of the two counts, between
    [-n] and [n]. *)
Theorem report_bounds (s : state) (orig df : frame) :
  original s = Some orig → current s = Some df →
  wf_frame orig → wf_frame df → nrows df = nrows orig →
  ∃ report s',
    get_anonymization_report s = (Ok report, s') ∧
    ∀ e, e ∈ report →
      (0 ≤ entry_original e ≤ Z.of_nat (nrows orig))%Z ∧
      (0 ≤ entry_anonymized e ≤ Z.of_nat (nrows orig))%Z ∧
      entry_gain e = (entry_original e - entry_anonymized e)%Z ∧
      (- Z.of_nat (nrows orig) ≤ entry_gain e ≤ Z.of_nat (nrows orig))%Z.
Proof.
  intros Horig Hcur Hwfo Hwf Hn.
  destruct (build_report_run s orig df Horig Hcur)
    as (report & Hrun & _ & Hok).
  exists report. eexists.
  split; [by apply get_anonymization_report_run|].
  intros e He. rewrite Forall_forall in Hok.
  destruct (Hok e He) as (oc & ac & Hoc & Hac & -> & -> & ->).
  pose proof (nunique_bounds oc) as Bo. pose proof (nunique_bounds ac) as Ba.
  rewrite (getitem_length orig _ oc Hwfo Hoc) in Bo.
  rewrite (getitem_length df _ ac Hwf Hac), Hn in Ba. lia.
Qed.

(** X20. Straight after [load_data] the report lists every column of the
    table read, in order, with equal counts and a gain of 0. *)
Theorem report_after_load (filepath : string) (s s1 : state) :
  load_data filepath s = (Ok (), s1) →
  ∃ f report t,
    pd_read_csv filepath = Ok f ∧
    get_anonymization_report s1 = (Ok report, t) ∧
    entry_column <$> report = columns f ∧
    ∀ e, e ∈ report →
      entry_original e = entry_anonymized e ∧ entry_gain e = 0%Z.
Proof.
  intros (f & Hread & Hd & Ho & Hheap)%load_data_run.
  assert (current s1 = Some f) as Hcur.
  { unfold current. rewrite Hd, Hheap. simpl. by apply list_lookup_middle. }
  assert (original s1 = Some f) as Horig.
  { unfold original. rewrite Ho, Hheap. simpl.
    rewrite (cons_middle f (heap s) [f]), app_assoc.
    apply list_lookup_middle. rewrite length_app. simpl. lia. }
  destruct (build_report_run s1 f f Horig Hcur)
    as (report & Hrun & Hcols & Hok).
  exists f, report. eexists. split; [done|].
  split; [by apply get_anonymization_report_run|].
  split; [by rewrite Hcols, filter_all_columns|].
  intros e He. rewrite Forall_forall in Hok.
  destruct (Hok e He) as (oc & ac & Hoc & Hac & -> & -> & ->).
  assert (oc = ac) as -> by congruence. split; [done | lia].
Qed.

(** X21. What the report prints: a title, the header, a rule of 75
    dashes, one line per entry in the order of the entries, and a rule
    again, so four lines more than there are entries; nothing else of the
    object changes. *)
Theorem report_printed_lines (s : state) (orig df : frame) :
  original s = Some orig → current s = Some df →
  ∃ report s',
    get_anonymization_report s = (Ok report, s') ∧
    same_store s' s ∧
    stdout s' =
      stdout s ++
      [String "010" "Anonymization Report:"; report_header;
       Py.repeat "-" 75] ++
      (report_line <$> report) ++ [Py.repeat "-" 75] ∧
    length (stdout s') = length (stdout s) + length report + 4 ∧
    Py.len (Py.repeat "-" 75) = 75%Z.
Proof.
  intros Horig Hcur.
  destruct (build_report_run s orig df Horig Hcur) as (report & Hrun & _).
  exists report. eexists.
  split; [by apply get_anonymization_report_run|].
  split; [done|]. split; [done|]. split; [|done].
  cbn [stdout]. rewrite !length_app, length_fmap. simpl. lia.
Qed.

End MoreReport.

(** ** The calls together *)
Section Pipeline.
Context `{Libs}.

(** the outcome of one column of the noise transform *)
Lemma dp_column_outcome (epsilon : num) (col : string) (s : state)
    (df : frame) :
  current s = Some df → wf_frame df →
  (dp_column epsilon col s).1 = Ok () ∨
  (dp_column epsilon col s).1 = Raise TypeError ∨
  (dp_column epsilon col s).1 = Raise ValueError.
Proof.
  intros Hcur Hwf.
  destruct (getitem df col) as [c|] eqn:Hcol.
  - destruct (mapM as_num c) as [xs|] eqn:Hnum.
    + apply mapM_as_num_Some in Hnum as ->.
      destruct (num_ltz (dp_scale xs epsilon)) eqn:Hscale.
      * rewrite (dp_column_negative_scale epsilon col s df xs) by done. auto.
      * destruct (dp_column_present epsilon col s df xs)
          as (noise & r' & s' & df' & _ & _ & -> & _); try done. auto.
    + rewrite (dp_column_type_error epsilon col s df c) by done. auto.
  - rewrite (dp_column_absent epsilon col s df); [auto | done |].
    rewrite <- getitem_is_Some, Hcol. by intros [? ?].
Qed.

(** the noise transform on a well-formed table, any outcome *)
Lemma apply_differential_privacy_frame (s : state) (df : frame)
    (cols : list string) (epsilon : num) :
  current s = Some df → wf_frame df →
  (∃ df', current (apply_differential_privacy cols epsilon s).2 = Some df' ∧
          wf_frame df' ∧ columns df' = columns df ∧ nrows df' = nrows df) ∧
  ∀ e, (apply_differential_privacy cols epsilon s).1 = Raise e →
       e = TypeError ∨ e = ValueError.
Proof.
  intros Hcur Hwf. unfold apply_differential_privacy.
  apply (for_each_outcome
    (λ t, ∃ df', current t = Some df' ∧ wf_frame df' ∧
                 columns df' = columns df ∧ nrows df' = nrows df)
    (λ e, e = TypeError ∨ e = ValueError)); [|by exists df].
  intros x t (df1 & Hcur1 & Hwf1 & Hc1 & Hn1). split.
  - destruct (dp_column_frame epsilon x t df1 Hcur1 Hwf1)
      as (df2 & Hcur2 & Hwf2 & Hc2 & Hn2 & _).
    exists df2. split; [done|]. split; [done|]. split; congruence.
  - intros e He.
    destruct (dp_column_outcome epsilon x t df1 Hcur1 Hwf1) as [Ho|[Ho|Ho]];
      rewrite Ho in He; simplify_eq; auto.
Qed.

Lemma run_calls_frame (calls : list call) (s : state) (df : frame) :
  current s = Some df → wf_frame df →
  ∃ df', current (run_calls calls s) = Some df' ∧ wf_frame df' ∧
         columns df' = columns df ∧ nrows df' = nrows df.
Proof.
  revert s df. induction calls as [|c calls IH]; intros s df Hcur Hwf;
    [by exists df|].
  simpl.
  assert (∃ df1, current (run_call c s).2 = Some df1 ∧ wf_frame df1 ∧
                 columns df1 = columns df ∧ nrows df1 = nrows df)
    as (df1 & Hcur1 & Hwf1 & Hc1 & Hn1).
  { destruct c as [cs eps|qi k strategy]; simpl.
    - by destruct (apply_differential_privacy_frame s df cs eps Hcur Hwf).
    - apply (apply_k_anonymity_shape s df qi k strategy Hcur Hwf). }
  destruct (IH _ df1 Hcur1 Hwf1) as (df' & Hcur' & Hwf' & Hc' & Hn').
  exists df'. split; [done|]. split; [done|]. split; congruence.
Qed.

(** X22. The shape of the data never changes. After [load_data] of a
    well-formed table and any sequence of transform calls, failed ones
    included, the working table is well-formed and has the columns, in
    order, and the number of rows of the table loaded; so the report has
    one entry for each column of the table loaded, in order, and no
    column is ever skipped. *)
Theorem pipeline_keeps_shape (filepath : string) (s0 s1 : state) (f : frame)
    (calls : list call) :
  load_data filepath s0 = (Ok (), s1) →
  pd_read_csv filepath = Ok f → wf_frame f →
  ∃ df report t,
    current (run_calls calls s1) = Some df ∧ wf_frame df ∧
    columns df = columns f ∧ nrows df = nrows f ∧
    original (run_calls calls s1) = Some f ∧
    get_anonymization_report (run_calls calls s1) = (Ok report, t) ∧
    entry_column <$> report = columns f.
Proof.
  intros Hload Hread Hwf.
  apply load_data_run in Hload as (f' & Hread' & Hd & Ho & Hheap).
  assert (f' = f) as -> by congruence.
  assert (heap s1 !! length (heap s0) = Some f) as Hcur.
  { rewrite Hheap. by apply list_lookup_middle. }
  assert (heap s1 !! S (length (heap s0)) = Some f) as Horig.
  { rewrite Hheap. rewrite (cons_middle f (heap s0) [f]), app_assoc.
    apply list_lookup_middle. rewrite length_app. simpl. lia. }
  destruct (run_calls_frame calls s1 f) as (df & Hcur' & Hwf' & Hc & Hn);
    [by unfold current; rewrite Hd | done |].
  destruct (run_calls_original calls s1 (length (heap s0))
              (S (length (heap s0))) f) as (_ & Ho' & Hf'); try done; try lia.
  assert (original (run_calls calls s1) = Some f) as Horig'.
  { unfold original. by rewrite Ho'. }
  destruct (build_report_run _ f df Horig' Hcur')
    as (report & Hrun & Hcols & _).
  exists df, report. eexists. repeat (split; [done|]).
  split; [by apply get_anonymization_report_run|].
  by rewrite Hcols, Hc, filter_all_columns.
Qed.




End Pipeline.
(** * The concrete instance *)
Import Demo.

(** ** Runs of the model *)

Example suppress_rome : suppress (VStr "Rome") = VStr "****".
Proof. reflexivity. Qed.

Example generalize_rome : generalize (VStr "Rome") = VStr "Ro**".
Proof. reflexivity. Qed.

Example generalize_one_char : generalize (VStr "7") = VStr "7".
Proof. reflexivity. Qed.

Example generalize_empty : generalize (VStr "") = VStr "".
Proof. reflexivity. Qed.

Example generalize_missing : generalize (VNum None) = VStr "na*".
Proof. reflexivity. Qed.

Example kind_zip_code : synthetic_kind_of "ZIP Code" = Zipcode.
Proof. reflexivity. Qed.

Example kind_job_title : synthetic_kind_of "JobTitle" = Job.
Proof. reflexivity. Qed.

Example kind_city : synthetic_kind_of "city" = Word.
Proof. reflexivity. Qed.

Example groupby_run :
  groupby Demo.table ["city"; "Zip_Gender"] false = Ok Demo.classes.
Proof. reflexivity. Qed.

(** with [dropna=True] the row whose city is missing would be in no
    class *)
Example groupby_dropna_run :
  groupby Demo.table ["city"] true =
  Ok [([VStr "Rome"], [1]); ([VStr "Oslo"], [0; 2])].
Proof. reflexivity. Qed.

Example groupby_missing_column :
  groupby Demo.table ["town"] false = Raise KeyError.
Proof. reflexivity. Qed.

Example suppression_run :
  current Demo.suppressed = Some Demo.suppressed_table.
Proof. reflexivity. Qed.

(** the gain can be negative: suppression turns the two cities into three
    distinct strings, the missing value counting for none before *)
Example report_run :
  (get_anonymization_report Demo.suppressed).1 =
  Ok [("age", 3, 3, 0); ("city", 2, 3, -1); ("Zip_Gender", 3, 3, 0)]%Z.
Proof. reflexivity. Qed.

Example dp_on_strings_raises :
  (apply_differential_privacy ["city"] (Some 2%Z) Demo.loaded).1 =
  Raise TypeError.
Proof. reflexivity. Qed.

(** the column of numbers has a numeric dtype, the column of strings with
    a missing value the dtype [str] or [object] *)
Example age_is_numeric : takes_strings Demo.table "age" = false.
Proof. reflexivity. Qed.

Example city_takes_strings : takes_strings Demo.table "city" = true.
Proof. reflexivity. Qed.

(** on the column of numbers the first assignment is refused and nothing
    is written or printed *)
Example suppression_refused :
  apply_k_anonymity ["age"] 2 "suppression" Demo.loaded
  = (Raise TypeError, Demo.loaded).
Proof. reflexivity. Qed.

(** where the library converts the column instead, the strings are
    written among the numbers *)
Example suppression_upcast :
  @getitem scalars
    (default Demo.table
       (@current scalars Demo.legacy
          (@apply_k_anonymity scalars Demo.legacy ["Zip_Gender"; "age"] 2
             "suppression" Demo.legacy_loaded).2))
    "age" =
  Some [VNum (Some 31%Z); VStr "**"; VNum (Some 31%Z); VStr "**"].
Proof. reflexivity. Qed.

(** and where it rejects a missing key, grouping by the column that has
    one fails *)
Example groupby_missing_key :
  @groupby scalars Demo.legacy Demo.table ["city"] false = Raise ValueError.
Proof. reflexivity. Qed.

(** once the noise transform has run on it the column is numeric
    still *)
Example noised_column_refused :
  (apply_k_anonymity ["age"] 2 "generalization"
     (apply_differential_privacy ["age"] (Some 2%Z) Demo.loaded).2).1
  = Raise TypeError.
Proof. reflexivity. Qed.

(** ** The properties at the instance *)

Lemma demo_table_wf : wf_frame Demo.table.
Proof.
  split.
  - apply (bool_decide_unpack _). by vm_compute.
  - repeat constructor.
Qed.

Lemma demo_valid (strategy : string) :
  bool_decide (strategy ∈ ["suppression"; "generalization"; "synthetic"])
    = true →
  strategy ∈ ["suppression"; "generalization"; "synthetic"].
Proof. apply bool_decide_eq_true_1. Qed.

Lemma demo_takes_strings (c : string) :
  c ∈ ["city"; "Zip_Gender"] → takes_strings Demo.table c = true.
Proof.
  rewrite !elem_of_cons, elem_of_nil. by intros [->|[->|[]]].
Qed.



Lemma invalid_strategy_raises_witness :
  apply_k_anonymity ["city"] 2 "bogus" Demo.loaded
    = (Raise ValueError, Demo.loaded).
Proof.
  apply (invalid_strategy_raises Demo.loaded ["city"] 2 "bogus").
  apply (bool_decide_eq_false_1
           ("bogus" ∈ ["suppression"; "generalization"; "synthetic"])).
  reflexivity.
Defined.

Lemma generalization_invariant_witness :
  ∃ r s' df' (written : nat → string → Prop),
    apply_k_anonymity ["city"; "Zip_Gender"] 2 "generalization" Demo.loaded
      = (r, s') ∧
    current s' = Some df' ∧
    (∀ i c, written i c →
       c ∈ ["city"; "Zip_Gender"] ∧
       ∃ g, g ∈ Demo.classes ∧ (Py.len_list g.2 < 2)%Z ∧ i ∈ g.2) ∧
    (r = Ok () →
     ∀ g i c, g ∈ Demo.classes → (Py.len_list g.2 < 2)%Z → i ∈ g.2 →
       c ∈ ["city"; "Zip_Gender"] → written i c) ∧
    (writable Demo.table ["city"; "Zip_Gender"]
       (small_groups 2 Demo.classes) = true → r = Ok ()) ∧
    (∀ i c, ¬ written i c → cell df' c i = cell Demo.table c i) ∧
    ∀ i c, written i c →
      ∃ original out,
        cell Demo.table c i = Some original ∧
        cell df' c i = Some (VStr out) ∧
        ((2 ≤ Py.len (str original))%Z →
           Py.slice_to 2 out = Py.slice_to 2 (str original) ∧
           Py.len out = Py.len (str original)) ∧
        ((Py.len (str original) < 2)%Z →
           Py.repeat "*" (Py.len (str original) - 2) = "" ∧
           out = str original +:+ Py.repeat "*" 0).
Proof.
  apply (generalization_invariant Demo.loaded Demo.table
           ["city"; "Zip_Gender"] 2 Demo.classes).
  - reflexivity.
  - exact demo_table_wf.
  - reflexivity.
Defined.

Lemma suppression_invariant_witness :
  ∃ r s' df' (written : nat → string → Prop),
    apply_k_anonymity ["city"; "Zip_Gender"] 2 "suppression" Demo.loaded
      = (r, s') ∧
    current s' = Some df' ∧
    (∀ i c, written i c →
       c ∈ ["city"; "Zip_Gender"] ∧
       ∃ g, g ∈ Demo.classes ∧ (Py.len_list g.2 < 2)%Z ∧ i ∈ g.2) ∧
    (r = Ok () →
     ∀ g i c, g ∈ Demo.classes → (Py.len_list g.2 < 2)%Z → i ∈ g.2 →
       c ∈ ["city"; "Zip_Gender"] → written i c) ∧
    (writable Demo.table ["city"; "Zip_Gender"]
       (small_groups 2 Demo.classes) = true → r = Ok ()) ∧
    (∀ i c, ¬ written i c → cell df' c i = cell Demo.table c i) ∧
    ∀ i c, written i c →
      ∃ original out,
        cell Demo.table c i = Some original ∧
        cell df' c i = Some (VStr out) ∧
        all_stars out ∧ Py.len out = Py.len (str original).
Proof.
  apply (suppression_invariant Demo.loaded Demo.table
           ["city"; "Zip_Gender"] 2 Demo.classes).
  - reflexivity.
  - exact demo_table_wf.
  - reflexivity.
Defined.

Lemma groupby_partition_witness :
  (∀ i, i < 4 →
     ∃ j, (∃ g, Demo.classes !! j = Some g ∧ i ∈ g.2) ∧
          ∀ j', (∃ g, Demo.classes !! j' = Some g ∧ i ∈ g.2) → j' = j) ∧
  (∀ i, (∃ g, g ∈ Demo.classes ∧ i ∈ g.2) ↔ i < 4) ∧
  mjoin Demo.classes.*2 ≡ₚ seq 0 4 ∧
  Forall (λ g, StronglySorted lt g.2) Demo.classes.
Proof.
  apply (groupby_partition Demo.table ["city"; "Zip_Gender"] Demo.classes).
  reflexivity.
Defined.

Lemma differential_privacy_column_witness :
  ∃ noise r' s2 df2,
    draw (laplace_sample num_zero
            (num_div (num_sub (series_max [Some 31; Some 45; Some 31; Some 52])
                              (series_min [Some 31; Some 45; Some 31; Some 52]))
                     (Some 2)))%Z
         4 (random Demo.loaded) = (noise, r') ∧
    length noise = 4 ∧
    dp_column (Some 2%Z) "age" Demo.loaded = (Ok (), s2) ∧
    apply_differential_privacy ([] ++ "age" :: ["nope"]) (Some 2%Z) Demo.loaded
      = apply_differential_privacy ["nope"] (Some 2%Z) s2 ∧
    self_df s2 = self_df Demo.loaded ∧ random s2 = r' ∧
    current s2 = Some df2 ∧
    nrows df2 = 4 ∧ columns df2 = columns Demo.table ∧
    getitem df2 "age" =
      Some (VNum <$> (num_round 2 <$>
              zip_with num_add [Some 31; Some 45; Some 31; Some 52]%Z noise)) ∧
    ∀ c', c' ≠ "age" → getitem df2 c' = getitem Demo.table c'.
Proof.
  apply (differential_privacy_column Demo.loaded Demo.loaded [] ["nope"]
           "age" (Some 2%Z) Demo.table
           [Some 31; Some 45; Some 31; Some 52]%Z).
  - reflexivity.
  - reflexivity.
  - exact demo_table_wf.
  - reflexivity.
  - reflexivity.
Defined.

Lemma report_entries_witness :
  ∃ report s',
    get_anonymization_report Demo.suppressed = (Ok report, s') ∧
    same_store s' Demo.suppressed ∧
    entry_column <$> report =
      filter (λ c, c ∈ columns Demo.suppressed_table) (columns Demo.table) ∧
    NoDup (entry_column <$> report) ∧
    (∀ c, c ∈ entry_column <$> report ↔
          c ∈ columns Demo.table ∧ c ∈ columns Demo.suppressed_table) ∧
    ∀ e, e ∈ report →
      ∃ oc ac,
        getitem Demo.table (entry_column e) = Some oc ∧
        getitem Demo.suppressed_table (entry_column e) = Some ac ∧
        entry_original e = nunique oc ∧
        entry_anonymized e = nunique ac ∧
        entry_gain e = (nunique oc - nunique ac)%Z.
Proof.
  apply (report_entries Demo.suppressed Demo.table Demo.suppressed_table).
  - reflexivity.
  - reflexivity.
  - exact demo_table_wf.
Defined.

Lemma missing_column_skipped_witness :
  let s1 := (apply_differential_privacy ["age"] (Some 2%Z) Demo.loaded).2 in
  let warned :=
    logged "Warning: Column 'nope' not found in dataset." s1 in
  dp_column (Some 2%Z) "nope" s1 = (Ok (), warned) ∧
  heap warned = heap s1 ∧
  current warned = current s1 ∧
  random warned = random s1 ∧
  apply_differential_privacy (["age"] ++ "nope" :: ["age"]) (Some 2%Z)
      Demo.loaded
    = apply_differential_privacy ["age"] (Some 2%Z) warned ∧
  (apply_differential_privacy (["age"] ++ "nope" :: ["age"]) (Some 2%Z)
     Demo.loaded).1
    = (apply_differential_privacy (["age"] ++ ["age"]) (Some 2%Z)
         Demo.loaded).1 ∧
  same_store
    (apply_differential_privacy (["age"] ++ "nope" :: ["age"]) (Some 2%Z)
       Demo.loaded).2
    (apply_differential_privacy (["age"] ++ ["age"]) (Some 2%Z)
       Demo.loaded).2.
Proof.
  intros s1 warned.
  apply (missing_column_skipped Demo.loaded s1 ["age"] ["age"] "nope"
           (Some 2%Z) (default Demo.table (current s1))).
  - reflexivity.
  - reflexivity.
  - apply (bool_decide_eq_false_1
             ("nope" ∈ columns (default Demo.table (current s1)))).
    by vm_compute.
Defined.

Lemma original_snapshot_preserved_witness :
  ∃ f, pd_read_csv "data.csv" = Ok f ∧
       current Demo.loaded = Some f ∧ original Demo.loaded = Some f ∧
       self_original_df
         (run_calls [DifferentialPrivacy ["age"] (Some 2%Z);
                     KAnonymity ["city"] 2 "suppression";
                     KAnonymity ["city"] 2 "bogus"] Demo.loaded)
         = self_original_df Demo.loaded ∧
       original
         (run_calls [DifferentialPrivacy ["age"] (Some 2%Z);
                     KAnonymity ["city"] 2 "suppression";
                     KAnonymity ["city"] 2 "bogus"] Demo.loaded)
         = Some f.
Proof.
  apply (original_snapshot_preserved Demo.fresh Demo.loaded "data.csv").
  reflexivity.
Defined.

Lemma demo_rows (i : nat) : i ∈ [1; 3] → i < nrows Demo.table.
Proof.
  rewrite !elem_of_cons, elem_of_nil. simpl. intros [->|[->|[]]]; lia.
Qed.

Lemma synthetic_dispatch_witness :
  synthetic_kind_of "Zip_Gender" = Zipcode ∧
  (∃ s' df',
     rewrite_group "synthetic" [1; 3] "Zip_Gender" Demo.loaded = (Ok (), s') ∧
     current s' = Some df' ∧
     cell df' "Zip_Gender" 1 = Some (VStr "90000") ∧
     cell df' "Zip_Gender" 3 = Some (VStr "90001")) ∧
  (∃ s',
     rewrite_group "synthetic" [1; 3] "age" Demo.loaded
       = (Raise TypeError, s') ∧
     current s' = Some Demo.table ∧ random s' = 2).
Proof.
  assert (NoDup [1; 3]) as Hnd by (apply (bool_decide_unpack _); by vm_compute).
  destruct (synthetic_dispatch Demo.loaded Demo.table [1; 3] "Zip_Gender")
    as (Hzip & _ & _ & _ & _ & _ & _ & _ & _ & _ & _ & _ & Hwrite & _).
  - reflexivity.
  - exact demo_table_wf.
  - apply (bool_decide_unpack _). by vm_compute.
  - exact Hnd.
  - exact demo_rows.
  - destruct (synthetic_dispatch Demo.loaded Demo.table [1; 3] "age")
      as (_ & _ & _ & _ & _ & _ & _ & _ & _ & _ & _ & _ & _ & Hrefuse).
    + reflexivity.
    + exact demo_table_wf.
    + apply (bool_decide_unpack _). by vm_compute.
    + exact Hnd.
    + exact demo_rows.
    + destruct (Hwrite eq_refl) as (s' & df' & Hrun & Hcur & _ & Hcells).
      split; [reflexivity|]. split.
      * exists s', df'. split; [exact Hrun|]. split; [exact Hcur|]. split.
        -- apply (Hcells 0 1). reflexivity.
        -- apply (Hcells 1 3). reflexivity.
      * apply Hrefuse; [reflexivity | done].
Defined.

(** ** The further properties at the instance *)

Lemma demo_num_eqb_refl : ∀ x : num, num_eqb x x = true.
Proof. intros x. by apply bool_decide_eq_true_2. Qed.

Lemma demo_num_eqb_sym : ∀ x y : num, num_eqb x y = true → num_eqb y x = true.
Proof.
  intros x y Hxy%bool_decide_eq_true_1. by apply bool_decide_eq_true_2.
Qed.

Lemma demo_num_eqb_trans :
  ∀ x y z : num, num_eqb x y = true → num_eqb y z = true → num_eqb x z = true.
Proof.
  intros x y z Hxy%bool_decide_eq_true_1 Hyz%bool_decide_eq_true_1.
  apply bool_decide_eq_true_2. congruence.
Qed.

Lemma load_data_failure_witness :
  (load_data "missing.csv" Demo.fresh).2 = Demo.fresh ∧
  ((os_path_exists "missing.csv" = false ∧
    FileNotFoundError = FileNotFoundError) ∨
   (os_path_exists "missing.csv" = true ∧
    pd_read_csv "missing.csv" = Raise FileNotFoundError)).
Proof.
  apply (load_data_failure "missing.csv" Demo.fresh
           (load_data "missing.csv" Demo.fresh).2 FileNotFoundError).
  reflexivity.
Defined.

Lemma load_data_success_witness :
  ∃ f l l',
    pd_read_csv "data.csv" = Ok f ∧
    self_df (load_data "data.csv" Demo.suppressed).2 = Some l ∧
    self_original_df (load_data "data.csv" Demo.suppressed).2 = Some l' ∧
    l ≠ l' ∧
    heap (load_data "data.csv" Demo.suppressed).2 !! l = Some f ∧
    heap (load_data "data.csv" Demo.suppressed).2 !! l' = Some f ∧
    (length (heap Demo.suppressed) ≤ l)%nat ∧
    (length (heap Demo.suppressed) ≤ l')%nat ∧
    (∀ j, j < length (heap Demo.suppressed) →
          heap (load_data "data.csv" Demo.suppressed).2 !! j
            = heap Demo.suppressed !! j) ∧
    random (load_data "data.csv" Demo.suppressed).2
      = random Demo.suppressed ∧
    stdout (load_data "data.csv" Demo.suppressed).2 =
      stdout Demo.suppressed ++
      ["Dataset loaded successfully with " +:+ pretty (nrows f) +:+
       " rows and " +:+ pretty (length (cols f)) +:+ " columns."].
Proof.
  apply (load_data_success "data.csv" Demo.suppressed
           (load_data "data.csv" Demo.suppressed).2).
  reflexivity.
Defined.

Lemma not_loaded_raises_witness :
  apply_differential_privacy ("age" :: []) (Some 2%Z) Demo.fresh
    = (Raise AttributeError, Demo.fresh) ∧
  apply_k_anonymity ["city"] 2 "suppression" Demo.fresh
    = (Raise AttributeError, Demo.fresh) ∧
  get_anonymization_report Demo.fresh = (Raise AttributeError, Demo.fresh).
Proof.
  apply (not_loaded_raises Demo.fresh "age" [] (Some 2%Z) 2 "suppression").
  - reflexivity.
  - reflexivity.
  - apply demo_valid. reflexivity.
Defined.


Lemma dp_keeps_shape_witness :
  ∃ df',
    current (apply_differential_privacy ["age"; "city"] (Some 2%Z)
               Demo.loaded).2 = Some df' ∧
    wf_frame df' ∧ columns df' = columns Demo.table ∧
    nrows df' = nrows Demo.table ∧
    ∀ c, c ∉ ["age"; "city"] → getitem df' c = getitem Demo.table c.
Proof.
  apply (dp_keeps_shape Demo.loaded Demo.table ["age"; "city"] (Some 2%Z)).
  - reflexivity.
  - exact demo_table_wf.
Defined.

Lemma dp_all_missing_witness :
  apply_differential_privacy ["nope"; "Age"] (Some 2%Z) Demo.loaded =
  (Ok (),
   State (self_df Demo.loaded) (self_original_df Demo.loaded)
         (heap Demo.loaded)
         (stdout Demo.loaded ++
          ((λ c, "Warning: Column '" +:+ c +:+ "' not found in dataset.")
             <$> ["nope"; "Age"]))
         (random Demo.loaded)).
Proof.
  apply (dp_all_missing Demo.loaded Demo.table ["nope"; "Age"] (Some 2%Z)).
  - reflexivity.
  - intros c Hc. apply (bool_decide_eq_false_1 (c ∈ columns Demo.table)).
    rewrite !elem_of_cons, elem_of_nil in Hc.
    destruct Hc as [->|[->|[]]]; reflexivity.
Defined.

Lemma k_anonymity_failures_witness :
  (("suppression" ∉ ["suppression"; "generalization"; "synthetic"]) ∧
   TypeError = ValueError ∧
   (apply_k_anonymity ["city"; "age"] 2 "suppression" Demo.loaded).2
     = Demo.loaded) ∨
  ("suppression" ∈ ["suppression"; "generalization"; "synthetic"] ∧
   groupby Demo.table ["city"; "age"] false = Raise TypeError ∧
   (apply_k_anonymity ["city"; "age"] 2 "suppression" Demo.loaded).2
     = Demo.loaded) ∨
  ("suppression" ∈ ["suppression"; "generalization"; "synthetic"] ∧
   TypeError = TypeError ∧
   ∃ groups g0 rest pre c0 post df',
     groupby Demo.table ["city"; "age"] false = Ok groups ∧
     small_groups 2 groups = g0 :: rest ∧
     ["city"; "age"] = pre ++ c0 :: post ∧
     (∀ c, c ∈ pre → takes_strings Demo.table c = true) ∧
     takes_strings Demo.table c0 = false ∧
     current (apply_k_anonymity ["city"; "age"] 2 "suppression"
                Demo.loaded).2 = Some df' ∧
     (∀ c, c ∉ pre → getitem df' c = getitem Demo.table c) ∧
     (∀ c i, i ∉ g0.2 → cell df' c i = cell Demo.table c i) ∧
     ∀ c i, c ∈ pre → i ∈ g0.2 →
       ∃ old new, cell Demo.table c i = Some old ∧
                  cell df' c i = Some new ∧
                  rewritten "suppression" c old new).
Proof.
  apply (k_anonymity_failures Demo.loaded
           (apply_k_anonymity ["city"; "age"] 2 "suppression" Demo.loaded).2
           Demo.table ["city"; "age"] 2 "suppression" TypeError).
  - reflexivity.
  - exact demo_table_wf.
  - reflexivity.
Defined.

Lemma k_anonymity_missing_key_witness :
  @groupby scalars Demo.legacy Demo.table ["city"] false
    = Raise ValueError ∧
  @apply_k_anonymity scalars Demo.legacy ["city"] 2 "suppression"
    Demo.legacy_loaded = (Raise ValueError, Demo.legacy_loaded).
Proof.
  apply (@k_anonymity_missing_key scalars Demo.legacy Demo.legacy_loaded
           Demo.table "city" Demo.city_cells 2 "suppression").
  - reflexivity.
  - apply (bool_decide_unpack _). by vm_compute.
  - reflexivity.
  - reflexivity.
  - reflexivity.
Defined.

Lemma k_at_most_one_keeps_table_witness :
  ∃ s' df',
    apply_k_anonymity ["city"; "Zip_Gender"] 1 "suppression" Demo.loaded
      = (Ok (), s') ∧
    current s' = Some df' ∧
    columns df' = columns Demo.table ∧ nrows df' = nrows Demo.table ∧
    ∀ c, getitem df' c = getitem Demo.table c.
Proof.
  apply (k_at_most_one_keeps_table Demo.loaded Demo.table
           ["city"; "Zip_Gender"] 1 "suppression" Demo.classes).
  - reflexivity.
  - exact demo_table_wf.
  - apply demo_valid. reflexivity.
  - reflexivity.
  - lia.
Defined.

Lemma k_anonymity_keeps_other_columns_witness :
  ∃ df',
    current (apply_k_anonymity ["city"; "age"] 2 "synthetic"
               Demo.loaded).2 = Some df' ∧
    wf_frame df' ∧
    columns df' = columns Demo.table ∧ nrows df' = nrows Demo.table ∧
    ∀ c, c ∉ ["city"; "age"] → getitem df' c = getitem Demo.table c.
Proof.
  apply (k_anonymity_keeps_other_columns Demo.loaded Demo.table
           ["city"; "age"] 2 "synthetic").
  - reflexivity.
  - exact demo_table_wf.
Defined.

Lemma k_above_rows_rewrites_all_witness :
  ∃ s' df',
    apply_k_anonymity ["city"; "Zip_Gender"] 5 "generalization" Demo.loaded
      = (Ok (), s') ∧
    current s' = Some df' ∧
    ∀ i c, i < nrows Demo.table → c ∈ ["city"; "Zip_Gender"] →
      ∃ old new, cell Demo.table c i = Some old ∧ cell df' c i = Some new ∧
                 rewritten "generalization" c old new.
Proof.
  apply (k_above_rows_rewrites_all Demo.loaded Demo.table
           ["city"; "Zip_Gender"] 5 "generalization" Demo.classes).
  - reflexivity.
  - exact demo_table_wf.
  - apply demo_valid. reflexivity.
  - reflexivity.
  - exact demo_takes_strings.
  - reflexivity.
Defined.

Lemma k_anonymity_output_witness :
  self_df (apply_k_anonymity ["city"; "Zip_Gender"] 2 "suppression"
             Demo.loaded).2 = self_df Demo.loaded ∧
  self_original_df (apply_k_anonymity ["city"; "Zip_Gender"] 2 "suppression"
                      Demo.loaded).2 = self_original_df Demo.loaded ∧
  ("suppression" ≠ "synthetic" →
   random (apply_k_anonymity ["city"; "Zip_Gender"] 2 "suppression"
             Demo.loaded).2 = random Demo.loaded) ∧
  ((apply_k_anonymity ["city"; "Zip_Gender"] 2 "suppression"
      Demo.loaded).1 = Ok () →
   stdout (apply_k_anonymity ["city"; "Zip_Gender"] 2 "suppression"
             Demo.loaded).2 =
   stdout Demo.loaded ++
     ["K-Anonymity (" +:+ "suppression" +:+ ") applied with k=" +:+
      pretty 2%Z +:+ "."]) ∧
  (∀ e, (apply_k_anonymity ["city"; "Zip_Gender"] 2 "suppression"
           Demo.loaded).1 = Raise e →
        stdout (apply_k_anonymity ["city"; "Zip_Gender"] 2 "suppression"
                  Demo.loaded).2 = stdout Demo.loaded).
Proof.
  exact (k_anonymity_output Demo.loaded ["city"; "Zip_Gender"] 2
           "suppression").
Defined.

Lemma groupby_classes_by_key_witness :
  key_eqb [VStr "Oslo"; VStr "0150"]
    (row_key [Demo.city_cells; Demo.zip_cells] 0) = true ∧
  (([VStr "Oslo"; VStr "0150"], [0; 2]) = ([VStr "Rome"; VStr "7"], [1]) ↔
   key_eqb
     (row_key [Demo.city_cells; Demo.zip_cells] 0)
     (row_key [Demo.city_cells; Demo.zip_cells] 1) = true).
Proof.
  refine (groupby_classes_by_key demo_num_eqb_refl demo_num_eqb_sym
            demo_num_eqb_trans Demo.table ["city"; "Zip_Gender"]
            [Demo.city_cells; Demo.zip_cells] Demo.classes _ _
            ([VStr "Oslo"; VStr "0150"], [0; 2]) ([VStr "Rome"; VStr "7"], [1])
            0 1 _ _ _ _).
  - reflexivity.
  - reflexivity.
  - apply (list_elem_of_lookup_2 _ 2). reflexivity.
  - apply (list_elem_of_lookup_2 _ 1). reflexivity.
  - apply (bool_decide_unpack _). by vm_compute.
  - apply (bool_decide_unpack _). by vm_compute.
Defined.

Lemma string_strategy_second_pass_witness :
  ∃ s1 df1 s2 df2,
    apply_k_anonymity ["city"; "Zip_Gender"] 2 "suppression" Demo.loaded
      = (Ok (), s1) ∧
    current s1 = Some df1 ∧
    apply_k_anonymity ["city"; "Zip_Gender"] 2 "suppression" s1
      = (Ok (), s2) ∧
    current s2 = Some df2 ∧
    ∀ c, getitem df2 c = getitem df1 c.
Proof.
  apply (string_strategy_second_pass demo_num_eqb_refl demo_num_eqb_sym
           demo_num_eqb_trans Demo.loaded Demo.table
           ["city"; "Zip_Gender"] 2 "suppression" Demo.classes).
  - reflexivity.
  - exact demo_table_wf.
  - by left.
  - reflexivity.
  - exact demo_takes_strings.
Defined.

Lemma demo_suppressed_table_wf : wf_frame Demo.suppressed_table.
Proof.
  split.
  - apply (bool_decide_unpack _). by vm_compute.
  - repeat constructor.
Qed.

Lemma report_bounds_witness :
  ∃ report s',
    get_anonymization_report Demo.suppressed = (Ok report, s') ∧
    ∀ e, e ∈ report →
      (0 ≤ entry_original e ≤ Z.of_nat (nrows Demo.table))%Z ∧
      (0 ≤ entry_anonymized e ≤ Z.of_nat (nrows Demo.table))%Z ∧
      entry_gain e = (entry_original e - entry_anonymized e)%Z ∧
      (- Z.of_nat (nrows Demo.table) ≤ entry_gain e
         ≤ Z.of_nat (nrows Demo.table))%Z.
Proof.
  apply (report_bounds Demo.suppressed Demo.table Demo.suppressed_table).
  - reflexivity.
  - reflexivity.
  - exact demo_table_wf.
  - exact demo_suppressed_table_wf.
  - reflexivity.
Defined.

Lemma report_after_load_witness :
  ∃ f report t,
    pd_read_csv "data.csv" = Ok f ∧
    get_anonymization_report Demo.loaded = (Ok report, t) ∧
    entry_column <$> report = columns f ∧
    ∀ e, e ∈ report →
      entry_original e = entry_anonymized e ∧ entry_gain e = 0%Z.
Proof.
  apply (report_after_load "data.csv" Demo.fresh Demo.loaded).
  reflexivity.
Defined.

Lemma report_printed_lines_witness :
  ∃ report s',
    get_anonymization_report Demo.suppressed = (Ok report, s') ∧
    same_store s' Demo.suppressed ∧
    stdout s' =
      stdout Demo.suppressed ++
      [String "010" "Anonymization Report:"; report_header;
       Py.repeat "-" 75] ++
      (report_line <$> report) ++ [Py.repeat "-" 75] ∧
    length (stdout s') = length (stdout Demo.suppressed) + length report + 4 ∧
    Py.len (Py.repeat "-" 75) = 75%Z.
Proof.
  apply (report_printed_lines Demo.suppressed Demo.table
           Demo.suppressed_table).
  - reflexivity.
  - reflexivity.
Defined.

Lemma pipeline_keeps_shape_witness :
  ∃ df report t,
    current (run_calls [DifferentialPrivacy ["age"; "city"] (Some 2%Z);
                        KAnonymity ["city"] 2 "synthetic";
                        KAnonymity ["town"] 2 "suppression"] Demo.loaded)
      = Some df ∧
    wf_frame df ∧
    columns df = columns Demo.table ∧ nrows df = nrows Demo.table ∧
    original (run_calls [DifferentialPrivacy ["age"; "city"] (Some 2%Z);
                         KAnonymity ["city"] 2 "synthetic";
                         KAnonymity ["town"] 2 "suppression"] Demo.loaded)
      = Some Demo.table ∧
    get_anonymization_report
      (run_calls [DifferentialPrivacy ["age"; "city"] (Some 2%Z);
                  KAnonymity ["city"] 2 "synthetic";
                  KAnonymity ["town"] 2 "suppression"] Demo.loaded)
      = (Ok report, t) ∧
    entry_column <$> report = columns Demo.table.
Proof.
  apply (pipeline_keeps_shape "data.csv" Demo.fresh Demo.loaded Demo.table).
  - reflexivity.
  - reflexivity.
  - exact demo_table_wf.
Defined.

